(** * ni: the terminal rendering and input engine of [src/main.c]

    A shallow embedding of the row store, the viewport, the key decoder and
    the modal input dispatcher of the editor, and the properties its
    specification states about them.

    Conventions of the embedding.
    - A C [int] is a [Z]; the arithmetic the code does on it is written with
      [Int.add], [Int.sub], [Int.mul], which wrap around at 32 bits (two's
      complement, what the usual targets do on signed overflow), and
      [Int.rem], the truncating [%] of C99.  A [size_t] has 64 bits, and
      the bytes of an [int] are stored low byte first.
    - A [char] is the [Z] it converts to as an [int]; character literals are
      written [chr "q"].
    - A [char*] buffer is the list of the bytes it holds; the NUL byte the
      code stores behind a row's text is the default of the list lookup.
      The block of a dynamic string carries its state through [realloc]
      and [free]: not allocated, live, released, or misused, which is
      where the program has used a released block or copied outside of a
      block and C defines nothing any more.  What a read finds behind
      the end of a block is a parameter of the function that reads.
      Any other thing C leaves undefined is outside the model; the
      theorems name the ranges they hold on.
    - [exit] ends a run: the functions that may call it return an
      [outcome].
    - The terminal is the list of the results of the reads to come; what
      is written to it is the sequence [editorExit] sends and the frames
      of [editorRefreshScreen].
    - [snprintf], [strlen], [getline] and the character classes are the
      functions of the C library, in the C locale. *)

From Stdlib Require Import Ascii String ZArith List Bool Lia.
Import ListNotations.
Open Scope char_scope.
Open Scope Z_scope.

(** ** Machine integers *)

Module Int.

Definition INT_MAX : Z := 2147483647.
Definition INT_MIN : Z := -2147483648.

Definition in_range (z : Z) : Prop := INT_MIN <= z <= INT_MAX.
Definition in_rangeb (z : Z) : bool := (INT_MIN <=? z) && (z <=? INT_MAX).

(** The representative of [z] modulo [2^32] in the range of an [int]. *)
Definition wrap (z : Z) : Z := (z + 2147483648) mod 4294967296 - 2147483648.

Definition add (a b : Z) : Z := wrap (a + b).
Definition sub (a b : Z) : Z := wrap (a - b).
Definition mul (a b : Z) : Z := wrap (a * b).
(** [a % b]: the remainder has the sign of the dividend. *)
Definition rem (a b : Z) : Z := Z.rem a b.

End Int.

(** ** Characters *)

(** The code of a character literal. *)
Definition chr (a : ascii) : Z := Z.of_N (N_of_ascii a).

(** The bytes of a string literal. *)
Fixpoint bytes (s : string) : list Z :=
  match s with
  | EmptyString => []
  | String a s' => chr a :: bytes s'
  end.

Definition ESC : Z := 27.   (* '\x1b' *)
Definition TAB : Z := 9.    (* '\t' *)
Definition ENTER : Z := 13. (* '\r' *)

(** [<ctype.h>] in the "C" locale, the one a program that never calls
    [setlocale] runs in. *)
Definition isspace (c : Z) : bool := (c =? 32) || ((9 <=? c) && (c <=? 13)).
Definition isprint (c : Z) : bool := (32 <=? c) && (c <=? 126).
Definition ispunct (c : Z) : bool :=
  ((33 <=? c) && (c <=? 47)) || ((58 <=? c) && (c <=? 64)) ||
  ((91 <=? c) && (c <=? 96)) || ((123 <=? c) && (c <=? 126)).

(** ** Defines *)

Definition NI_TAB_STOP : Z := 4.

(** [#define CTRL_KEY(k) ((k) & 0x1f)] *)
Definition CTRL_KEY (k : Z) : Z := Z.land k 31.

(** [enum editorKeys] *)
Definition ARROW_LEFT : Z := 1000.
Definition ARROW_RIGHT : Z := 1001.
Definition ARROW_UP : Z := 1002.
Definition ARROW_DOWN : Z := 1003.
Definition DEL_KEY : Z := 1004.
Definition HOME_KEY : Z := 1005.
Definition END_KEY : Z := 1006.
Definition PAGE_UP : Z := 1007.
Definition PAGE_DOWN : Z := 1008.

(** [enum editorModes].  The type has the three modes only, so the last
    [else] of [editorProcessKeypress], which dies on any other value of
    [E.mode], has no counterpart below. *)
Inductive editorModes : Set := INSERT_MODE | NORMAL_MODE | COMMAND_MODE.

(** ** Rows *)

(** [erow]: [chars] holds the [size] bytes of the line and [render] the
    [rsize] bytes of its tab-expanded form; each is followed in memory by a
    NUL byte, which the lists leave out. *)
Record erow : Set := mk_erow {
  size : Z;
  rsize : Z;
  chars : list Z;
  render : list Z
}.

(** [row->chars[j]]; at [j = size] this is the terminating NUL. *)
Definition char_at (r : erow) (j : Z) : Z := nth (Z.to_nat j) (chars r) 0.

(** The body of the loop of [editorRowCxToRx]. *)
Definition rx_step (c rx : Z) : Z :=
  let rx1 :=
    if c =? TAB
    then Int.add rx (Int.sub (NI_TAB_STOP - 1) (Int.rem rx NI_TAB_STOP))
    else rx in
  Int.add rx1 1.

(** [for (j = j0; j < j0 + n; ++j)] of [editorRowCxToRx]. *)
Fixpoint cx_to_rx_loop (n : nat) (r : erow) (j rx : Z) : Z :=
  match n with
  | O => rx
  | S n' => cx_to_rx_loop n' r (j + 1) (rx_step (char_at r j) rx)
  end.

Definition editorRowCxToRx (r : erow) (cx_ : Z) : Z :=
  cx_to_rx_loop (Z.to_nat cx_) r 0 0.

(** [while (idx % NI_TAB_STOP != 0) row->render[idx++] = ' ';] the loop
    leaves after at most [NI_TAB_STOP - 1] rounds, see [pad_tab_stop]. *)
Fixpoint pad_tab (fuel : nat) (out : list Z) (idx : Z) : list Z * Z :=
  match fuel with
  | O => (out, idx)
  | S fuel' =>
      if Int.rem idx NI_TAB_STOP =? 0 then (out, idx)
      else pad_tab fuel' (out ++ [chr " "]) (Int.add idx 1)
  end.

(** The second loop of [editorUpdateRow]: [out] is [render[0..idx)]. *)
Fixpoint render_loop (cs : list Z) (out : list Z) (idx : Z) : list Z * Z :=
  match cs with
  | [] => (out, idx)
  | c :: cs' =>
      if c =? TAB
      then let '(out1, idx1) :=
             pad_tab (Z.to_nat NI_TAB_STOP) (out ++ [chr " "]) (Int.add idx 1) in
           render_loop cs' out1 idx1
      else render_loop cs' (out ++ [c]) (Int.add idx 1)
  end.

(** The first loop of [editorUpdateRow] counts the tabs, for the size of the
    block it allocates. *)
Definition count_tabs (cs : list Z) : Z :=
  fold_left (fun tabs c => if c =? TAB then Int.add tabs 1 else tabs) cs 0.

Definition editorUpdateRow (r : erow) : erow :=
  let '(out, idx) := render_loop (firstn (Z.to_nat (size r)) (chars r)) [] 0 in
  {| size := size r; rsize := idx; chars := chars r; render := out |}.

(** The row [editorAppendRow] builds from the [len] bytes at [s]. *)
Definition new_row (s : list Z) : erow :=
  editorUpdateRow
    {| size := Z.of_nat (length s); rsize := 0; chars := s; render := [] |}.

(** ** The dynamic string *)

(** The block the pointer [ab->b] stands for.
    - [Unallocated]: the pointer is NULL.
    - [Allocated]: it points to a live block.
    - [Released]: the block has been freed, and the pointer still holds
      its address.
    - [Misused]: the program has passed a released block to [realloc] or
      [free] once more, or has copied bytes to or read a string at a
      place that is no live block.  C leaves what the program does from
      there on undefined: what the model holds for such a buffer says
      nothing about the program. *)
Inductive block : Set := Unallocated | Allocated | Released | Misused.

(** [abuf]: [b] holds the bytes of the heap block, [len] is the length in
    use and [blk] the state of the block. *)
Record abuf : Set := mk_abuf {
  b : list Z;
  len : Z;
  blk : block
}.

Definition ABUF_INIT : abuf := {| b := []; len := 0; blk := Unallocated |}.

(** A pointer [realloc] and [free] accept: NULL, or a live block. *)
Definition in_order (k : block) : bool :=
  match k with
  | Unallocated | Allocated => true
  | Released | Misused => false
  end.

(** [abAppend(ab, s, n)]: [realloc(ab->b, ab->len + n)], and behind the
    first [len] bytes of the block it returns, the [n] bytes at [s].
    A negative [int] size converts to a [size_t] that no [realloc]
    grants: it returns NULL and the buffer stays as it is.  Any other
    request is taken to succeed, one of size 0 with a block as well.
    [memcpy(&new[ab->len], s, n)] stays inside the block for [len >= 0]
    and [n >= 0]; with [len < 0] the bytes that land in front of the
    block are a misuse, and [b] keeps those that land inside. *)
Definition abAppend (ab : abuf) (s : list Z) (n : Z) : abuf :=
  let size := Int.add (len ab) n in
  if (size <? 0) && in_order (blk ab) then ab
  else
    {| b := if 0 <=? len ab
            then firstn (Z.to_nat (len ab)) (b ab) ++ firstn (Z.to_nat n) s
            else skipn (Z.to_nat (- len ab)) (firstn (Z.to_nat n) s);
       len := size;
       blk := if in_order (blk ab) && (0 <=? len ab) && (0 <=? n)
              then Allocated else Misused |}.

(** [size_t] arithmetic: modulo [2^64]. *)
Definition to_size_t (z : Z) : Z := z mod 18446744073709551616.

(** [abDelete(ab, n)] with [size_t n]: in [ab->len - n > 0] the [int] length
    is converted to [size_t], so the difference is unsigned; [ab->len -= n]
    converts the unsigned difference back to [int].  The block is not
    touched. *)
Definition abDelete (ab : abuf) (n : Z) : abuf :=
  if to_size_t (len ab - n) >? 0
  then {| b := b ab; len := Int.wrap (to_size_t (len ab - n));
          blk := blk ab |}
  else ab.

(** [abFree]: [ab->len = 0; free(ab->b);].  The pointer is not reset: a
    live block is released and its address stays in [ab->b], a NULL
    pointer stays NULL, and a released block is freed a second time. *)
Definition abFree (ab : abuf) : abuf :=
  {| b := []; len := 0;
     blk := match blk ab with
            | Unallocated => Unallocated
            | Allocated => Released
            | Released | Misused => Misused
            end |}.

(** A [%s] conversion handed [ab->b]: it reads at a live block, and has
    nothing to read at NULL or at the address of a released block. *)
Definition read_string (ab : abuf) : abuf :=
  match blk ab with
  | Allocated => ab
  | Unallocated | Released | Misused =>
      {| b := b ab; len := len ab; blk := Misused |}
  end.

(** The bytes a [%s] conversion reads at an address: up to the first NUL. *)
Fixpoint c_string (mem : list Z) : list Z :=
  match mem with
  | [] => []
  | c :: mem' => if c =? 0 then [] else c :: c_string mem'
  end.

(** ** The session state *)

(** [struct editorConfig].  [statusmsg] is the text held by the 80-byte
    array; [statusmsg_time] and [orig_termios], which the functions below
    never read, are left out. *)
Record editorConfig : Set := mk_editorConfig {
  mode : editorModes;
  cmdbuf : abuf;
  cmdrep : Z;
  cx : Z;
  cy : Z;
  rx : Z;
  rowoff : Z;
  coloff : Z;
  screenrows : Z;
  screencols : Z;
  numrows : Z;
  row : list erow;
  filename : option (list Z);
  statusmsg : list Z
}.

Definition set_mode (v : editorModes) (E : editorConfig) : editorConfig :=
  mk_editorConfig v (cmdbuf E) (cmdrep E) (cx E) (cy E) (rx E) (rowoff E)
    (coloff E) (screenrows E) (screencols E) (numrows E) (row E) (filename E)
    (statusmsg E).
Definition set_cmdbuf (v : abuf) (E : editorConfig) : editorConfig :=
  mk_editorConfig (mode E) v (cmdrep E) (cx E) (cy E) (rx E) (rowoff E)
    (coloff E) (screenrows E) (screencols E) (numrows E) (row E) (filename E)
    (statusmsg E).
Definition set_cmdrep (v : Z) (E : editorConfig) : editorConfig :=
  mk_editorConfig (mode E) (cmdbuf E) v (cx E) (cy E) (rx E) (rowoff E)
    (coloff E) (screenrows E) (screencols E) (numrows E) (row E) (filename E)
    (statusmsg E).
Definition set_cx (v : Z) (E : editorConfig) : editorConfig :=
  mk_editorConfig (mode E) (cmdbuf E) (cmdrep E) v (cy E) (rx E) (rowoff E)
    (coloff E) (screenrows E) (screencols E) (numrows E) (row E) (filename E)
    (statusmsg E).
Definition set_cy (v : Z) (E : editorConfig) : editorConfig :=
  mk_editorConfig (mode E) (cmdbuf E) (cmdrep E) (cx E) v (rx E) (rowoff E)
    (coloff E) (screenrows E) (screencols E) (numrows E) (row E) (filename E)
    (statusmsg E).
Definition set_rx (v : Z) (E : editorConfig) : editorConfig :=
  mk_editorConfig (mode E) (cmdbuf E) (cmdrep E) (cx E) (cy E) v (rowoff E)
    (coloff E) (screenrows E) (screencols E) (numrows E) (row E) (filename E)
    (statusmsg E).
Definition set_rowoff (v : Z) (E : editorConfig) : editorConfig :=
  mk_editorConfig (mode E) (cmdbuf E) (cmdrep E) (cx E) (cy E) (rx E) v
    (coloff E) (screenrows E) (screencols E) (numrows E) (row E) (filename E)
    (statusmsg E).
Definition set_coloff (v : Z) (E : editorConfig) : editorConfig :=
  mk_editorConfig (mode E) (cmdbuf E) (cmdrep E) (cx E) (cy E) (rx E)
    (rowoff E) v (screenrows E) (screencols E) (numrows E) (row E)
    (filename E) (statusmsg E).
Definition set_statusmsg (v : list Z) (E : editorConfig) : editorConfig :=
  mk_editorConfig (mode E) (cmdbuf E) (cmdrep E) (cx E) (cy E) (rx E)
    (rowoff E) (coloff E) (screenrows E) (screencols E) (numrows E) (row E)
    (filename E) v.
Definition set_filename (v : option (list Z)) (E : editorConfig)
  : editorConfig :=
  mk_editorConfig (mode E) (cmdbuf E) (cmdrep E) (cx E) (cy E) (rx E)
    (rowoff E) (coloff E) (screenrows E) (screencols E) (numrows E) (row E)
    v (statusmsg E).
Definition set_rows (n : Z) (rows : list erow) (E : editorConfig)
  : editorConfig :=
  mk_editorConfig (mode E) (cmdbuf E) (cmdrep E) (cx E) (cy E) (rx E)
    (rowoff E) (coloff E) (screenrows E) (screencols E) n rows (filename E)
    (statusmsg E).

(** What a call that may [exit] leaves: the session goes on in a state, or
    the process has ended after writing [out] to the terminal. *)
Inductive outcome : Set :=
| Running (E : editorConfig)
| Exited (out : list Z) (status : Z).

Definition null_row : erow :=
  {| size := 0; rsize := 0; chars := []; render := [] |}.

(** [E.row[y]]. *)
Definition row_at (E : editorConfig) (y : Z) : erow :=
  nth (Z.to_nat y) (row E) null_row.

(** [editorAppendRow(s, len)] *)
Definition editorAppendRow (s : list Z) (E : editorConfig) : editorConfig :=
  set_rows (Int.add (numrows E) 1) (row E ++ [new_row s]) E.

(** [editorSetStatusMsg]: [vsnprintf] into the 80-byte [E.statusmsg] keeps
    the first 79 bytes of the formatted text [msg]. *)
Definition editorSetStatusMsg (msg : list Z) (E : editorConfig)
  : editorConfig :=
  set_statusmsg (firstn 79 msg) E.

(** [initEditor], for a window of [ws_row] by [ws_col] cells. *)
Definition initEditor (ws_row ws_col : Z) : editorConfig :=
  {| mode := NORMAL_MODE; cmdbuf := ABUF_INIT; cmdrep := 0;
     cx := 0; cy := 0; rx := 0; rowoff := 0; coloff := 0;
     screenrows := Int.sub ws_row 2; screencols := ws_col;
     numrows := 0; row := []; filename := None; statusmsg := [] |}.

(** [editorOpen(filename)], for a file that holds [lines] (each with its
    line terminator stripped). *)
Definition editorOpen (fname : list Z) (lines : list (list Z))
    (E : editorConfig) : editorConfig :=
  fold_left (fun E' s => editorAppendRow s E') lines
    (set_filename (Some fname) E).

(** The state [main] enters its loop with, in a window of [ws_row] by
    [ws_col] cells: [initEditor], the file when one is named, and the
    welcome message. *)
Definition startup (ws_row ws_col : Z)
    (file : option (list Z * list (list Z))) : editorConfig :=
  let E := initEditor ws_row ws_col in
  let E :=
    match file with
    | Some (fname, lines) => editorOpen fname lines E
    | None => E
    end in
  editorSetStatusMsg (bytes "Welcome") E.

(** [editorExit]: clear the screen, home the cursor, [exit(0)]. *)
Definition editorExit : outcome :=
  Exited ((ESC :: bytes "[2J") ++ (ESC :: bytes "[H")) 0.

(** ** Normal and command mode helpers *)

Definition editorNormalModeNumRep (n : Z) (E : editorConfig) : editorConfig :=
  set_cmdrep (Int.add (Int.mul (cmdrep E) 10) n) E.

(** The loop of [editorCommandModeHandle] over [cmdbuf.b[0..len)]. *)
Definition scan_quit (ab : abuf) : bool :=
  fold_left (fun quit c => if c =? chr "q" then true else quit)
    (firstn (Z.to_nat (len ab)) (b ab)) false.

Definition editorCommandModeHandle (E : editorConfig) : outcome :=
  if scan_quit (cmdbuf E) then editorExit else Running E.

(** ** The viewport *)

Definition editorScroll (E : editorConfig) : editorConfig :=
  let E := set_rx 0 E in
  let E :=
    if cy E <? numrows E
    then set_rx (editorRowCxToRx (row_at E (cy E)) (cx E)) E else E in
  let E := if cy E <? rowoff E then set_rowoff (cy E) E else E in
  let E :=
    if cy E >=? Int.add (rowoff E) (screenrows E)
    then set_rowoff (Int.add (Int.sub (cy E) (screenrows E)) 1) E else E in
  let E := if rx E <? coloff E then set_coloff (rx E) E else E in
  let E :=
    if rx E >=? Int.add (coloff E) (screencols E)
    then set_coloff (Int.add (Int.sub (rx E) (screencols E)) 1) E else E in
  E.

(** ** Cursor motion *)

(** [while (E.cx < row->size && !isspace(E.row[E.cy].chars[E.cx++])) {}]:
    the column moves on each time the byte is read. *)
Fixpoint skip_WORD (fuel : nat) (r : erow) (x : Z) : Z :=
  match fuel with
  | O => x
  | S fuel' =>
      if x <? size r
      then if isspace (char_at r x) then Int.add x 1
           else skip_WORD fuel' r (Int.add x 1)
      else x
  end.

(** [while (E.cx < row->size && !isspace(E.row[E.cy].chars[E.cx++])
           && !ispunct(E.row[E.cy].chars[E.cx])) {}]:
    the second test reads the byte behind the one just passed. *)
Fixpoint skip_word (fuel : nat) (r : erow) (x : Z) : Z :=
  match fuel with
  | O => x
  | S fuel' =>
      if x <? size r
      then if isspace (char_at r x) then Int.add x 1
           else if ispunct (char_at r (Int.add x 1)) then Int.add x 1
           else skip_word fuel' r (Int.add x 1)
      else x
  end.

(** [while (E.cx < row->size && E.row[E.cy].chars[E.cx] == ' ') E.cx++;] *)
Fixpoint skip_spaces (fuel : nat) (r : erow) (x : Z) : Z :=
  match fuel with
  | O => x
  | S fuel' =>
      if (x <? size r) && (char_at r x =? chr " ")
      then skip_spaces fuel' r (Int.add x 1)
      else x
  end.

(** Rounds that suffice for the three loops above from column [x]: each
    round moves the column on by one and needs it below [size]. *)
Definition rounds (r : erow) (x : Z) : nat := Z.to_nat (size r - x).

(** [erow *row = (E.cy >= E.numrows) ? NULL : &E.row[E.cy];] *)
Definition current_row (E : editorConfig) : option erow :=
  if cy E >=? numrows E then None else Some (row_at E (cy E)).

(** The [switch] of [editorMoveCursor]. *)
Definition cursor_switch (key : Z) (E : editorConfig) : editorConfig :=
  if (key =? chr "k") || (key =? ARROW_UP) then
    if negb (cy E =? 0) then set_cy (Int.sub (cy E) 1) E else E
  else if (key =? chr "j") || (key =? ARROW_DOWN) then
    if cy E <? numrows E then set_cy (Int.add (cy E) 1) E else E
  else if (key =? chr "h") || (key =? ARROW_LEFT) then
    if negb (cx E =? 0) then set_cx (Int.sub (cx E) 1) E
    else if cy E >? 0
         then let E' := set_cy (Int.sub (cy E) 1) E in
              set_cx (size (row_at E' (cy E'))) E'
         else E
  else if (key =? chr "l") || (key =? ARROW_RIGHT) then
    match current_row E with
    | Some r =>
        if cx E <? size r then set_cx (Int.add (cx E) 1) E
        else if cx E =? size r
             then set_cx 0 (set_cy (Int.add (cy E) 1) E)
             else E
    | None => E
    end
  else if (key =? chr "w") || (key =? chr "W") ||
          (key =? chr "e") || (key =? chr "E") then
    match current_row E with
    | Some r =>
        let x1 :=
          if (key =? chr "W") || (key =? chr "E")
          then skip_WORD (rounds r (cx E)) r (cx E)
          else skip_word (rounds r (cx E)) r (cx E) in
        let x2 :=
          if (key =? chr "W") || (key =? chr "w")
          then skip_spaces (rounds r x1) r x1
          else x1 in
        if x2 >=? size r
        then set_cx 0 (set_cy (Int.add (cy E) 1) E)
        else set_cx x2 E
    | None => E
    end
  else E.

(** [int rowlen = row ? row->size : 0;] for the row the cursor is on. *)
Definition rowlen (E : editorConfig) : Z :=
  match current_row E with Some r => size r | None => 0 end.

(** The end of [editorMoveCursor]: snap cursor to end of line. *)
Definition snap_cursor (E : editorConfig) : editorConfig :=
  if cx E >? rowlen E then set_cx (rowlen E) E else E.

Definition editorMoveCursor (key : Z) (E : editorConfig) : editorConfig :=
  snap_cursor (cursor_switch key E).

(** ** The input dispatcher *)

(** [int times = n; while (times--) body;]: [n] rounds for [n >= 0]; a
    negative counter runs down through the wrap-around before it meets 0. *)
Definition while_times (n : Z) (body : editorConfig -> editorConfig)
    (E : editorConfig) : editorConfig :=
  Nat.iter (Z.to_nat (n mod 4294967296)) body E.

Definition is_page_up (c : Z) : bool :=
  (c =? PAGE_UP) || (c =? CTRL_KEY (chr "u")).
Definition is_page_down (c : Z) : bool :=
  (c =? PAGE_DOWN) || (c =? CTRL_KEY (chr "d")).

(** The block of the [PAGE_UP]/[PAGE_DOWN]/Ctrl-U/Ctrl-D case. *)
Definition page_move (c : Z) (E : editorConfig) : editorConfig :=
  let E1 :=
    if is_page_up c then set_cy (rowoff E) E
    else if is_page_down c then
      let E' :=
        set_cy (Int.sub (Int.add (rowoff E) (screenrows E)) 1) E in
      if cy E' >? numrows E' then set_cy (numrows E') E' else E'
    else E in
  while_times (screenrows E1)
    (editorMoveCursor (if is_page_down c then ARROW_DOWN else ARROW_UP)) E1.

(** The labels of the case that calls [editorMoveCursor] in normal mode. *)
Definition is_motion_key (c : Z) : bool :=
  (c =? chr "k") || (c =? chr "j") || (c =? chr "l") || (c =? chr "h") ||
  (c =? ARROW_UP) || (c =? ARROW_DOWN) || (c =? ARROW_LEFT) ||
  (c =? ARROW_RIGHT) ||
  (c =? chr "w") || (c =? chr "W") || (c =? chr "b") || (c =? chr "B") ||
  (c =? chr "e") || (c =? chr "E").

Definition is_arrow (c : Z) : bool :=
  (c =? ARROW_UP) || (c =? ARROW_DOWN) || (c =? ARROW_LEFT) ||
  (c =? ARROW_RIGHT).

(** The test that sends a key of normal mode to the repeat count. *)
Definition is_count_digit (c : Z) (E : editorConfig) : bool :=
  (c <=? chr "9") &&
  ((c >=? chr "1") || (negb (cmdrep E =? 0) && (c >=? chr "0"))).

(** The [switch] of normal mode. *)
Definition normal_switch (c : Z) (E : editorConfig) : outcome :=
  if c =? chr "i" then Running (set_mode INSERT_MODE E)
  else if c =? chr ":" then
    Running (editorSetStatusMsg (bytes ":") (set_mode COMMAND_MODE E))
  else if c =? CTRL_KEY (chr "q") then editorExit
  else if (c =? chr "0") || (c =? HOME_KEY) then Running (set_cx 0 E)
  else if (c =? chr "$") || (c =? END_KEY) then
    Running (if cy E <? numrows E
             then set_cx (size (row_at E (cy E))) E else E)
  else if is_page_up c || is_page_down c then Running (page_move c E)
  else if is_motion_key c then Running (editorMoveCursor c E)
  else Running E.

(** The text [":%s"] formats from the command buffer.  [abAppend] stores no
    terminator, so the conversion reads on through [beyond], the bytes that
    lie behind the block. *)
Definition cmdline (ab : abuf) (beyond : list Z) : list Z :=
  chr ":" :: c_string (b ab ++ beyond).

(** [editorProcessKeypress] from the key [c] that [editorReadKey] returned.
    The byte appended in command mode is the one at [(char * ) &c], the low
    byte of the [int] on a little-endian target; [editorSetStatusMsg] then
    reads the command buffer through [%s], which [read_string] records
    on the block.  A state whose command buffer is [Misused] stands for
    a program that has left what C defines. *)
Definition editorProcessKeypress (beyond : list Z) (c : Z) (E : editorConfig)
  : outcome :=
  match mode E with
  | NORMAL_MODE =>
      if is_count_digit c E
      then Running (editorNormalModeNumRep (Int.sub c (chr "0")) E)
      else match normal_switch c E with
           | Running E' => Running (set_cmdrep 0 E')
           | Exited out status => Exited out status
           end
  | INSERT_MODE =>
      if c =? ESC then Running (set_mode NORMAL_MODE E)
      else if is_arrow c then Running (editorMoveCursor c E)
      else Running E
  | COMMAND_MODE =>
      if c =? ENTER then
        match editorCommandModeHandle E with
        | Running E1 =>
            Running (set_mode NORMAL_MODE
                       (editorSetStatusMsg []
                          (set_cmdbuf (abFree (cmdbuf E1)) E1)))
        | Exited out status => Exited out status
        end
      else if c =? ESC then
        Running (set_mode NORMAL_MODE
                   (editorSetStatusMsg []
                      (set_cmdbuf (abFree (cmdbuf E)) E)))
      else if c =? chr "8" then
        Running (set_cmdbuf (abDelete (cmdbuf E) 1) E)
      else if isprint c then
        let E1 :=
          set_cmdbuf (read_string (abAppend (cmdbuf E) [c mod 256] 1)) E in
        Running (editorSetStatusMsg (cmdline (cmdbuf E1) beyond) E1)
      else Running E
  end.

(** A run of keys, each preceded by the scroll adjustment of
    [editorRefreshScreen], as in the loop of [main]. *)
Fixpoint session (beyond : list Z) (keys : list Z) (E : editorConfig)
  : outcome :=
  match keys with
  | [] => Running E
  | c :: keys' =>
      match editorProcessKeypress beyond c (editorScroll E) with
      | Running E' => session beyond keys' E'
      | Exited out status => Exited out status
      end
  end.

(** ** The key decoder *)

(** What one [read(STDIN_FILENO, &c, 1)] returns: 1 with a byte, 0 after
    the timeout, or -1 with [errno] being [EAGAIN] or something else. *)
Inductive read_result : Set :=
| ReadByte (c : Z)
| ReadTimeout
| ReadEAGAIN
| ReadError.

(** The terminal as the results of the reads to come; once the list is
    used up every read times out. *)
Definition read1 (inp : list read_result) : read_result * list read_result :=
  match inp with
  | [] => (ReadTimeout, [])
  | r :: rest => (r, rest)
  end.

Inductive key_result : Set :=
| Key (c : Z) (rest : list read_result)
| Die (what : list Z)
| Waiting.

(** [while ((nread = read(..)) != 1) if (nread == -1 && errno != EAGAIN)
    die("read");] and the decoding of the byte it leaves with. *)
Definition decode_escape (rest : list read_result) : key_result :=
  match read1 rest with
  | (ReadByte seq0, rest1) =>
      match read1 rest1 with
      | (ReadByte seq1, rest2) =>
          if seq0 =? chr "[" then
            if (seq1 >=? chr "0") && (seq1 <=? chr "9") then
              match read1 rest2 with
              | (ReadByte seq2, rest3) =>
                  if seq2 =? chr "~" then
                    if seq1 =? chr "1" then Key HOME_KEY rest3
                    else if seq1 =? chr "3" then Key DEL_KEY rest3
                    else if seq1 =? chr "4" then Key END_KEY rest3
                    else if seq1 =? chr "5" then Key PAGE_UP rest3
                    else if seq1 =? chr "6" then Key PAGE_DOWN rest3
                    else if seq1 =? chr "7" then Key HOME_KEY rest3
                    else if seq1 =? chr "8" then Key END_KEY rest3
                    else Key ESC rest3
                  else Key ESC rest3
              | (_, rest3) => Key ESC rest3
              end
            else if seq1 =? chr "A" then Key ARROW_UP rest2
            else if seq1 =? chr "B" then Key ARROW_DOWN rest2
            else if seq1 =? chr "C" then Key ARROW_RIGHT rest2
            else if seq1 =? chr "D" then Key ARROW_LEFT rest2
            else if seq1 =? chr "H" then Key HOME_KEY rest2
            else if seq1 =? chr "F" then Key END_KEY rest2
            else Key ESC rest2
          else Key ESC rest2
      | (_, rest2) => Key ESC rest2
      end
  | (_, rest1) => Key ESC rest1
  end.

Fixpoint editorReadKey (inp : list read_result) : key_result :=
  match inp with
  | [] => Waiting
  | ReadByte c :: rest => if c =? ESC then decode_escape rest else Key c rest
  | ReadError :: _ => Die (bytes "read")
  | ReadTimeout :: rest => editorReadKey rest
  | ReadEAGAIN :: rest => editorReadKey rest
  end.

(** * Facts *)

(** ** Machine integers *)

Module IntFacts.
Import Int.

Lemma in_rangeb_spec z : in_rangeb z = true <-> in_range z.
Proof. unfold in_rangeb, in_range. rewrite andb_true_iff. lia. Qed.

Lemma wrap_range z : in_range (wrap z).
Proof.
  unfold wrap, in_range, INT_MIN, INT_MAX.
  pose proof (Z.mod_pos_bound (z + 2147483648) 4294967296). lia.
Qed.

Lemma wrap_id z : in_range z -> wrap z = z.
Proof.
  unfold wrap, in_range, INT_MIN, INT_MAX. intros Hz.
  rewrite Z.mod_small by lia. lia.
Qed.

(** One overflow past [INT_MAX] lands [2^32] lower. *)
Lemma wrap_above z :
  INT_MAX < z <= 2 * INT_MAX -> wrap z = z - 4294967296.
Proof.
  unfold wrap, INT_MAX. intros Hz.
  replace (z + 2147483648) with ((z - 2147483648) + 1 * 4294967296) by lia.
  rewrite Z.mod_add by lia. rewrite Z.mod_small by lia. lia.
Qed.

Lemma add_id a b : in_range (a + b) -> add a b = a + b.
Proof. apply wrap_id. Qed.

Lemma sub_id a b : in_range (a - b) -> sub a b = a - b.
Proof. apply wrap_id. Qed.

Lemma mul_id a b : in_range (a * b) -> mul a b = a * b.
Proof. apply wrap_id. Qed.

End IntFacts.

(** Case analysis on a test whose condition holds no other test. *)
Ltac break_if :=
  match goal with
  | |- context [if ?c then _ else _] =>
      lazymatch c with
      | context [if _ then _ else _] => fail
      | _ => destruct c eqn:?
      end
  end.

(** Projections and field updates of the session state, and nothing else. *)
Ltac state_red :=
  cbv beta iota zeta delta
    [set_mode set_cmdbuf set_cmdrep set_cx set_cy set_rx set_rowoff
     set_coloff set_statusmsg set_filename set_rows
     mode cmdbuf cmdrep cx cy rx rowoff coloff screenrows screencols
     numrows row filename statusmsg].

Ltac state_cbn :=
  cbn [set_mode set_cmdbuf set_cmdrep set_cx set_cy set_rx set_rowoff
       set_coloff set_statusmsg set_filename set_rows
       mode cmdbuf cmdrep cx cy rx rowoff coloff screenrows screencols
       numrows row filename statusmsg].

Ltac state_cbn_all :=
  cbn [set_mode set_cmdbuf set_cmdrep set_cx set_cy set_rx set_rowoff
       set_coloff set_statusmsg set_filename set_rows
       mode cmdbuf cmdrep cx cy rx rowoff coloff screenrows screencols
       numrows row filename statusmsg] in *.

(** Character literals as numerals, for [lia]. *)
Ltac chr_norm :=
  repeat match goal with
  | |- context [chr ?a] =>
      let v := eval vm_compute in (chr a) in change (chr a) with v
  | H : context [chr ?a] |- _ =>
      let v := eval vm_compute in (chr a) in change (chr a) with v in H
  end.

(** Case analysis on the integer comparisons of the goal. *)
Ltac zcases :=
  repeat match goal with
  | |- context [?a =? ?b] => destruct (Z.eqb_spec a b)
  | |- context [?a <=? ?b] => destruct (Z.leb_spec a b)
  | |- context [?a <? ?b] => destruct (Z.ltb_spec a b)
  | |- context [?a >=? ?b] => destruct (Z.geb_spec a b)
  | |- context [?a >? ?b] => destruct (Z.gtb_spec a b)
  end.

(** ** Tab expansion *)

Lemma cx_to_rx_loop_snoc n : forall r j rx,
  cx_to_rx_loop (S n) r j rx =
  rx_step (char_at r (j + Z.of_nat n)) (cx_to_rx_loop n r j rx).
Proof.
  induction n as [|n IH]; intros r j rx.
  - simpl. now rewrite Z.add_0_r.
  - change (cx_to_rx_loop (S (S n)) r j rx)
      with (cx_to_rx_loop (S n) r (j + 1) (rx_step (char_at r j) rx)).
    rewrite IH. simpl cx_to_rx_loop at 2.
    f_equal. f_equal. lia.
Qed.

Lemma editorRowCxToRx_succ r k :
  0 <= k ->
  editorRowCxToRx r (k + 1) = rx_step (char_at r k) (editorRowCxToRx r k).
Proof.
  intros Hk. unfold editorRowCxToRx.
  replace (Z.to_nat (k + 1)) with (S (Z.to_nat k)) by lia.
  rewrite cx_to_rx_loop_snoc. rewrite Z.add_0_l, Z2Nat.id by lia. reflexivity.
Qed.

(** Without overflow a step adds between 1 and [NI_TAB_STOP] cells. *)
Lemma rx_step_exact c rx :
  0 <= rx -> rx + NI_TAB_STOP <= Int.INT_MAX ->
  rx_step c rx = rx + (if c =? TAB then NI_TAB_STOP - rx mod NI_TAB_STOP else 1).
Proof.
  unfold rx_step, NI_TAB_STOP, Int.INT_MAX, Int.rem. intros H0 Hm.
  rewrite Z.rem_mod_nonneg by lia.
  pose proof (Z.mod_pos_bound rx 4 ltac:(lia)) as Hb.
  destruct (c =? TAB).
  - rewrite (IntFacts.sub_id (4 - 1)) by (unfold Int.in_range, Int.INT_MIN, Int.INT_MAX; lia).
    rewrite (IntFacts.add_id rx) by (unfold Int.in_range, Int.INT_MIN, Int.INT_MAX; lia).
    rewrite IntFacts.add_id by (unfold Int.in_range, Int.INT_MIN, Int.INT_MAX; lia).
    lia.
  - rewrite IntFacts.add_id by (unfold Int.in_range, Int.INT_MIN, Int.INT_MAX; lia).
    reflexivity.
Qed.

Lemma editorRowCxToRx_bounds r k :
  0 <= k -> NI_TAB_STOP * k <= Int.INT_MAX ->
  k <= editorRowCxToRx r k <= NI_TAB_STOP * k.
Proof.
  intros Hk. pattern k. apply natlike_ind; [ | | exact Hk].
  - intros _. unfold editorRowCxToRx. simpl. lia.
  - clear k Hk. intros k Hk IH Hm. unfold Z.succ in *.
    rewrite editorRowCxToRx_succ by lia.
    unfold NI_TAB_STOP in *.
    specialize (IH ltac:(lia)).
    rewrite rx_step_exact by (unfold NI_TAB_STOP; lia).
    unfold NI_TAB_STOP.
    pose proof (Z.mod_pos_bound (editorRowCxToRx r k) 4 ltac:(lia)).
    destruct (_ =? TAB); lia.
Qed.

Definition row_a_tab_b : erow := new_row [chr "a"; TAB; chr "b"].

(** C1. Tab expansion follows the TAB_STOP rule.  [editorRowCxToRx] starts
    from width 0 and, for every row and every [cx] below the row's size (the
    widths fitting an [int]), the byte at [cx] adds
    [NI_TAB_STOP - (width % NI_TAB_STOP)] cells when it is a tab and one cell
    otherwise.  For the row ["a\tb"], [editorUpdateRow] renders ["a   b"]
    (five bytes), and [editorRowCxToRx] gives 1 at [cx = 1] and 4 at
    [cx = 2]. *)
Theorem tab_stop_rule :
  (forall r, editorRowCxToRx r 0 = 0) /\
  (forall r k,
      0 <= k < size r -> NI_TAB_STOP * (k + 1) <= Int.INT_MAX ->
      editorRowCxToRx r (k + 1) =
      editorRowCxToRx r k +
      (if char_at r k =? TAB
       then NI_TAB_STOP - (editorRowCxToRx r k) mod NI_TAB_STOP
       else 1)) /\
  NI_TAB_STOP = 4 /\
  render row_a_tab_b = bytes "a   b" /\
  rsize row_a_tab_b = 5 /\
  editorRowCxToRx row_a_tab_b 1 = 1 /\
  editorRowCxToRx row_a_tab_b 2 = 4.
Proof.
  split; [reflexivity|]. split; [|now vm_compute].
  intros r k Hk Hm.
  rewrite editorRowCxToRx_succ by lia.
  pose proof (editorRowCxToRx_bounds r k ltac:(lia)
                ltac:(unfold NI_TAB_STOP in *; lia)) as Hb.
  apply rx_step_exact; unfold NI_TAB_STOP in *; lia.
Qed.

Lemma tab_stop_rule_witness :
  editorRowCxToRx row_a_tab_b (1 + 1) =
  editorRowCxToRx row_a_tab_b 1 +
  (if char_at row_a_tab_b 1 =? TAB
   then NI_TAB_STOP - (editorRowCxToRx row_a_tab_b 1) mod NI_TAB_STOP
   else 1).
Proof.
  apply (proj1 (proj2 tab_stop_rule) row_a_tab_b 1).
  - vm_compute. split; [discriminate | reflexivity].
  - vm_compute. discriminate.
Defined.

Lemma pad_tab_rem fuel : forall out idx,
  0 <= idx -> idx + Z.of_nat fuel <= Int.INT_MAX ->
  (exists k, 0 <= k < Z.of_nat fuel /\ (idx + k) mod NI_TAB_STOP = 0) ->
  Int.rem (snd (pad_tab fuel out idx)) NI_TAB_STOP = 0.
Proof.
  unfold Int.rem, Int.INT_MAX.
  induction fuel as [|fuel IH]; intros out idx H0 Hm [k [Hk Hz]].
  - lia.
  - cbn [pad_tab]. unfold Int.rem.
    destruct (Z.eqb_spec (Z.rem idx NI_TAB_STOP) 0) as [E0|E0]; [exact E0|].
    rewrite IntFacts.add_id
      by (unfold Int.in_range, Int.INT_MIN, Int.INT_MAX; lia).
    apply IH; try lia.
    exists (k - 1). split.
    + assert (k <> 0); [|lia]. intros ->.
      rewrite Z.add_0_r in Hz. apply E0.
      rewrite Z.rem_mod_nonneg by (unfold NI_TAB_STOP; lia). exact Hz.
    + rewrite <- Hz. f_equal. lia.
Qed.

(** The padding loop of [editorUpdateRow] has left through its test, not
    for want of rounds, once [NI_TAB_STOP] of them are allowed. *)
Lemma pad_tab_stop out idx :
  0 <= idx -> idx + NI_TAB_STOP <= Int.INT_MAX ->
  Int.rem (snd (pad_tab (Z.to_nat NI_TAB_STOP) out idx)) NI_TAB_STOP = 0.
Proof.
  intros H0 Hm. apply pad_tab_rem; [exact H0 | exact Hm | ].
  exists ((NI_TAB_STOP - idx mod NI_TAB_STOP) mod NI_TAB_STOP).
  unfold NI_TAB_STOP. split.
  - change (Z.of_nat (Z.to_nat 4)) with 4. apply Z.mod_pos_bound. lia.
  - rewrite Z.add_mod_idemp_r by lia.
    replace (idx + (4 - idx mod 4)) with (idx - idx mod 4 + 1 * 4) by lia.
    rewrite Z.mod_add by lia.
    rewrite Zminus_mod_idemp_r. rewrite Z.sub_diag. reflexivity.
Qed.

(** ** The viewport *)

Lemma editorRowCxToRx_range r k : Int.in_range (editorRowCxToRx r k).
Proof.
  unfold editorRowCxToRx.
  destruct (Z.to_nat k) as [|n].
  - cbn. unfold Int.in_range, Int.INT_MIN, Int.INT_MAX. lia.
  - rewrite cx_to_rx_loop_snoc. unfold rx_step, Int.add.
    apply IntFacts.wrap_range.
Qed.

(** The two clamps of [editorScroll] on one axis: the position [p], the
    offset [off] and the extent [n] of the window. *)
Definition clamp_offset (p off n : Z) : Z :=
  let off1 := if p <? off then p else off in
  if p >=? Int.add off1 n then Int.add (Int.sub p n) 1 else off1.

Lemma clamp_offset_visible p off n :
  Int.in_range p -> Int.in_range off -> Int.in_range n -> 1 <= n ->
  clamp_offset p off n <= p < clamp_offset p off n + n.
Proof.
  unfold clamp_offset, Int.add, Int.sub. intros Hp Ho Hn H1.
  set (off1 := if p <? off then p else off).
  assert (H1o : off1 <= p /\ Int.in_range off1).
  { subst off1. destruct (Z.ltb_spec p off); split; auto; lia. }
  destruct H1o as [Hle Hr1].
  unfold Int.in_range, Int.INT_MIN, Int.INT_MAX in *.
  destruct (Z_le_gt_dec (off1 + n) 2147483647) as [Hfit|Hover].
  - rewrite (IntFacts.wrap_id (off1 + n))
      by (unfold Int.in_range, Int.INT_MIN, Int.INT_MAX; lia).
    destruct (Z.geb_spec p (off1 + n)) as [Hge|Hlt].
    + rewrite (IntFacts.wrap_id (p - n))
        by (unfold Int.in_range, Int.INT_MIN, Int.INT_MAX; lia).
      rewrite IntFacts.wrap_id
        by (unfold Int.in_range, Int.INT_MIN, Int.INT_MAX; lia).
      lia.
    + lia.
  - rewrite (IntFacts.wrap_above (off1 + n)) by (unfold Int.INT_MAX; lia).
    destruct (Z.geb_spec p (off1 + n - 4294967296)) as [Hge|Hlt]; [|lia].
    rewrite (IntFacts.wrap_id (p - n))
      by (unfold Int.in_range, Int.INT_MIN, Int.INT_MAX; lia).
    rewrite IntFacts.wrap_id
      by (unfold Int.in_range, Int.INT_MIN, Int.INT_MAX; lia).
    lia.
Qed.

(** The value [editorScroll] leaves in [E.rx]. *)
Definition scroll_rx (E : editorConfig) : Z :=
  if cy E <? numrows E then editorRowCxToRx (row_at E (cy E)) (cx E) else 0.

(** The three stages of [editorScroll]: the rendered column, the row
    offset, the column offset. *)
Definition scroll_stage_rx (E : editorConfig) : editorConfig :=
  let E1 := set_rx 0 E in
  if cy E1 <? numrows E1
  then set_rx (editorRowCxToRx (row_at E1 (cy E1)) (cx E1)) E1 else E1.

Definition scroll_stage_row (E : editorConfig) : editorConfig :=
  let E1 := if cy E <? rowoff E then set_rowoff (cy E) E else E in
  if cy E1 >=? Int.add (rowoff E1) (screenrows E1)
  then set_rowoff (Int.add (Int.sub (cy E1) (screenrows E1)) 1) E1 else E1.

Definition scroll_stage_col (E : editorConfig) : editorConfig :=
  let E1 := if rx E <? coloff E then set_coloff (rx E) E else E in
  if rx E1 >=? Int.add (coloff E1) (screencols E1)
  then set_coloff (Int.add (Int.sub (rx E1) (screencols E1)) 1) E1 else E1.

Lemma editorScroll_stages E :
  editorScroll E = scroll_stage_col (scroll_stage_row (scroll_stage_rx E)).
Proof. reflexivity. Qed.

Lemma scroll_stage_rx_eq E : scroll_stage_rx E = set_rx (scroll_rx E) E.
Proof.
  destruct E as [m cb cr x y r ro co sr sc nr rw fn sm].
  unfold scroll_stage_rx, scroll_rx, row_at. state_red. break_if; reflexivity.
Qed.

Lemma scroll_stage_row_eq E :
  scroll_stage_row E =
  set_rowoff (clamp_offset (cy E) (rowoff E) (screenrows E)) E.
Proof.
  destruct E as [m cb cr x y r ro co sr sc nr rw fn sm].
  unfold scroll_stage_row, clamp_offset. state_red.
  destruct (y <? ro); state_red; break_if; reflexivity.
Qed.

Lemma scroll_stage_col_eq E :
  scroll_stage_col E =
  set_coloff (clamp_offset (rx E) (coloff E) (screencols E)) E.
Proof.
  destruct E as [m cb cr x y r ro co sr sc nr rw fn sm].
  unfold scroll_stage_col, clamp_offset. state_red.
  destruct (r <? co); state_red; break_if; reflexivity.
Qed.

(** [editorScroll] as three field updates. *)
Lemma editorScroll_eq E :
  editorScroll E =
  set_coloff (clamp_offset (scroll_rx E) (coloff E) (screencols E))
    (set_rowoff (clamp_offset (cy E) (rowoff E) (screenrows E))
       (set_rx (scroll_rx E) E)).
Proof.
  rewrite editorScroll_stages, scroll_stage_rx_eq, scroll_stage_row_eq,
    scroll_stage_col_eq.
  destruct E; reflexivity.
Qed.

Lemma editorScroll_fields E :
  let E' := editorScroll E in
  mode E' = mode E /\ cmdbuf E' = cmdbuf E /\ cmdrep E' = cmdrep E /\
  cx E' = cx E /\ cy E' = cy E /\
  screenrows E' = screenrows E /\ screencols E' = screencols E /\
  numrows E' = numrows E /\ row E' = row E /\
  filename E' = filename E /\ statusmsg E' = statusmsg E /\
  rx E' = (if cy E <? numrows E
           then editorRowCxToRx (row_at E (cy E)) (cx E) else 0) /\
  rowoff E' = clamp_offset (cy E) (rowoff E) (screenrows E) /\
  coloff E' = clamp_offset (rx E') (coloff E) (screencols E).
Proof.
  cbv zeta. rewrite editorScroll_eq. destruct E. repeat split.
Qed.


Definition scrolled_example : editorConfig :=
  set_cy 25 (set_cx 2
    (startup 12 80
       (Some (bytes "f", repeat [chr "a"; TAB; chr "b"] 30)))).


(** ** The key decoder *)

(** The next read delivers no byte: it times out or fails. *)
Definition no_byte (inp : list read_result) : Prop :=
  match inp with
  | ReadByte _ :: _ => False
  | _ => True
  end.

(** The input [ESC s0 s1 ...] as the reads deliver it. *)
Definition esc_seq (s : list Z) (rest : list read_result)
  : list read_result :=
  ReadByte ESC :: map ReadByte s ++ rest.

Lemma read1_no_byte inp :
  no_byte inp ->
  match read1 inp with
  | (ReadByte _, _) => False
  | (_, rest) => rest = tl inp
  end.
Proof. destruct inp as [|[c| | |] rest]; cbn; intuition. Qed.

(** Reads that deliver nothing are waited out before the first byte. *)
Lemma editorReadKey_wait inp :
  editorReadKey (ReadTimeout :: inp) = editorReadKey inp /\
  editorReadKey (ReadEAGAIN :: inp) = editorReadKey inp.
Proof. split; reflexivity. Qed.

(** C4. The key decoder maps escape sequences to semantic keys as the
    specification lists them.  A first byte other than ESC is returned as
    it is.  After ESC, a lookahead read that delivers no byte (the first or
    the second) gives ESC alone; [ESC [ A/B/C/D] give the arrows up, down,
    right, left; [ESC [ H] and [ESC [ F] give Home and End;
    [ESC [ <digit> ~] gives Home for 1 and 7, Delete for 3, End for 4 and
    8, PageUp for 5, PageDown for 6; a digit whose third lookahead read
    delivers no byte, or a byte other than [~], gives ESC; and every other
    combination gives ESC alone. *)
Theorem key_decoder_table :
  (forall c rest, c <> ESC -> editorReadKey (ReadByte c :: rest) = Key c rest)
  /\
  (forall inp, no_byte inp ->
     editorReadKey (ReadByte ESC :: inp) = Key ESC (tl inp)) /\
  (forall s0 inp, no_byte inp ->
     editorReadKey (ReadByte ESC :: ReadByte s0 :: inp) = Key ESC (tl inp))
  /\
  (forall rest,
     editorReadKey (esc_seq [chr "["; chr "A"] rest) = Key ARROW_UP rest /\
     editorReadKey (esc_seq [chr "["; chr "B"] rest) = Key ARROW_DOWN rest /\
     editorReadKey (esc_seq [chr "["; chr "C"] rest) = Key ARROW_RIGHT rest /\
     editorReadKey (esc_seq [chr "["; chr "D"] rest) = Key ARROW_LEFT rest /\
     editorReadKey (esc_seq [chr "["; chr "H"] rest) = Key HOME_KEY rest /\
     editorReadKey (esc_seq [chr "["; chr "F"] rest) = Key END_KEY rest) /\
  (forall rest,
     editorReadKey (esc_seq [chr "["; chr "1"; chr "~"] rest)
       = Key HOME_KEY rest /\
     editorReadKey (esc_seq [chr "["; chr "7"; chr "~"] rest)
       = Key HOME_KEY rest /\
     editorReadKey (esc_seq [chr "["; chr "3"; chr "~"] rest)
       = Key DEL_KEY rest /\
     editorReadKey (esc_seq [chr "["; chr "4"; chr "~"] rest)
       = Key END_KEY rest /\
     editorReadKey (esc_seq [chr "["; chr "8"; chr "~"] rest)
       = Key END_KEY rest /\
     editorReadKey (esc_seq [chr "["; chr "5"; chr "~"] rest)
       = Key PAGE_UP rest /\
     editorReadKey (esc_seq [chr "["; chr "6"; chr "~"] rest)
       = Key PAGE_DOWN rest) /\
  (forall d inp, chr "0" <= d <= chr "9" -> no_byte inp ->
     editorReadKey (esc_seq [chr "["; d] inp) = Key ESC (tl inp)) /\
  (forall d s2 rest, chr "0" <= d <= chr "9" -> s2 <> chr "~" ->
     editorReadKey (esc_seq [chr "["; d; s2] rest) = Key ESC rest) /\
  (forall d s2 rest,
     d = chr "0" \/ d = chr "2" \/ d = chr "9" ->
     editorReadKey (esc_seq [chr "["; d; s2] rest) = Key ESC rest) /\
  (forall s0 s1 rest, s0 <> chr "[" ->
     editorReadKey (esc_seq [s0; s1] rest) = Key ESC rest) /\
  (forall s1 rest,
     ~ chr "0" <= s1 <= chr "9" ->
     ~ In s1 [chr "A"; chr "B"; chr "C"; chr "D"; chr "H"; chr "F"] ->
     editorReadKey (esc_seq [chr "["; s1] rest) = Key ESC rest).
Proof.
  repeat apply conj.
  - intros c rest Hc. cbn. destruct (Z.eqb_spec c ESC); [contradiction|].
    reflexivity.
  - intros inp Hn. cbn. unfold decode_escape.
    pose proof (read1_no_byte inp Hn) as Hr.
    destruct (read1 inp) as [[c| | |] rest1]; [contradiction| | |];
      now rewrite Hr.
  - intros s0 inp Hn. cbn. unfold decode_escape. cbn.
    pose proof (read1_no_byte inp Hn) as Hr.
    destruct (read1 inp) as [[c| | |] rest1]; [contradiction| | |];
      now rewrite Hr.
  - intros rest. repeat split; reflexivity.
  - intros rest. repeat split; reflexivity.
  - intros d inp Hd Hn. unfold esc_seq. cbn. unfold decode_escape. cbn.
    chr_norm.
    replace ((d >=? 48) && (d <=? 57)) with true
      by (symmetry; apply andb_true_iff; lia).
    cbn. pose proof (read1_no_byte inp Hn) as Hr.
    destruct (read1 inp) as [[c| | |] rest1]; [contradiction| | |];
      now rewrite Hr.
  - intros d s2 rest Hd Hs. unfold esc_seq. cbn. unfold decode_escape. cbn.
    chr_norm. zcases; try lia; try reflexivity.
  - intros d s2 rest Hd. unfold esc_seq. cbn. unfold decode_escape. cbn.
    chr_norm. zcases; try lia; try reflexivity.
  - intros s0 s1 rest Hs. unfold esc_seq. cbn. unfold decode_escape. cbn.
    chr_norm. zcases; try lia; try reflexivity.
  - intros s1 rest Hd Hl. unfold esc_seq. cbn. unfold decode_escape. cbn.
    cbn in Hl. chr_norm. zcases; try lia; try reflexivity; cbn;
      exfalso; apply Hl; tauto.
Qed.

Lemma key_decoder_table_witness :
  editorReadKey (ReadByte (chr "x") :: [ReadByte (chr "y")])
    = Key (chr "x") [ReadByte (chr "y")] /\
  editorReadKey (ReadByte ESC :: [ReadTimeout; ReadByte (chr "[")])
    = Key ESC [ReadByte (chr "[")] /\
  editorReadKey (esc_seq [chr "["; chr "5"; chr "x"] []) = Key ESC [].
Proof.
  split; [|split].
  - apply (proj1 key_decoder_table). vm_compute. discriminate.
  - apply (proj1 (proj2 key_decoder_table)). exact I.
  - apply (proj1 (proj2 (proj2 (proj2 (proj2 (proj2 (proj2
             key_decoder_table))))))).
    + vm_compute. split; discriminate.
    + vm_compute. discriminate.
Defined.

(** ** Cursor motion: what it leaves alone *)

(** [E'] differs from [E] at most in the cursor [(cx, cy)]. *)
Definition cursor_only (E E' : editorConfig) : Prop :=
  E' = set_cx (cx E') (set_cy (cy E') E).

Lemma cursor_only_refl E : cursor_only E E.
Proof. destruct E; reflexivity. Qed.

Lemma cursor_only_set_cx E E' v :
  cursor_only E E' -> cursor_only E (set_cx v E').
Proof. unfold cursor_only. intros ->. destruct E; reflexivity. Qed.

Lemma cursor_only_set_cy E E' v :
  cursor_only E E' -> cursor_only E (set_cy v E').
Proof. unfold cursor_only. intros ->. destruct E; reflexivity. Qed.

Lemma cursor_only_trans E E1 E2 :
  cursor_only E E1 -> cursor_only E1 E2 -> cursor_only E E2.
Proof.
  unfold cursor_only. intros H1 H2. rewrite H2. rewrite H1.
  destruct E; reflexivity.
Qed.

Create HintDb frame.

#[local] Hint Resolve cursor_only_refl cursor_only_set_cx cursor_only_set_cy
  : frame.

Lemma cursor_switch_frame key E : cursor_only E (cursor_switch key E).
Proof.
  unfold cursor_switch.
  repeat first
    [ break_if
    | match goal with
      | |- context [match current_row ?E0 with _ => _ end] =>
          destruct (current_row E0)
      end ];
    auto with frame.
Qed.

Lemma snap_cursor_frame E : cursor_only E (snap_cursor E).
Proof. unfold snap_cursor. break_if; auto with frame. Qed.

Lemma editorMoveCursor_frame key E : cursor_only E (editorMoveCursor key E).
Proof.
  unfold editorMoveCursor.
  eapply cursor_only_trans; [apply cursor_switch_frame|apply snap_cursor_frame].
Qed.

Lemma cursor_only_fields E E' :
  cursor_only E E' ->
  mode E' = mode E /\ cmdbuf E' = cmdbuf E /\ cmdrep E' = cmdrep E /\
  rx E' = rx E /\ rowoff E' = rowoff E /\ coloff E' = coloff E /\
  screenrows E' = screenrows E /\ screencols E' = screencols E /\
  numrows E' = numrows E /\ row E' = row E /\
  filename E' = filename E /\ statusmsg E' = statusmsg E.
Proof. unfold cursor_only. intros ->. repeat split. Qed.

Lemma iter_cursor_only n f E :
  (forall E0, cursor_only E0 (f E0)) -> cursor_only E (Nat.iter n f E).
Proof.
  intros Hf. induction n as [|n IH]; cbn.
  - apply cursor_only_refl.
  - eapply cursor_only_trans; [exact IH|apply Hf].
Qed.

Lemma page_move_frame c E : cursor_only E (page_move c E).
Proof.
  unfold page_move, while_times.
  match goal with |- cursor_only _ (Nat.iter _ _ ?E1) =>
    assert (H1 : cursor_only E E1) by (repeat break_if; auto with frame)
  end.
  eapply cursor_only_trans; [exact H1|].
  apply iter_cursor_only. intros E0. apply editorMoveCursor_frame.
Qed.

(** ** The dispatcher: keys against the cases of normal mode *)

Lemma key_values :
  CTRL_KEY (chr "q") = 17 /\ CTRL_KEY (chr "u") = 21 /\
  CTRL_KEY (chr "d") = 4.
Proof. repeat split. Qed.

(** The condition that routes a key to the repeat count, in plain terms:
    one of [1]..[9], or [0] while a count is pending. *)
Lemma is_count_digit_spec c E :
  is_count_digit c E = true <->
  chr "1" <= c <= chr "9" \/ (c = chr "0" /\ cmdrep E <> 0).
Proof.
  unfold is_count_digit. chr_norm.
  rewrite andb_true_iff, orb_true_iff, andb_true_iff, negb_true_iff.
  rewrite Z.leb_le, !Z.geb_le, Z.eqb_neq. lia.
Qed.

Lemma not_count_digit c E :
  ~ chr "1" <= c <= chr "9" -> ~ (c = chr "0" /\ cmdrep E <> 0) ->
  is_count_digit c E = false.
Proof.
  intros H1 H2. destruct (is_count_digit c E) eqn:Hd; [|reflexivity].
  apply is_count_digit_spec in Hd. tauto.
Qed.

(** Only Ctrl-Q leaves the [switch] of normal mode through [editorExit]. *)
Lemma normal_switch_exit c E out status :
  normal_switch c E = Exited out status -> c = CTRL_KEY (chr "q").
Proof.
  unfold normal_switch.
  destruct (c =? chr "i"); [discriminate|].
  destruct (c =? chr ":"); [discriminate|].
  destruct (Z.eqb_spec c (CTRL_KEY (chr "q"))) as [Hq|Hq]; [intros _; exact Hq|].
  repeat break_if; discriminate.
Qed.

Lemma session_cons beyond c keys E :
  session beyond (c :: keys) E =
  match editorProcessKeypress beyond c (editorScroll E) with
  | Running E' => session beyond keys E'
  | Exited out status => Exited out status
  end.
Proof. reflexivity. Qed.

(** What the scroll adjustment keeps of a state. *)
Definition scroll_keeps (E Es : editorConfig) : Prop :=
  mode Es = mode E /\ cmdbuf Es = cmdbuf E /\ cmdrep Es = cmdrep E /\
  cx Es = cx E /\ cy Es = cy E /\
  screenrows Es = screenrows E /\ screencols Es = screencols E /\
  numrows Es = numrows E /\ row Es = row E /\
  filename Es = filename E /\ statusmsg Es = statusmsg E.

Lemma editorScroll_keeps E : scroll_keeps E (editorScroll E).
Proof.
  pose proof (editorScroll_fields E) as H. cbv zeta in H.
  unfold scroll_keeps. tauto.
Qed.

(** One round of the loop of [main], the scrolled state named. *)
Lemma session_step beyond c keys E :
  exists Es,
    scroll_keeps E Es /\
    session beyond (c :: keys) E =
    match editorProcessKeypress beyond c Es with
    | Running E' => session beyond keys E'
    | Exited out status => Exited out status
    end.
Proof.
  exists (editorScroll E). split; [apply editorScroll_keeps|reflexivity].
Qed.

Lemma session_last beyond c E :
  exists Es,
    scroll_keeps E Es /\
    session beyond [c] E = editorProcessKeypress beyond c Es.
Proof.
  exists (editorScroll E). split; [apply editorScroll_keeps|].
  rewrite session_cons.
  destruct (editorProcessKeypress beyond c (editorScroll E)); reflexivity.
Qed.

(** ** The repeat count *)

Lemma press_count_digit beyond c E :
  mode E = NORMAL_MODE ->
  chr "1" <= c <= chr "9" \/ (c = chr "0" /\ cmdrep E <> 0) ->
  editorProcessKeypress beyond c E =
  Running (set_cmdrep (Int.add (Int.mul (cmdrep E) 10) (c - chr "0")) E).
Proof.
  intros Hm Hc. unfold editorProcessKeypress. rewrite Hm.
  rewrite (proj2 (is_count_digit_spec c E) Hc).
  unfold editorNormalModeNumRep. rewrite IntFacts.sub_id; [reflexivity|].
  chr_norm. unfold Int.in_range, Int.INT_MIN, Int.INT_MAX. lia.
Qed.

(** C5. The repeat count of normal mode.  A key [1]..[9], or [0] while the
    count is not zero, makes the count [count * 10 + digit] (in [int]
    arithmetic; it is that number whenever it fits an [int]) and changes
    nothing else of the state.  Pressing [1] then [2] from a zero count
    leaves 12.  Any other key processed in normal mode, a recognised motion
    or not, leaves the count 0 when control returns; the one key that does
    not return is Ctrl-Q, which ends the process. *)
Theorem repeat_count_accumulates :
  (forall beyond c E,
     mode E = NORMAL_MODE ->
     chr "1" <= c <= chr "9" \/ (c = chr "0" /\ cmdrep E <> 0) ->
     editorProcessKeypress beyond c E =
       Running
         (set_cmdrep (Int.add (Int.mul (cmdrep E) 10) (c - chr "0")) E) /\
     (0 <= cmdrep E -> cmdrep E * 10 + (c - chr "0") <= Int.INT_MAX ->
      Int.add (Int.mul (cmdrep E) 10) (c - chr "0")
        = cmdrep E * 10 + (c - chr "0"))) /\
  (forall beyond E,
     mode E = NORMAL_MODE -> cmdrep E = 0 ->
     exists E',
       session beyond [chr "1"; chr "2"] E = Running E' /\
       cmdrep E' = 12 /\ mode E' = NORMAL_MODE) /\
  (forall beyond c E,
     mode E = NORMAL_MODE ->
     ~ chr "1" <= c <= chr "9" -> ~ (c = chr "0" /\ cmdrep E <> 0) ->
     match editorProcessKeypress beyond c E with
     | Running E' => cmdrep E' = 0
     | Exited _ _ => c = CTRL_KEY (chr "q")
     end).
Proof.
  split; [|split].
  - intros beyond c E Hm Hc. split; [now apply press_count_digit|].
    intros H0 Hfit. unfold Int.INT_MAX in Hfit.
    assert (Hd : 0 <= c - chr "0" <= 9) by (chr_norm; lia).
    rewrite IntFacts.mul_id
      by (unfold Int.in_range, Int.INT_MIN, Int.INT_MAX; lia).
    apply IntFacts.add_id.
    unfold Int.in_range, Int.INT_MIN, Int.INT_MAX; lia.
  - intros beyond E Hm Hr.
    destruct (session_step beyond (chr "1") [chr "2"] E)
      as (Es & (Hms & _ & Hrs & _) & ->).
    rewrite press_count_digit;
      [ | congruence | left; chr_norm; lia ].
    rewrite Hrs, Hr.
    destruct (session_last beyond (chr "2")
                (set_cmdrep (Int.add (Int.mul 0 10) (chr "1" - chr "0")) Es))
      as (Es2 & (Hms2 & _ & Hrs2 & _) & ->).
    rewrite press_count_digit;
      [ | rewrite Hms2; state_cbn; congruence
        | left; chr_norm; lia ].
    eexists. split; [reflexivity|]. state_cbn. rewrite Hrs2, Hms2. state_cbn.
    split; [now vm_compute|congruence].
  - intros beyond c E Hm H1 H2. unfold editorProcessKeypress. rewrite Hm.
    rewrite not_count_digit by assumption.
    destruct (normal_switch c E) as [E'|out status] eqn:Hs.
    + reflexivity.
    + eapply normal_switch_exit; eassumption.
Qed.

Lemma repeat_count_accumulates_witness :
  let E := set_cmdrep 1 (startup 24 80 None) in
  (editorProcessKeypress [] (chr "2") E =
     Running
       (set_cmdrep (Int.add (Int.mul (cmdrep E) 10) (chr "2" - chr "0")) E)
   /\
   (0 <= cmdrep E -> cmdrep E * 10 + (chr "2" - chr "0") <= Int.INT_MAX ->
    Int.add (Int.mul (cmdrep E) 10) (chr "2" - chr "0")
      = cmdrep E * 10 + (chr "2" - chr "0"))) /\
  match editorProcessKeypress [] (chr "j") E with
  | Running E' => cmdrep E' = 0
  | Exited _ _ => chr "j" = CTRL_KEY (chr "q")
  end.
Proof.
  split.
  - apply (proj1 repeat_count_accumulates).
    + reflexivity.
    + left. vm_compute. split; discriminate.
  - apply (proj2 (proj2 repeat_count_accumulates)).
    + reflexivity.
    + chr_norm. lia.
    + chr_norm. lia.
Defined.

(** ** Command mode *)

(** The contents of the command buffer: the [len] bytes in use. *)
Definition cmd_text (ab : abuf) : list Z := firstn (Z.to_nat (len ab)) (b ab).

Lemma scan_quit_spec ab :
  scan_quit ab = true <-> In (chr "q") (cmd_text ab).
Proof.
  unfold scan_quit, cmd_text.
  generalize (firstn (Z.to_nat (len ab)) (b ab)) as l. clear ab.
  assert (Hgen : forall l q,
    fold_left (fun quit c => if c =? chr "q" then true else quit) l q = true
    <-> q = true \/ In (chr "q") l).
  { induction l as [|c l IH]; intros q; cbn [fold_left In].
    - tauto.
    - rewrite IH. destruct (Z.eqb_spec c (chr "q")) as [->|Hc].
      + tauto.
      + intuition congruence. }
  intros l. rewrite Hgen. intuition discriminate.
Qed.

Lemma press_enter beyond E :
  mode E = COMMAND_MODE ->
  editorProcessKeypress beyond ENTER E =
  if scan_quit (cmdbuf E) then editorExit
  else Running (set_mode NORMAL_MODE
                  (editorSetStatusMsg [] (set_cmdbuf (abFree (cmdbuf E)) E))).
Proof.
  intros Hm. unfold editorProcessKeypress. rewrite Hm. cbn.
  unfold editorCommandModeHandle. destruct (scan_quit (cmdbuf E)); reflexivity.
Qed.

Lemma press_colon beyond E :
  mode E = NORMAL_MODE ->
  editorProcessKeypress beyond (chr ":") E =
  Running (set_cmdrep 0 (editorSetStatusMsg (bytes ":")
                           (set_mode COMMAND_MODE E))).
Proof.
  intros Hm. unfold editorProcessKeypress. rewrite Hm.
  rewrite not_count_digit by (chr_norm; lia). reflexivity.
Qed.

Lemma b_read_string ab : b (read_string ab) = b ab.
Proof. unfold read_string. destruct (blk ab); reflexivity. Qed.

Lemma len_read_string ab : len (read_string ab) = len ab.
Proof. unfold read_string. destruct (blk ab); reflexivity. Qed.

Lemma press_printable beyond c E :
  mode E = COMMAND_MODE -> isprint c = true -> c <> chr "8" ->
  editorProcessKeypress beyond c E =
  Running (editorSetStatusMsg
             (cmdline (abAppend (cmdbuf E) [c] 1) beyond)
             (set_cmdbuf (read_string (abAppend (cmdbuf E) [c] 1)) E)).
Proof.
  intros Hm Hp H8. unfold editorProcessKeypress. rewrite Hm, Hp.
  unfold isprint in Hp. apply andb_true_iff in Hp.
  rewrite Z.leb_le, Z.leb_le in Hp.
  unfold ENTER, ESC.
  destruct (Z.eqb_spec c 13); [lia|].
  destruct (Z.eqb_spec c 27); [lia|].
  destruct (Z.eqb_spec c (chr "8")); [contradiction|].
  rewrite Z.mod_small by lia. cbv zeta. unfold cmdline. state_cbn.
  now rewrite b_read_string.
Qed.

Lemma press_escape beyond E :
  mode E = COMMAND_MODE ->
  editorProcessKeypress beyond ESC E =
  Running (set_mode NORMAL_MODE
             (editorSetStatusMsg [] (set_cmdbuf (abFree (cmdbuf E)) E))).
Proof. intros Hm. unfold editorProcessKeypress. rewrite Hm. reflexivity. Qed.

(** A byte appended to a buffer in order. *)
Lemma abAppend_byte ab c :
  in_order (blk ab) = true -> 0 <= len ab < Int.INT_MAX ->
  abAppend ab [c] 1 =
  {| b := firstn (Z.to_nat (len ab)) (b ab) ++ [c]; len := len ab + 1;
     blk := Allocated |}.
Proof.
  intros Hb Hl. unfold abAppend. cbv zeta. rewrite Hb.
  rewrite IntFacts.add_id
    by (unfold Int.in_range, Int.INT_MIN, Int.INT_MAX in *; lia).
  destruct (Z.ltb_spec (len ab + 1) 0); [lia|].
  destruct (Z.leb_spec 0 (len ab)); [|lia]. reflexivity.
Qed.

(** The rounds of the loop of [main] in command mode: what a key makes
    of the mode, the command buffer and the status message. *)
Lemma round_colon beyond keys E :
  mode E = NORMAL_MODE ->
  exists E1,
    session beyond (chr ":" :: keys) E = session beyond keys E1 /\
    mode E1 = COMMAND_MODE /\ cmdbuf E1 = cmdbuf E.
Proof.
  intros Hm.
  destruct (session_step beyond (chr ":") keys E)
    as (Es & (Hms & Hbs & _) & ->).
  rewrite press_colon by congruence.
  eexists. split; [reflexivity|]. split; [reflexivity|]. exact Hbs.
Qed.

Lemma round_printable beyond c keys E :
  mode E = COMMAND_MODE -> isprint c = true -> c <> chr "8" ->
  exists E1,
    session beyond (c :: keys) E = session beyond keys E1 /\
    mode E1 = COMMAND_MODE /\
    cmdbuf E1 = read_string (abAppend (cmdbuf E) [c] 1).
Proof.
  intros Hm Hp H8.
  destruct (session_step beyond c keys E) as (Es & (Hms & Hbs & _) & ->).
  rewrite press_printable by congruence.
  eexists. split; [reflexivity|]. unfold editorSetStatusMsg. state_cbn.
  split; [congruence|]. now rewrite Hbs.
Qed.

Lemma round_release beyond c keys E :
  mode E = COMMAND_MODE ->
  (c = ENTER /\ scan_quit (cmdbuf E) = false) \/ c = ESC ->
  exists E1,
    session beyond (c :: keys) E = session beyond keys E1 /\
    mode E1 = NORMAL_MODE /\ cmdbuf E1 = abFree (cmdbuf E) /\
    statusmsg E1 = [].
Proof.
  intros Hm Hc.
  destruct (session_step beyond c keys E) as (Es & (Hms & Hbs & _) & ->).
  destruct Hc as [(-> & Hq)| ->].
  - rewrite press_enter by congruence. rewrite Hbs, Hq.
    eexists. split; [reflexivity|]. repeat split.
  - rewrite press_escape by congruence. rewrite Hbs.
    eexists. split; [reflexivity|]. repeat split.
Qed.

Lemma round_delete beyond keys E :
  mode E = COMMAND_MODE ->
  exists E1,
    session beyond (chr "8" :: keys) E = session beyond keys E1 /\
    mode E1 = COMMAND_MODE /\ cmdbuf E1 = abDelete (cmdbuf E) 1.
Proof.
  intros Hm.
  destruct (session_step beyond (chr "8") keys E)
    as (Es & (Hms & Hbs & _) & ->).
  assert (Hp : editorProcessKeypress beyond (chr "8") Es =
               Running (set_cmdbuf (abDelete (cmdbuf Es) 1) Es)).
  { unfold editorProcessKeypress. rewrite Hms, Hm. reflexivity. }
  rewrite Hp. eexists. split; [reflexivity|]. state_cbn.
  split; [congruence|]. now rewrite Hbs.
Qed.

Lemma session_nil beyond E : session beyond [] E = Running E.
Proof. reflexivity. Qed.

(** The block after [abFree]. *)
Definition freed (k : block) : block :=
  match k with
  | Unallocated => Unallocated
  | Allocated => Released
  | Released | Misused => Misused
  end.

(** The outcome the model gives where the keys have misused the block of
    the command buffer: C leaves undefined what the program does from
    there. *)
Definition undefined_from (o : outcome) : Prop :=
  match o with
  | Running E' => blk (cmdbuf E') = Misused
  | Exited _ _ => False
  end.

(** A byte typed into a command buffer in order. *)
Lemma typed_byte ab c :
  in_order (blk ab) = true -> 0 <= len ab < Int.INT_MAX ->
  read_string (abAppend ab [c] 1) =
  {| b := cmd_text ab ++ [c]; len := len ab + 1; blk := Allocated |}.
Proof.
  intros Hb Hl. now rewrite abAppend_byte by assumption.
Qed.

Lemma typed_first_byte ab c :
  blk ab = Unallocated -> len ab = 0 ->
  read_string (abAppend ab [c] 1) =
  {| b := [c]; len := 1; blk := Allocated |}.
Proof.
  intros Hb Hl. rewrite typed_byte.
  - unfold cmd_text. rewrite Hl. reflexivity.
  - now rewrite Hb.
  - rewrite Hl. unfold Int.INT_MAX. lia.
Qed.

(** The command [:c<Enter>] typed into a buffer that has no block yet. *)
Lemma first_command beyond c keys E :
  mode E = NORMAL_MODE -> len (cmdbuf E) = 0 ->
  blk (cmdbuf E) = Unallocated ->
  isprint c = true -> c <> chr "8" ->
  if c =? chr "q"
  then session beyond (chr ":" :: c :: ENTER :: keys) E = editorExit
  else exists E3,
         session beyond (chr ":" :: c :: ENTER :: keys) E =
         session beyond keys E3 /\
         mode E3 = NORMAL_MODE /\ statusmsg E3 = [] /\
         cmdbuf E3 = {| b := []; len := 0; blk := Released |}.
Proof.
  intros Hm Hl Hb Hp H8.
  destruct (round_colon beyond (c :: ENTER :: keys) E Hm)
    as (E1 & -> & Hm1 & Hb1).
  destruct (round_printable beyond c (ENTER :: keys) E1 Hm1 Hp H8)
    as (E2 & -> & Hm2 & Hb2).
  rewrite Hb1, typed_first_byte in Hb2 by assumption.
  assert (Hq : scan_quit (cmdbuf E2) = (c =? chr "q")).
  { rewrite Hb2. unfold scan_quit. cbn [len b].
    change (Z.to_nat 1) with 1%nat. cbn [firstn fold_left].
    destruct (c =? chr "q"); reflexivity. }
  destruct (c =? chr "q") eqn:Hc.
  - destruct (session_step beyond ENTER keys E2)
      as (Es & (Hms & Hbs & _) & ->).
    rewrite press_enter by congruence. now rewrite Hbs, Hq.
  - destruct (round_release beyond ENTER keys E2 Hm2 (or_introl (conj eq_refl Hq)))
      as (E3 & -> & Hm3 & Hb3 & Hs3).
    exists E3. split; [reflexivity|]. split; [exact Hm3|].
    split; [exact Hs3|]. rewrite Hb3, Hb2. reflexivity.
Qed.

(** C6, as the code has it.  Enter (byte 13) in command mode executes the
    command buffer.  When the buffer holds the byte [q] anywhere the
    process ends through [editorExit], which clears the screen, homes the
    cursor and exits with status 0.  Otherwise [abFree] zeroes the length
    and frees the block, and leaves the address of the block in
    [cmdbuf.b].  With the block in order the editor is back in normal
    mode with the command buffer empty (length 0) and the status message
    cleared, the rest of the state as it was, and a block that was live
    is now released; on a block released before, Enter frees it a second
    time.  Typed from normal mode into a buffer that has no block yet,
    [:x<Enter>] ends in normal mode with the buffer empty, its block
    released, and [:q<Enter>] ends the process.  The next command then
    misuses the released block: [:<Enter>] frees it again, and [:x]
    hands it to [realloc]. *)
Theorem command_enter :
  ENTER = 13 /\
  editorExit = Exited [27; 91; 50; 74; 27; 91; 72] 0 /\
  (forall beyond E,
     mode E = COMMAND_MODE -> blk (cmdbuf E) = Allocated ->
     In (chr "q") (cmd_text (cmdbuf E)) ->
     editorProcessKeypress beyond ENTER E = editorExit) /\
  (forall beyond E,
     mode E = COMMAND_MODE -> in_order (blk (cmdbuf E)) = true ->
     ~ In (chr "q") (cmd_text (cmdbuf E)) ->
     exists E',
       editorProcessKeypress beyond ENTER E = Running E' /\
       mode E' = NORMAL_MODE /\
       len (cmdbuf E') = 0 /\ cmd_text (cmdbuf E') = [] /\
       statusmsg E' = [] /\
       blk (cmdbuf E') = freed (blk (cmdbuf E)) /\
       E' = set_mode NORMAL_MODE
              (set_statusmsg [] (set_cmdbuf (abFree (cmdbuf E)) E))) /\
  (forall beyond E,
     mode E = COMMAND_MODE -> blk (cmdbuf E) = Released ->
     ~ In (chr "q") (cmd_text (cmdbuf E)) ->
     undefined_from (editorProcessKeypress beyond ENTER E)) /\
  (forall beyond E,
     mode E = NORMAL_MODE -> len (cmdbuf E) = 0 ->
     blk (cmdbuf E) = Unallocated ->
     (exists E',
        session beyond [chr ":"; chr "x"; ENTER] E = Running E' /\
        mode E' = NORMAL_MODE /\
        len (cmdbuf E') = 0 /\ cmd_text (cmdbuf E') = [] /\
        statusmsg E' = [] /\ blk (cmdbuf E') = Released) /\
     session beyond [chr ":"; chr "q"; ENTER] E = editorExit /\
     undefined_from
       (session beyond [chr ":"; chr "x"; ENTER; chr ":"; ENTER] E) /\
     undefined_from
       (session beyond [chr ":"; chr "x"; ENTER; chr ":"; chr "x"] E)).
Proof.
  split; [reflexivity|]. split; [reflexivity|].
  split; [|split; [|split]].
  - intros beyond E Hm _ Hq. rewrite press_enter by assumption.
    apply scan_quit_spec in Hq. now rewrite Hq.
  - intros beyond E Hm Hb Hq. rewrite press_enter by assumption.
    destruct (scan_quit (cmdbuf E)) eqn:Hs.
    + apply scan_quit_spec in Hs. contradiction.
    + eexists. split; [reflexivity|]. unfold editorSetStatusMsg.
      state_cbn. unfold abFree. cbn [len b blk].
      repeat split.
  - intros beyond E Hm Hb Hq. rewrite press_enter by assumption.
    destruct (scan_quit (cmdbuf E)) eqn:Hs.
    + apply scan_quit_spec in Hs. contradiction.
    + unfold undefined_from, editorSetStatusMsg. state_cbn.
      unfold abFree. cbn [blk]. now rewrite Hb.
  - intros beyond E Hm Hl Hb.
    assert (Hx : isprint (chr "x") = true /\ chr "x" <> chr "8")
      by (split; [reflexivity|discriminate]).
    assert (Hqq : isprint (chr "q") = true /\ chr "q" <> chr "8")
      by (split; [reflexivity|discriminate]).
    assert (Hnext : forall keys,
      exists E3,
        session beyond (chr ":" :: chr "x" :: ENTER :: keys) E =
        session beyond keys E3 /\
        mode E3 = NORMAL_MODE /\ statusmsg E3 = [] /\
        cmdbuf E3 = {| b := []; len := 0; blk := Released |}).
    { intros keys.
      exact (first_command beyond (chr "x") keys E Hm Hl Hb
               (proj1 Hx) (proj2 Hx)). }
    split; [|split; [|split]].
    + destruct (Hnext []) as (E3 & -> & Hm3 & Hs3 & Hb3).
      exists E3. rewrite session_nil. split; [reflexivity|].
      rewrite Hb3. repeat split; assumption.
    + exact (first_command beyond (chr "q") [] E Hm Hl Hb
               (proj1 Hqq) (proj2 Hqq)).
    + destruct (Hnext [chr ":"; ENTER]) as (E3 & -> & Hm3 & Hs3 & Hb3).
      destruct (round_colon beyond [ENTER] E3 Hm3) as (E4 & -> & Hm4 & Hb4).
      rewrite Hb3 in Hb4.
      destruct (round_release beyond ENTER [] E4 Hm4) as (E5 & -> & _ & Hb5 & _).
      { left. split; [reflexivity|]. now rewrite Hb4. }
      rewrite session_nil. unfold undefined_from. now rewrite Hb5, Hb4.
    + destruct (Hnext [chr ":"; chr "x"]) as (E3 & -> & Hm3 & Hs3 & Hb3).
      destruct (round_colon beyond [chr "x"] E3 Hm3)
        as (E4 & -> & Hm4 & Hb4).
      rewrite Hb3 in Hb4.
      destruct (round_printable beyond (chr "x") [] E4 Hm4
                  (proj1 Hx) (proj2 Hx)) as (E5 & -> & _ & Hb5).
      rewrite session_nil. unfold undefined_from. now rewrite Hb5, Hb4.
Qed.

Definition typed_colon_x : editorConfig :=
  match session [] [chr ":"; chr "x"] (startup 24 80 None) with
  | Running E => E
  | Exited _ _ => startup 24 80 None
  end.

Lemma command_enter_witness :
  (exists E',
     editorProcessKeypress [] ENTER typed_colon_x = Running E' /\
     mode E' = NORMAL_MODE /\
     len (cmdbuf E') = 0 /\ cmd_text (cmdbuf E') = [] /\
     statusmsg E' = [] /\
     blk (cmdbuf E') = freed (blk (cmdbuf typed_colon_x)) /\
     E' = set_mode NORMAL_MODE
            (set_statusmsg []
               (set_cmdbuf (abFree (cmdbuf typed_colon_x)) typed_colon_x)))
  /\
  undefined_from
    (session [] [chr ":"; chr "x"; ENTER; chr ":"; ENTER]
       (startup 24 80 None)).
Proof.
  split.
  - apply (proj1 (proj2 (proj2 (proj2 command_enter)))).
    + reflexivity.
    + reflexivity.
    + vm_compute. intros [H|[]]. discriminate H.
  - apply (proj2 (proj2 (proj2 (proj2 (proj2 command_enter)))) []
             (startup 24 80 None)); reflexivity.
Defined.

(** *** The delete key of command mode *)

(** What [abDelete(ab, 1)] does to the length: the unsigned difference
    [len - 1] is zero only for [len = 1]. *)
Lemma abDelete_one ab :
  Int.INT_MIN < len ab <= Int.INT_MAX ->
  abDelete ab 1 =
  if len ab =? 1 then ab
  else {| b := b ab; len := len ab - 1; blk := blk ab |}.
Proof.
  unfold Int.INT_MIN, Int.INT_MAX. intros Hl. unfold abDelete, to_size_t.
  destruct (Z.eqb_spec (len ab) 1) as [H1|H1].
  - rewrite H1. reflexivity.
  - assert (Hpos : (len ab - 1) mod 18446744073709551616 > 0).
    { destruct (Z_le_gt_dec 1 (len ab)).
      - rewrite Z.mod_small by lia. lia.
      - replace (len ab - 1)
          with (len ab - 1 + 18446744073709551616
                + (-1) * 18446744073709551616) by lia.
        rewrite Z.mod_add by lia. rewrite Z.mod_small by lia. lia. }
    destruct (Z.gtb_spec ((len ab - 1) mod 18446744073709551616) 0); [|lia].
    f_equal.
    destruct (Z_le_gt_dec 1 (len ab)).
    + rewrite Z.mod_small by lia. apply IntFacts.wrap_id.
      unfold Int.in_range, Int.INT_MIN, Int.INT_MAX. lia.
    + replace (len ab - 1)
        with (len ab - 1 + 18446744073709551616
              + (-1) * 18446744073709551616) at 1 by lia.
      rewrite Z.mod_add by lia. rewrite Z.mod_small by lia.
      unfold Int.wrap.
      replace (len ab - 1 + 18446744073709551616 + 2147483648)
        with (len ab - 1 + 2147483648 + 4294967296 * 4294967296) by lia.
      rewrite Z.mod_add by lia. rewrite Z.mod_small by lia. lia.
Qed.

Lemma press_delete beyond E :
  mode E = COMMAND_MODE ->
  editorProcessKeypress beyond (chr "8") E =
  Running (set_cmdbuf (abDelete (cmdbuf E) 1) E).
Proof. intros Hm. unfold editorProcessKeypress. rewrite Hm. reflexivity. Qed.

(** The state after [:] and the keys [typed], from a start without file
    in a window of 24 by 80. *)
Definition typed_in_command_mode (typed : list Z) : editorConfig :=
  match session [] (chr ":" :: typed) (startup 24 80 None) with
  | Running E => E
  | Exited _ _ => startup 24 80 None
  end.

Definition command_state_empty : editorConfig :=
  Eval vm_compute in typed_in_command_mode [].
Definition command_state_x : editorConfig :=
  Eval vm_compute in typed_in_command_mode [chr "x"].
Definition command_state_xy : editorConfig :=
  Eval vm_compute in typed_in_command_mode [chr "x"; chr "y"].
Definition command_state_ab : editorConfig :=
  Eval vm_compute in typed_in_command_mode [chr "a"; chr "b"].

Lemma command_states_reached :
  command_state_empty = typed_in_command_mode [] /\
  command_state_x = typed_in_command_mode [chr "x"] /\
  command_state_xy = typed_in_command_mode [chr "x"; chr "y"] /\
  command_state_ab = typed_in_command_mode [chr "a"; chr "b"].
Proof. vm_compute. repeat split. Qed.

(** C7, as the code has it.  The key ['8'] of command mode calls
    [abDelete(&E.cmdbuf, 1)], whose guard [ab->len - n > 0] is computed in
    [size_t]: the length goes down by one unless it is 1.  So a buffer of
    two or more bytes loses its last byte, a buffer of one byte keeps it,
    and the length of an empty buffer becomes -1. *)
Theorem delete_key_length :
  forall beyond E,
    mode E = COMMAND_MODE ->
    Int.INT_MIN < len (cmdbuf E) <= Int.INT_MAX ->
    exists E',
      editorProcessKeypress beyond (chr "8") E = Running E' /\
      mode E' = COMMAND_MODE /\
      b (cmdbuf E') = b (cmdbuf E) /\
      len (cmdbuf E') =
        (if len (cmdbuf E) =? 1 then 1 else len (cmdbuf E) - 1).
Proof.
  intros beyond E Hm Hl. rewrite press_delete by assumption.
  eexists. split; [reflexivity|]. state_cbn.
  rewrite abDelete_one by assumption.
  destruct (Z.eqb_spec (len (cmdbuf E)) 1) as [H1|H1]; auto.
Qed.

Lemma delete_key_length_witness :
  len (cmdbuf command_state_empty) = 0 /\
  exists E',
    editorProcessKeypress [] (chr "8") command_state_empty = Running E' /\
    mode E' = COMMAND_MODE /\
    b (cmdbuf E') = b (cmdbuf command_state_empty) /\
    len (cmdbuf E') = -1.
Proof.
  split; [reflexivity|].
  apply (delete_key_length [] command_state_empty).
  - reflexivity.
  - vm_compute. split; [reflexivity | discriminate].
Defined.

(** The same key on a buffer of one byte and on one of two bytes. *)
Lemma delete_key_examples :
  (exists E',
     editorProcessKeypress [] (chr "8") command_state_x = Running E' /\
     cmd_text (cmdbuf E') = [chr "x"] /\ len (cmdbuf E') = 1) /\
  (exists E',
     editorProcessKeypress [] (chr "8") command_state_xy = Running E' /\
     cmd_text (cmdbuf E') = [chr "x"] /\ len (cmdbuf E') = 1).
Proof.
  split; eexists; (split; [vm_compute; reflexivity|]); split; reflexivity.
Qed.

(** *** Typing in command mode *)


Lemma c_string_app l m :
  forallb (fun x => negb (x =? 0)) l = true ->
  c_string (l ++ m) = l ++ c_string m.
Proof.
  induction l as [|x l IH]; cbn [forallb app c_string]; intros H.
  - reflexivity.
  - apply andb_true_iff in H. destruct H as [Hx Hl].
    destruct (x =? 0); [discriminate|]. now rewrite IH.
Qed.






(** ** Insert mode *)

(** C9. Insert mode never mutates row content.  Every key processed in
    insert mode returns control with the row store as it was ([numrows] and
    every row with its [chars], [size], [render] and [rsize]); ESC changes
    the mode to normal and nothing else, an arrow key changes at most the
    cursor [(cx, cy)], and any other key, a typed printable character
    included, changes nothing. *)
Theorem insert_mode_keeps_rows :
  forall beyond c E,
    mode E = INSERT_MODE ->
    exists E',
      editorProcessKeypress beyond c E = Running E' /\
      numrows E' = numrows E /\ row E' = row E /\
      (c = ESC -> E' = set_mode NORMAL_MODE E) /\
      (is_arrow c = true ->
       E' = editorMoveCursor c E /\ mode E' = INSERT_MODE /\
       cursor_only E E') /\
      (c <> ESC -> is_arrow c = false -> E' = E).
Proof.
  intros beyond c E Hm. unfold editorProcessKeypress. rewrite Hm.
  destruct (Z.eqb_spec c ESC) as [He|He].
  - eexists. split; [reflexivity|]. state_cbn.
    split; [reflexivity|]. split; [reflexivity|].
    split; [reflexivity|]. split.
    + intros Ha. subst c. discriminate Ha.
    + intros Hn. contradiction.
  - destruct (is_arrow c) eqn:Ha.
    + eexists. split; [reflexivity|].
      pose proof (editorMoveCursor_frame c E) as Hf.
      pose proof (cursor_only_fields _ _ Hf) as Hfl.
      destruct Hfl as (Hm' & _ & _ & _ & _ & _ & _ & _ & Hn & Hr & _).
      split; [exact Hn|]. split; [exact Hr|].
      split; [intros; contradiction|]. split.
      * intros _. split; [reflexivity|]. split; [congruence|exact Hf].
      * intros _ Hd. discriminate Hd.
    + eexists. split; [reflexivity|].
      split; [reflexivity|]. split; [reflexivity|].
      split; [intros; contradiction|]. split.
      * intros Hd. discriminate Hd.
      * reflexivity.
Qed.

Definition insert_state : editorConfig :=
  Eval vm_compute in
    set_mode INSERT_MODE
      (startup 24 80 (Some (bytes "f", [bytes "abc"; bytes "de"]))).

Lemma insert_mode_keeps_rows_witness :
  exists E',
    editorProcessKeypress [] (chr "x") insert_state = Running E' /\
    numrows E' = numrows insert_state /\ row E' = row insert_state /\
    (chr "x" = ESC -> E' = set_mode NORMAL_MODE insert_state) /\
    (is_arrow (chr "x") = true ->
     E' = editorMoveCursor (chr "x") insert_state /\
     mode E' = INSERT_MODE /\ cursor_only insert_state E') /\
    (chr "x" <> ESC -> is_arrow (chr "x") = false -> E' = insert_state).
Proof.
  apply (insert_mode_keeps_rows [] (chr "x") insert_state). reflexivity.
Defined.

(** ** The keys [b] and [B] *)

Lemma cursor_switch_other key E :
  (key =? chr "k") || (key =? ARROW_UP) = false ->
  (key =? chr "j") || (key =? ARROW_DOWN) = false ->
  (key =? chr "h") || (key =? ARROW_LEFT) = false ->
  (key =? chr "l") || (key =? ARROW_RIGHT) = false ->
  (key =? chr "w") || (key =? chr "W") ||
  (key =? chr "e") || (key =? chr "E") = false ->
  cursor_switch key E = E.
Proof.
  intros H1 H2 H3 H4 H5. unfold cursor_switch.
  now rewrite H1, H2, H3, H4, H5.
Qed.

Lemma snap_cursor_id E : cx E <= rowlen E -> snap_cursor E = E.
Proof.
  intros H. unfold snap_cursor.
  destruct (Z.gtb_spec (cx E) (rowlen E)); [lia|reflexivity].
Qed.

(** C10. In normal mode the keys [b] and [B] leave the cursor where it
    is: in a state whose column is at most the length of the current row,
    the dispatcher hands them to [editorMoveCursor], whose [switch] has no
    case for them, so [cx], [cy], the mode and the row store are unchanged;
    only the pending repeat count is reset to 0. *)
Theorem b_key_is_noop :
  forall beyond c E,
    c = chr "b" \/ c = chr "B" ->
    mode E = NORMAL_MODE ->
    cx E <= rowlen E ->
    is_motion_key c = true /\
    editorMoveCursor c E = E /\
    editorProcessKeypress beyond c E = Running (set_cmdrep 0 E) /\
    cx (set_cmdrep 0 E) = cx E /\ cy (set_cmdrep 0 E) = cy E /\
    mode (set_cmdrep 0 E) = mode E /\
    numrows (set_cmdrep 0 E) = numrows E /\ row (set_cmdrep 0 E) = row E /\
    cmdrep (set_cmdrep 0 E) = 0.
Proof.
  intros beyond c E Hc Hm Hx.
  assert (Hmove : editorMoveCursor c E = E).
  { unfold editorMoveCursor.
    rewrite cursor_switch_other by (destruct Hc; subst c; reflexivity).
    now apply snap_cursor_id. }
  split; [destruct Hc; subst c; reflexivity|].
  split; [exact Hmove|].
  split; [|repeat split].
  unfold editorProcessKeypress. rewrite Hm.
  rewrite not_count_digit by (destruct Hc; subst c; chr_norm; lia).
  assert (Hs : normal_switch c E = Running (editorMoveCursor c E))
    by (destruct Hc; subst c; reflexivity).
  rewrite Hs, Hmove. reflexivity.
Qed.

Definition normal_state : editorConfig :=
  Eval vm_compute in
    set_cmdrep 4
      (set_cx 2 (startup 24 80 (Some (bytes "f", [bytes "abc"; bytes "de"])))).

Lemma b_key_is_noop_witness :
  is_motion_key (chr "b") = true /\
  editorMoveCursor (chr "b") normal_state = normal_state /\
  editorProcessKeypress [] (chr "b") normal_state
    = Running (set_cmdrep 0 normal_state) /\
  cx (set_cmdrep 0 normal_state) = cx normal_state /\
  cy (set_cmdrep 0 normal_state) = cy normal_state /\
  mode (set_cmdrep 0 normal_state) = mode normal_state /\
  numrows (set_cmdrep 0 normal_state) = numrows normal_state /\
  row (set_cmdrep 0 normal_state) = row normal_state /\
  cmdrep (set_cmdrep 0 normal_state) = 0.
Proof.
  apply (b_key_is_noop [] (chr "b") normal_state).
  - left. reflexivity.
  - reflexivity.
  - vm_compute. discriminate.
Defined.

(** ** The cursor stays within the buffer *)

(** The row store is well formed: [numrows] counts the rows, and the
    sizes of the rows are lengths an [int] holds. *)
Definition rows_ok (E : editorConfig) : Prop :=
  numrows E = Z.of_nat (length (row E)) /\ numrows E <= Int.INT_MAX /\
  Forall (fun r => 0 <= size r <= Int.INT_MAX) (row E).

(** The cursor-bounds invariant: [0 <= cy <= numrows], and
    [0 <= cx <=] the length of row [cy], or 0 when [cy = numrows]. *)
Definition cursor_ok (E : editorConfig) : Prop :=
  0 <= cy E <= numrows E /\ 0 <= cx E <= rowlen E.

(** What holds of the cursor between the [switch] of [editorMoveCursor]
    and its final snap: the column may lie beyond the end of the row. *)
Definition cursor_weak (E : editorConfig) : Prop :=
  0 <= cy E <= numrows E /\ 0 <= cx E <= Int.INT_MAX.

(** The viewport the page keys count on: at least one text row on the
    screen, and a row offset within the buffer. *)
Definition viewport_ok (E : editorConfig) : Prop :=
  1 <= screenrows E /\ 0 <= rowoff E <= numrows E /\
  rowoff E + screenrows E <= Int.INT_MAX.

Ltac int_range := unfold Int.in_range, Int.INT_MIN, Int.INT_MAX in *.

Lemma row_size_ok E y :
  rows_ok E -> 0 <= y < numrows E ->
  0 <= size (row_at E y) <= Int.INT_MAX.
Proof.
  intros (Hn & _ & HF) Hy. rewrite Forall_forall in HF.
  apply HF. unfold row_at. apply nth_In. lia.
Qed.

Lemma rowlen_range E :
  rows_ok E -> 0 <= cy E -> 0 <= rowlen E <= Int.INT_MAX.
Proof.
  intros Hr Hy. unfold rowlen, current_row.
  destruct (Z.geb_spec (cy E) (numrows E)).
  - int_range. lia.
  - apply row_size_ok; [assumption|lia].
Qed.

Lemma cursor_ok_weak E : rows_ok E -> cursor_ok E -> cursor_weak E.
Proof.
  intros Hr (Hy & Hx). pose proof (rowlen_range E Hr ltac:(lia)).
  unfold cursor_weak. lia.
Qed.

(** Both properties read the cursor and the row store only. *)
Definition same_cursor_rows (E E' : editorConfig) : Prop :=
  cx E' = cx E /\ cy E' = cy E /\ numrows E' = numrows E /\ row E' = row E.

Lemma ok_transfer E E' :
  same_cursor_rows E E' ->
  cursor_ok E /\ rows_ok E -> cursor_ok E' /\ rows_ok E'.
Proof.
  destruct E, E'. unfold same_cursor_rows, cursor_ok, rows_ok, rowlen,
    current_row, row_at. state_cbn. intros (-> & -> & -> & ->). tauto.
Qed.

Lemma rows_ok_cursor_only E E' : cursor_only E E' -> rows_ok E -> rows_ok E'.
Proof.
  intros Hf. destruct (cursor_only_fields _ _ Hf)
    as (_ & _ & _ & _ & _ & _ & _ & _ & Hn & Hr & _).
  unfold rows_ok. now rewrite Hn, Hr.
Qed.

Lemma snap_cursor_ok E :
  rows_ok E -> cursor_weak E -> cursor_ok (snap_cursor E).
Proof.
  intros Hr (Hy & Hx). pose proof (rowlen_range E Hr ltac:(lia)) as Hl.
  unfold snap_cursor. destruct (Z.gtb_spec (cx E) (rowlen E)).
  - unfold cursor_ok, rowlen, current_row, row_at in *.
    destruct E. state_cbn_all. lia.
  - unfold cursor_ok. lia.
Qed.

(** *** The word loops *)

Lemma skip_WORD_bounds fuel : forall r x,
  0 <= x -> size r <= Int.INT_MAX ->
  x <= skip_WORD fuel r x <= Z.max x (size r).
Proof.
  induction fuel as [|fuel IH]; intros r x H0 Hs; cbn [skip_WORD]; [lia|].
  destruct (Z.ltb_spec x (size r)); [|lia].
  rewrite IntFacts.add_id by (int_range; lia).
  destruct (isspace _); [lia|].
  specialize (IH r (x + 1) ltac:(lia) Hs). lia.
Qed.

Lemma skip_word_bounds fuel : forall r x,
  0 <= x -> size r <= Int.INT_MAX ->
  x <= skip_word fuel r x <= Z.max x (size r).
Proof.
  induction fuel as [|fuel IH]; intros r x H0 Hs; cbn [skip_word]; [lia|].
  destruct (Z.ltb_spec x (size r)); [|lia].
  rewrite IntFacts.add_id by (int_range; lia).
  destruct (isspace _); [lia|]. destruct (ispunct _); [lia|].
  specialize (IH r (x + 1) ltac:(lia) Hs). lia.
Qed.

Lemma skip_spaces_bounds fuel : forall r x,
  0 <= x -> size r <= Int.INT_MAX ->
  x <= skip_spaces fuel r x <= Z.max x (size r).
Proof.
  induction fuel as [|fuel IH]; intros r x H0 Hs; cbn [skip_spaces]; [lia|].
  destruct (Z.ltb_spec x (size r)); cbn [andb]; [|lia].
  destruct (_ =? _); [|lia].
  rewrite IntFacts.add_id by (int_range; lia).
  specialize (IH r (x + 1) ltac:(lia) Hs). lia.
Qed.

(** The rounds [rounds r x] let each loop run to its own exit: more
    rounds change nothing. *)
Lemma skip_WORD_rounds n : forall r x m,
  0 <= x -> size r <= Int.INT_MAX ->
  (rounds r x <= n)%nat -> (n <= m)%nat ->
  skip_WORD m r x = skip_WORD n r x.
Proof.
  unfold rounds.
  induction n as [|n IH]; intros r x m H0 Hs Hr Hm.
  - destruct m; [reflexivity|]. cbn [skip_WORD].
    destruct (Z.ltb_spec x (size r)); [lia|reflexivity].
  - destruct m as [|m]; [lia|]. cbn [skip_WORD].
    destruct (Z.ltb_spec x (size r)); [|reflexivity].
    rewrite IntFacts.add_id by (int_range; lia).
    destruct (isspace _); [reflexivity|]. apply IH; lia.
Qed.

Lemma skip_word_rounds n : forall r x m,
  0 <= x -> size r <= Int.INT_MAX ->
  (rounds r x <= n)%nat -> (n <= m)%nat ->
  skip_word m r x = skip_word n r x.
Proof.
  unfold rounds.
  induction n as [|n IH]; intros r x m H0 Hs Hr Hm.
  - destruct m; [reflexivity|]. cbn [skip_word].
    destruct (Z.ltb_spec x (size r)); [lia|reflexivity].
  - destruct m as [|m]; [lia|]. cbn [skip_word].
    destruct (Z.ltb_spec x (size r)); [|reflexivity].
    rewrite IntFacts.add_id by (int_range; lia).
    destruct (isspace _); [reflexivity|].
    destruct (ispunct _); [reflexivity|]. apply IH; lia.
Qed.

Lemma skip_spaces_rounds n : forall r x m,
  0 <= x -> size r <= Int.INT_MAX ->
  (rounds r x <= n)%nat -> (n <= m)%nat ->
  skip_spaces m r x = skip_spaces n r x.
Proof.
  unfold rounds.
  induction n as [|n IH]; intros r x m H0 Hs Hr Hm.
  - destruct m; [reflexivity|]. cbn [skip_spaces].
    destruct (Z.ltb_spec x (size r)); [lia|reflexivity].
  - destruct m as [|m]; [lia|]. cbn [skip_spaces].
    destruct (Z.ltb_spec x (size r)); cbn [andb]; [|reflexivity].
    destruct (_ =? _); [|reflexivity].
    rewrite IntFacts.add_id by (int_range; lia). apply IH; lia.
Qed.

(** *** The [switch] and the snap of [editorMoveCursor] *)

Ltac int_ids :=
  repeat first
    [ rewrite IntFacts.add_id by (int_range; lia)
    | rewrite IntFacts.sub_id by (int_range; lia) ].

Lemma cursor_switch_weak key E :
  rows_ok E -> cursor_weak E -> cursor_weak (cursor_switch key E).
Proof.
  intros Hr (Hy & Hx). pose proof Hr as (Hn & Hmax & _).
  assert (Hkeep : cursor_weak E) by (split; assumption).
  unfold cursor_switch.
  destruct ((key =? chr "k") || (key =? ARROW_UP)).
  { destruct (Z.eqb_spec (cy E) 0); cbn [negb]; [exact Hkeep|].
    int_ids. unfold cursor_weak. state_cbn. int_range. lia. }
  destruct ((key =? chr "j") || (key =? ARROW_DOWN)).
  { destruct (Z.ltb_spec (cy E) (numrows E)); [|exact Hkeep].
    int_ids. unfold cursor_weak. state_cbn. int_range. lia. }
  destruct ((key =? chr "h") || (key =? ARROW_LEFT)).
  { destruct (Z.eqb_spec (cx E) 0); cbn [negb].
    - destruct (Z.gtb_spec (cy E) 0); [|exact Hkeep].
      cbv zeta. state_cbn. int_ids.
      pose proof (row_size_ok E (cy E - 1) Hr ltac:(lia)) as Hs.
      unfold cursor_weak, row_at in *. state_cbn. lia.
    - int_ids. unfold cursor_weak. state_cbn. int_range. lia. }
  destruct ((key =? chr "l") || (key =? ARROW_RIGHT)).
  { unfold current_row.
    destruct (Z.geb_spec (cy E) (numrows E)); [exact Hkeep|].
    pose proof (row_size_ok E (cy E) Hr ltac:(lia)) as Hs.
    destruct (Z.ltb_spec (cx E) (size (row_at E (cy E)))).
    - int_ids. unfold cursor_weak. state_cbn. int_range. lia.
    - destruct (Z.eqb_spec (cx E) (size (row_at E (cy E))));
        [|exact Hkeep].
      int_ids. unfold cursor_weak. state_cbn. int_range. lia. }
  destruct ((key =? chr "w") || (key =? chr "W") ||
            (key =? chr "e") || (key =? chr "E")); [|exact Hkeep].
  unfold current_row.
  destruct (Z.geb_spec (cy E) (numrows E)); [exact Hkeep|].
  pose proof (row_size_ok E (cy E) Hr ltac:(lia)) as Hs.
  set (r := row_at E (cy E)) in *.
  assert (H1 : forall x1,
    x1 = (if (key =? chr "W") || (key =? chr "E")
          then skip_WORD (rounds r (cx E)) r (cx E)
          else skip_word (rounds r (cx E)) r (cx E)) ->
    cx E <= x1 <= Z.max (cx E) (size r)).
  { intros x1 ->. destruct ((key =? chr "W") || (key =? chr "E"));
      [apply skip_WORD_bounds | apply skip_word_bounds]; lia. }
  assert (H2 : forall x1 x2, 0 <= x1 ->
    x2 = (if (key =? chr "W") || (key =? chr "w")
          then skip_spaces (rounds r x1) r x1 else x1) ->
    x1 <= x2 <= Z.max x1 (size r)).
  { intros x1 x2 H0 ->. destruct ((key =? chr "W") || (key =? chr "w"));
      [apply skip_spaces_bounds; lia | lia]. }
  cbv zeta.
  match goal with
  | |- context [skip_spaces _ r ?x] =>
      specialize (H1 x eq_refl); remember x as x1 eqn:Ex1
  end.
  match goal with
  | |- context [?x >=? size r] =>
      specialize (H2 x1 x ltac:(lia) eq_refl); remember x as x2 eqn:Ex2
  end.
  destruct (Z.geb_spec x2 (size r)).
  - int_ids. unfold cursor_weak. state_cbn. int_range. lia.
  - unfold cursor_weak. state_cbn. int_range. lia.
Qed.

Lemma editorMoveCursor_ok key E :
  rows_ok E -> cursor_weak E ->
  cursor_ok (editorMoveCursor key E) /\ rows_ok (editorMoveCursor key E).
Proof.
  intros Hr Hw. unfold editorMoveCursor.
  assert (Hr1 : rows_ok (cursor_switch key E))
    by (eapply rows_ok_cursor_only; [apply cursor_switch_frame|exact Hr]).
  split.
  - apply snap_cursor_ok; [exact Hr1|]. now apply cursor_switch_weak.
  - eapply rows_ok_cursor_only; [apply snap_cursor_frame|exact Hr1].
Qed.

(** *** The page keys *)

Lemma iter_move_ok key n : forall E,
  rows_ok E -> cursor_weak E ->
  let E' := Nat.iter (S n) (editorMoveCursor key) E in
  cursor_ok E' /\ rows_ok E'.
Proof.
  induction n as [|n IH]; intros E Hr Hw.
  - cbn [Nat.iter nat_rect]. now apply editorMoveCursor_ok.
  - destruct (IH E Hr Hw) as (Hc & Hr').
    change (Nat.iter (S (S n)) (editorMoveCursor key) E)
      with (editorMoveCursor key (Nat.iter (S n) (editorMoveCursor key) E)).
    cbv zeta. apply editorMoveCursor_ok; [exact Hr'|].
    now apply cursor_ok_weak.
Qed.

Lemma page_move_ok c E :
  rows_ok E -> cursor_ok E -> viewport_ok E ->
  cursor_ok (page_move c E) /\ rows_ok (page_move c E).
Proof.
  intros Hr Hc (Hs & Ho & Hfit).
  pose proof (cursor_ok_weak E Hr Hc) as (Hy & Hx).
  pose proof Hr as (Hn & Hmax & _).
  unfold page_move, while_times.
  match goal with |- context [Nat.iter _ _ ?E0] => set (E1 := E0) end.
  assert (H1 : rows_ok E1 /\ cursor_weak E1 /\ screenrows E1 = screenrows E).
  { subst E1. destruct (is_page_up c); [|destruct (is_page_down c)].
    - split; [|split; [|reflexivity]].
      + eapply rows_ok_cursor_only; [|exact Hr]. auto with frame.
      + unfold cursor_weak. state_cbn. lia.
    - cbv zeta. state_cbn. int_ids.
      destruct (Z.gtb_spec (rowoff E + screenrows E - 1) (numrows E)).
      + split; [|split; [|reflexivity]].
        * eapply rows_ok_cursor_only; [|exact Hr]. auto with frame.
        * unfold cursor_weak. state_cbn. lia.
      + split; [|split; [|reflexivity]].
        * eapply rows_ok_cursor_only; [|exact Hr]. auto with frame.
        * unfold cursor_weak. state_cbn. lia.
    - split; [exact Hr|]. split; [split; assumption|reflexivity]. }
  destruct H1 as (Hr1 & Hw1 & Hs1). rewrite Hs1.
  rewrite Z.mod_small by (int_range; lia).
  replace (Z.to_nat (screenrows E)) with (S (Z.to_nat (screenrows E - 1)))
    by lia.
  now apply iter_move_ok.
Qed.

(** *** Every key *)

Lemma same_cursor_rows_cursor_only E E' :
  cursor_only E E' -> numrows E' = numrows E /\ row E' = row E.
Proof.
  intros Hf. destruct (cursor_only_fields _ _ Hf)
    as (_ & _ & _ & _ & _ & _ & _ & _ & Hn & Hr & _). now split.
Qed.

Lemma normal_switch_ok c E :
  rows_ok E -> cursor_ok E ->
  (is_page_up c || is_page_down c = true -> viewport_ok E) ->
  match normal_switch c E with
  | Running E' => cursor_ok E' /\ rows_ok E'
  | Exited _ _ => True
  end.
Proof.
  intros Hr Hc Hv. pose proof Hc as (Hy & Hx).
  pose proof (rowlen_range E Hr ltac:(lia)) as Hl.
  assert (Hsame : forall E', same_cursor_rows E E' ->
                             cursor_ok E' /\ rows_ok E').
  { intros E' Hs. apply (ok_transfer E E' Hs). now split. }
  unfold normal_switch.
  destruct (c =? chr "i"); [apply Hsame; repeat split|].
  destruct (c =? chr ":"); [apply Hsame; repeat split|].
  destruct (c =? CTRL_KEY (chr "q")); [exact I|].
  destruct ((c =? chr "0") || (c =? HOME_KEY)).
  { split.
    - unfold cursor_ok, rowlen, current_row, row_at in *.
      destruct E. state_cbn_all. lia.
    - eapply rows_ok_cursor_only; [|exact Hr]. auto with frame. }
  destruct ((c =? chr "$") || (c =? END_KEY)).
  { destruct (Z.ltb_spec (cy E) (numrows E)); [|now split].
    split.
    - unfold cursor_ok, rowlen, current_row, row_at in *.
      destruct E. state_cbn_all.
      destruct (Z.geb_spec cy0 numrows0); lia.
    - eapply rows_ok_cursor_only; [|exact Hr]. auto with frame. }
  destruct (is_page_up c || is_page_down c).
  { apply page_move_ok; auto. }
  destruct (is_motion_key c).
  { apply editorMoveCursor_ok; [exact Hr|]. now apply cursor_ok_weak. }
  now split.
Qed.

Lemma editorProcessKeypress_ok beyond c E :
  rows_ok E -> cursor_ok E ->
  (mode E = NORMAL_MODE -> is_page_up c || is_page_down c = true ->
   viewport_ok E) ->
  match editorProcessKeypress beyond c E with
  | Running E' => cursor_ok E' /\ rows_ok E'
  | Exited _ _ => True
  end.
Proof.
  intros Hr Hc Hv.
  assert (Hsame : forall E', same_cursor_rows E E' ->
                             cursor_ok E' /\ rows_ok E').
  { intros E' Hs. apply (ok_transfer E E' Hs). now split. }
  unfold editorProcessKeypress. destruct (mode E) eqn:Hm.
  - (* insert mode *)
    destruct (c =? ESC); [apply Hsame; repeat split|].
    destruct (is_arrow c); [|now split].
    apply editorMoveCursor_ok; [exact Hr|]. now apply cursor_ok_weak.
  - (* normal mode *)
    destruct (is_count_digit c E); [apply Hsame; repeat split|].
    pose proof (normal_switch_ok c E Hr Hc (Hv eq_refl)) as Hn.
    destruct (normal_switch c E) as [E'|out status]; [|exact I].
    apply (ok_transfer E' (set_cmdrep 0 E')); [repeat split|exact Hn].
  - (* command mode *)
    destruct (c =? ENTER).
    { unfold editorCommandModeHandle.
      destruct (scan_quit (cmdbuf E)); [exact I|].
      apply Hsame; repeat split. }
    destruct (c =? ESC); [apply Hsame; repeat split|].
    destruct (c =? chr "8"); [apply Hsame; repeat split|].
    destruct (isprint c); [apply Hsame; repeat split|].
    now split.
Qed.

Lemma cy_snap_cursor E : cy (snap_cursor E) = cy E.
Proof. unfold snap_cursor. destruct (_ >? _); reflexivity. Qed.

Lemma move_down_cy c E :
  c = ARROW_DOWN \/ c = chr "j" ->
  0 <= cy E -> numrows E <= Int.INT_MAX ->
  cy (editorMoveCursor c E) =
  if cy E <? numrows E then cy E + 1 else cy E.
Proof.
  intros Hc H0 Hmax. unfold editorMoveCursor. rewrite cy_snap_cursor.
  assert (Hs : cursor_switch c E =
               if cy E <? numrows E then set_cy (Int.add (cy E) 1) E else E)
    by (destruct Hc; subst c; reflexivity).
  rewrite Hs. destruct (Z.ltb_spec (cy E) (numrows E)); [|reflexivity].
  state_cbn. apply IntFacts.add_id. int_range. lia.
Qed.

Lemma press_down beyond c E :
  mode E = NORMAL_MODE -> c = ARROW_DOWN \/ c = chr "j" ->
  editorProcessKeypress beyond c E =
  Running (set_cmdrep 0 (editorMoveCursor c E)).
Proof.
  intros Hm Hc. unfold editorProcessKeypress. rewrite Hm.
  rewrite not_count_digit
    by (destruct Hc; subst c; unfold ARROW_DOWN; chr_norm; lia).
  assert (Hs : normal_switch c E = Running (editorMoveCursor c E))
    by (destruct Hc; subst c; reflexivity).
  now rewrite Hs.
Qed.

Lemma press_end beyond c E :
  mode E = NORMAL_MODE -> c = chr "$" \/ c = END_KEY ->
  editorProcessKeypress beyond c E =
  Running (set_cmdrep 0
             (if cy E <? numrows E
              then set_cx (size (row_at E (cy E))) E else E)).
Proof.
  intros Hm Hc. unfold editorProcessKeypress. rewrite Hm.
  rewrite not_count_digit
    by (destruct Hc; subst c; unfold END_KEY; chr_norm; lia).
  assert (Hs : normal_switch c E =
               Running (if cy E <? numrows E
                        then set_cx (size (row_at E (cy E))) E else E))
    by (destruct Hc; subst c; reflexivity).
  now rewrite Hs.
Qed.

Lemma scroll_keeps_ok E Es :
  scroll_keeps E Es -> rows_ok E -> cursor_ok E ->
  rows_ok Es /\ cursor_ok Es /\ mode Es = mode E /\
  numrows Es = numrows E /\ cy Es = cy E /\ cx Es = cx E.
Proof.
  intros (Hm & _ & _ & Hx & Hy & _ & _ & Hn & Hr & _) Hro Hco.
  destruct (ok_transfer E Es) as (Hc' & Hr');
    [unfold same_cursor_rows; tauto|now split|].
  tauto.
Qed.

(** One round of the loop with a Down key in normal mode. *)
Lemma down_round beyond c keys E :
  rows_ok E -> cursor_ok E -> mode E = NORMAL_MODE ->
  c = ARROW_DOWN \/ c = chr "j" ->
  exists E',
    session beyond (c :: keys) E = session beyond keys E' /\
    rows_ok E' /\ cursor_ok E' /\ mode E' = NORMAL_MODE /\
    numrows E' = numrows E /\
    cy E' = (if cy E <? numrows E then cy E + 1 else cy E).
Proof.
  intros Hr Hc Hm Hk.
  destruct (session_step beyond c keys E) as (Es & Hks & ->).
  destruct (scroll_keeps_ok E Es Hks Hr Hc)
    as (Hrs & Hcs & Hms & Hns & Hys & Hxs).
  rewrite press_down by congruence.
  pose proof (editorMoveCursor_ok c Es Hrs (cursor_ok_weak Es Hrs Hcs))
    as (Hc1 & Hr1).
  pose proof (cursor_only_fields _ _ (editorMoveCursor_frame c Es))
    as (Hm1 & _ & _ & _ & _ & _ & _ & _ & Hn1 & _).
  pose proof (move_down_cy c Es Hk) as Hy1.
  destruct Hcs as (Hcy & _). destruct Hrs as (_ & Hmax & _).
  specialize (Hy1 ltac:(lia) Hmax).
  exists (set_cmdrep 0 (editorMoveCursor c Es)).
  split; [reflexivity|].
  destruct (ok_transfer (editorMoveCursor c Es)
              (set_cmdrep 0 (editorMoveCursor c Es)))
    as (Hc2 & Hr2); [repeat split|now split|].
  split; [exact Hr2|]. split; [exact Hc2|]. state_cbn.
  split; [congruence|]. split; [congruence|].
  rewrite Hy1, Hys, Hns. reflexivity.
Qed.

(** One round with [$] or End once the cursor is behind the last row. *)
Lemma end_round beyond c E :
  rows_ok E -> cursor_ok E -> mode E = NORMAL_MODE ->
  c = chr "$" \/ c = END_KEY -> cy E = numrows E ->
  exists E',
    session beyond [c] E = Running E' /\ cy E' = cy E /\ cx E' = 0.
Proof.
  intros Hr Hc Hm Hk Hy.
  destruct (session_last beyond c E) as (Es & Hks & ->).
  destruct (scroll_keeps_ok E Es Hks Hr Hc)
    as (Hrs & Hcs & Hms & Hns & Hys & Hxs).
  rewrite press_end by congruence.
  destruct (Z.ltb_spec (cy Es) (numrows Es)); [lia|].
  eexists. split; [reflexivity|]. state_cbn. split; [exact Hys|].
  destruct Hcs as (_ & Hcx). unfold rowlen, current_row in Hcx.
  destruct (Z.geb_spec (cy Es) (numrows Es)); lia.
Qed.

(** The state [main] is in, in a window of two lines (no text row:
    [screenrows = 0]) on a file of the one row ["abc"], once [$] has been
    pressed and the screen refreshed: the cursor is at the end of row 0,
    within its bounds, and the scroll adjustment has set [rowoff] to 1. *)
Definition two_line_window : editorConfig :=
  Eval vm_compute in
    match session [] [chr "$"]
            (startup 2 80 (Some (bytes "f", [bytes "abc"]))) with
    | Running E => editorScroll E
    | Exited _ _ => startup 2 80 None
    end.

Lemma two_line_window_reached :
  session [] [chr "$"; PAGE_UP]
    (startup 2 80 (Some (bytes "f", [bytes "abc"])))
  = editorProcessKeypress [] PAGE_UP two_line_window.
Proof. vm_compute. reflexivity. Qed.

(** The claim of C3 fails at PageUp in that state: the cursor-bounds
    invariant holds before the key, and after it the cursor sits on row
    [cy = numrows = 1] with [cx = 3], beyond the length 0 that row has. *)
Lemma page_up_breaks_cursor_bounds :
  rows_ok two_line_window /\ cursor_ok two_line_window /\
  mode two_line_window = NORMAL_MODE /\
  exists E',
    editorProcessKeypress [] PAGE_UP two_line_window = Running E' /\
    cy E' = 1 /\ numrows E' = 1 /\ cx E' = 3 /\ rowlen E' = 0 /\
    ~ cursor_ok E'.
Proof.
  split; [|split; [|split]].
  - unfold rows_ok. cbn. split; [reflexivity|]. split; [discriminate|].
    repeat constructor; cbn; unfold Int.INT_MAX; lia.
  - unfold cursor_ok. cbn. lia.
  - reflexivity.
  - eexists. split; [vm_compute; reflexivity|].
    repeat (split; [reflexivity|]).
    unfold cursor_ok. cbn. lia.
Qed.

(** C3, amended.  The cursor-bounds invariant, [0 <= cy <= numrows] and
    [0 <= cx <=] the length of row [cy] (0 when [cy = numrows]), over a
    well-formed row store, is preserved by every keypress that returns
    control, in every mode; for the page keys of normal mode (PageUp,
    PageDown, Ctrl-U, Ctrl-D) this holds when the viewport is usable:
    [screenrows >= 1], [0 <= rowoff <= numrows], and
    [rowoff + screenrows] within an [int].  On a zero-row buffer Down
    leaves [cy = 0]; on a three-row buffer three Downs from row 0 leave
    [cy = 3], and [$] or End then leaves [cx = 0]. *)
Theorem cursor_bounds_preserved :
  (forall beyond c E,
     rows_ok E -> cursor_ok E ->
     (mode E = NORMAL_MODE -> is_page_up c || is_page_down c = true ->
      viewport_ok E) ->
     match editorProcessKeypress beyond c E with
     | Running E' => cursor_ok E' /\ rows_ok E'
     | Exited _ _ => True
     end) /\
  (forall beyond c E,
     rows_ok E -> cursor_ok E -> mode E = NORMAL_MODE ->
     c = ARROW_DOWN \/ c = chr "j" ->
     numrows E = 0 ->
     exists E', session beyond [c] E = Running E' /\ cy E' = 0) /\
  (forall beyond d1 d2 d3 k E,
     rows_ok E -> cursor_ok E -> mode E = NORMAL_MODE ->
     (d1 = ARROW_DOWN \/ d1 = chr "j") ->
     (d2 = ARROW_DOWN \/ d2 = chr "j") ->
     (d3 = ARROW_DOWN \/ d3 = chr "j") ->
     (k = chr "$" \/ k = END_KEY) ->
     numrows E = 3 -> cy E = 0 ->
     exists E3,
       session beyond [d1; d2; d3] E = Running E3 /\ cy E3 = 3 /\
       exists E4,
         session beyond [k] E3 = Running E4 /\ cy E4 = 3 /\ cx E4 = 0).
Proof.
  split; [|split].
  - intros beyond c E. apply editorProcessKeypress_ok.
  - intros beyond c E Hr Hc Hm Hk Hn.
    destruct (down_round beyond c [] E Hr Hc Hm Hk)
      as (E' & Hs & _ & _ & _ & _ & Hy).
    exists E'. split; [exact Hs|].
    destruct Hc as (Hcy & _).
    rewrite Hy. destruct (Z.ltb_spec (cy E) (numrows E)); lia.
  - intros beyond d1 d2 d3 k E Hr Hc Hm H1 H2 H3 Hk Hn Hy.
    destruct (down_round beyond d1 [d2; d3] E Hr Hc Hm H1)
      as (E1 & -> & Hr1 & Hc1 & Hm1 & Hn1 & Hy1).
    rewrite Hy, Hn in Hy1. cbn in Hy1.
    destruct (down_round beyond d2 [d3] E1 Hr1 Hc1 Hm1 H2)
      as (E2 & -> & Hr2 & Hc2 & Hm2 & Hn2 & Hy2).
    rewrite Hy1, Hn1, Hn in Hy2. cbn in Hy2.
    destruct (down_round beyond d3 [] E2 Hr2 Hc2 Hm2 H3)
      as (E3 & -> & Hr3 & Hc3 & Hm3 & Hn3 & Hy3).
    rewrite Hy2, Hn2, Hn1, Hn in Hy3. cbn in Hy3.
    exists E3. split; [reflexivity|]. split; [exact Hy3|].
    destruct (end_round beyond k E3 Hr3 Hc3 Hm3 Hk)
      as (E4 & Hs4 & Hy4 & Hx4); [congruence|].
    exists E4. split; [exact Hs4|]. split; [congruence|exact Hx4].
Qed.

Lemma cursor_bounds_preserved_witness :
  match editorProcessKeypress [] PAGE_DOWN normal_state with
  | Running E' => cursor_ok E' /\ rows_ok E'
  | Exited _ _ => True
  end.
Proof.
  apply (proj1 cursor_bounds_preserved [] PAGE_DOWN normal_state).
  - unfold rows_ok. cbn. split; [reflexivity|]. split; [discriminate|].
    repeat constructor; cbn; unfold Int.INT_MAX; lia.
  - unfold cursor_ok. cbn. lia.
  - intros _ _. unfold viewport_ok. cbn. unfold Int.INT_MAX. lia.
Defined.

(** *** Along the loop of [main] *)

(** What the loop keeps from round to round in a window with at least one
    text row: the bounds of the cursor, and a row offset that is not
    negative.  The scroll adjustment then makes the viewport the one the
    page keys count on. *)
Definition loop_ok (E : editorConfig) : Prop :=
  rows_ok E /\ cursor_ok E /\
  1 <= screenrows E /\ 0 <= rowoff E <= Int.INT_MAX /\
  numrows E + screenrows E <= Int.INT_MAX.

Lemma clamp_offset_bounds p off n :
  0 <= p -> 0 <= off <= Int.INT_MAX -> 1 <= n -> p + n <= Int.INT_MAX ->
  0 <= clamp_offset p off n <= p.
Proof.
  intros Hp Ho Hn Hfit. unfold clamp_offset.
  set (off1 := if p <? off then p else off).
  assert (H1 : 0 <= off1 <= p)
    by (subst off1; destruct (Z.ltb_spec p off); lia).
  int_ids. destruct (Z.geb_spec p (off1 + n)); lia.
Qed.

Lemma editorScroll_viewport E :
  loop_ok E ->
  loop_ok (editorScroll E) /\ viewport_ok (editorScroll E) /\
  mode (editorScroll E) = mode E.
Proof.
  intros (Hr & Hc & Hs & Ho & Hfit).
  pose proof (editorScroll_keeps E) as Hk.
  destruct (scroll_keeps_ok _ _ Hk Hr Hc) as (Hr' & Hc' & Hm' & Hn' & Hy' & _).
  destruct Hk as (_ & _ & _ & _ & _ & Hs' & _).
  pose proof (editorScroll_fields E) as Hf. cbv zeta in Hf.
  destruct Hf as (_ & _ & _ & _ & _ & _ & _ & _ & _ & _ & _ & _ & Hro & _).
  destruct Hc as (Hcy & _).
  pose proof (clamp_offset_bounds (cy E) (rowoff E) (screenrows E)
                ltac:(lia) Ho Hs ltac:(lia)) as Hb.
  unfold loop_ok, viewport_ok. rewrite Hro, Hs', Hn'.
  repeat first [assumption | apply conj]; lia.
Qed.

(** A key changes neither the viewport nor the row store. *)
Definition same_viewport_rows (E E' : editorConfig) : Prop :=
  rowoff E' = rowoff E /\ screenrows E' = screenrows E /\
  numrows E' = numrows E /\ row E' = row E.

Lemma cursor_only_viewport E E' :
  cursor_only E E' -> same_viewport_rows E E'.
Proof.
  intros Hf. pose proof (cursor_only_fields _ _ Hf). 
  unfold same_viewport_rows. tauto.
Qed.

Lemma editorProcessKeypress_viewport beyond c E :
  match editorProcessKeypress beyond c E with
  | Running E' => same_viewport_rows E E'
  | Exited _ _ => True
  end.
Proof.
  assert (Hid : same_viewport_rows E E) by (repeat split).
  unfold editorProcessKeypress. destruct (mode E).
  - destruct (c =? ESC); [repeat split|].
    destruct (is_arrow c); [|exact Hid].
    apply cursor_only_viewport, editorMoveCursor_frame.
  - destruct (is_count_digit c E); [repeat split|].
    assert (Hn : match normal_switch c E with
                 | Running E' => same_viewport_rows E E'
                 | Exited _ _ => True
                 end).
    { unfold normal_switch.
      destruct (c =? chr "i"); [repeat split|].
      destruct (c =? chr ":"); [repeat split|].
      destruct (c =? CTRL_KEY (chr "q")); [exact I|].
      destruct ((c =? chr "0") || (c =? HOME_KEY)); [repeat split|].
      destruct ((c =? chr "$") || (c =? END_KEY)).
      { destruct (cy E <? numrows E); [repeat split|exact Hid]. }
      destruct (is_page_up c || is_page_down c).
      { apply cursor_only_viewport, page_move_frame. }
      destruct (is_motion_key c); [|exact Hid].
      apply cursor_only_viewport, editorMoveCursor_frame. }
    destruct (normal_switch c E) as [E'|out status]; [|exact I].
    destruct Hn as (H1 & H2 & H3 & H4). repeat split; assumption.
  - destruct (c =? ENTER).
    { unfold editorCommandModeHandle.
      destruct (scan_quit (cmdbuf E)); [exact I|repeat split]. }
    destruct (c =? ESC); [repeat split|].
    destruct (c =? chr "8"); [repeat split|].
    destruct (isprint c); [repeat split|exact Hid].
Qed.

(** In a window with at least one text row the cursor stays within its
    bounds at every round of the loop, whatever the keys. *)
Lemma session_loop_ok beyond keys : forall E,
  loop_ok E ->
  match session beyond keys E with
  | Running E' => loop_ok E'
  | Exited _ _ => True
  end.
Proof.
  induction keys as [|c keys IH]; intros E Hl; [exact Hl|].
  rewrite session_cons.
  destruct (editorScroll_viewport E Hl)
    as ((Hr & Hc & Hs & Ho & Hfit) & Hv & _).
  pose proof (editorProcessKeypress_ok beyond c (editorScroll E) Hr Hc
                (fun _ _ => Hv)) as Hok.
  pose proof (editorProcessKeypress_viewport beyond c (editorScroll E))
    as Hvw.
  destruct (editorProcessKeypress beyond c (editorScroll E))
    as [E'|out status]; [|exact I].
  apply IH. destruct Hok as (Hc' & Hr').
  destruct Hvw as (Hro & Hsr & Hn & _).
  unfold loop_ok. rewrite Hro, Hsr, Hn. tauto.
Qed.

Lemma new_row_size s : size (new_row s) = Z.of_nat (length s).
Proof.
  unfold new_row, editorUpdateRow. cbn [size chars].
  destruct (render_loop _ _ _). reflexivity.
Qed.

Lemma editorOpen_rows lines : forall E,
  rows_ok E ->
  numrows E + Z.of_nat (length lines) <= Int.INT_MAX ->
  Forall (fun s => Z.of_nat (length s) <= Int.INT_MAX) lines ->
  let E' := fold_left (fun E0 s => editorAppendRow s E0) lines E in
  rows_ok E' /\ numrows E' = numrows E + Z.of_nat (length lines) /\
  cx E' = cx E /\ cy E' = cy E /\ rowoff E' = rowoff E /\
  screenrows E' = screenrows E /\ mode E' = mode E.
Proof.
  induction lines as [|s lines IH]; intros E Hr Hfit Hall; cbv zeta.
  - cbn. split; [exact Hr|]. split; [lia|]. repeat split.
  - cbn [fold_left]. inversion Hall as [|s' l' Hs Hl]; subst.
    destruct Hr as (Hn & Hmax & HF). cbn [length] in Hfit.
    assert (Hn1 : numrows (editorAppendRow s E) = numrows E + 1).
    { unfold editorAppendRow. state_cbn. apply IntFacts.add_id.
      int_range. lia. }
    assert (Hr1 : rows_ok (editorAppendRow s E)).
    { unfold rows_ok. rewrite Hn1. unfold editorAppendRow. state_cbn.
      rewrite length_app. cbn [length]. split; [lia|].
      split; [lia|].
      apply Forall_app. split; [exact HF|].
      constructor; [|constructor]. rewrite new_row_size. lia. }
    destruct (IH (editorAppendRow s E) Hr1)
      as (Hr' & Hn' & Hx & Hy & Ho & Hs' & Hm);
      [rewrite Hn1; lia|exact Hl|].
    split; [exact Hr'|]. split; [rewrite Hn', Hn1; cbn [length]; lia|].
    rewrite Hx, Hy, Ho, Hs', Hm. repeat split.
Qed.

(** [main] enters its loop in such a state, when the window has at least
    three lines (two go to the status and message bars) and the file is
    one whose rows an [int] counts. *)
Lemma startup_loop_ok ws_row ws_col file :
  3 <= ws_row <= 65535 ->
  match file with
  | Some (_, lines) =>
      Z.of_nat (length lines) + ws_row <= Int.INT_MAX /\
      Forall (fun s => Z.of_nat (length s) <= Int.INT_MAX) lines
  | None => True
  end ->
  loop_ok (startup ws_row ws_col file).
Proof.
  intros Hw Hfile.
  assert (Hs : Int.sub ws_row 2 = ws_row - 2)
    by (apply IntFacts.sub_id; int_range; lia).
  assert (H0 : rows_ok (initEditor ws_row ws_col)).
  { unfold rows_ok, initEditor. state_cbn. cbn [length].
    split; [reflexivity|]. split; [int_range; lia|constructor]. }
  unfold startup. cbv zeta.
  set (E1 := match file with
             | Some (fname, lines) =>
                 editorOpen fname lines (initEditor ws_row ws_col)
             | None => initEditor ws_row ws_col
             end).
  assert (H1 : rows_ok E1 /\ cx E1 = 0 /\ cy E1 = 0 /\ rowoff E1 = 0 /\
               screenrows E1 = ws_row - 2 /\
               numrows E1 + ws_row <= Int.INT_MAX).
  { subst E1. destruct file as [[fname lines]|].
    - destruct Hfile as (Hlen & Hall). unfold editorOpen.
      destruct (editorOpen_rows lines
                  (set_filename (Some fname) (initEditor ws_row ws_col)))
        as (Hr & Hn & Hx & Hy & Ho & Hsr & _).
      + exact H0.
      + unfold initEditor. state_cbn. lia.
      + exact Hall.
      + split; [exact Hr|]. rewrite Hx, Hy, Ho, Hsr, Hn.
        unfold initEditor. state_cbn. rewrite Hs. repeat split. lia.
    - split; [exact H0|]. unfold initEditor. state_cbn. rewrite Hs.
      repeat split. int_range. lia. }
  destruct H1 as (Hr1 & Hx1 & Hy1 & Ho1 & Hs1 & Hn1).
  assert (Hnn : 0 <= numrows E1) by (destruct Hr1 as (-> & _); lia).
  unfold editorSetStatusMsg.
  assert (Hc1 : cursor_ok E1).
  { unfold cursor_ok. rewrite Hx1, Hy1.
    pose proof (rowlen_range E1 Hr1 ltac:(lia)). lia. }
  destruct (ok_transfer E1 (set_statusmsg (firstn 79 (bytes "Welcome")) E1))
    as (Hc & Hr); [repeat split|now split|].
  unfold loop_ok. state_cbn. rewrite Ho1, Hs1.
  repeat first [assumption | apply conj]; int_range; lia.
Qed.

(** C3 along a run: from the start of [main] in a window of at least
    three lines, the cursor is within its bounds after any keys. *)
Lemma run_keeps_cursor_bounds beyond keys ws_row ws_col file :
  3 <= ws_row <= 65535 ->
  match file with
  | Some (_, lines) =>
      Z.of_nat (length lines) + ws_row <= Int.INT_MAX /\
      Forall (fun s => Z.of_nat (length s) <= Int.INT_MAX) lines
  | None => True
  end ->
  match session beyond keys (startup ws_row ws_col file) with
  | Running E' => cursor_ok E'
  | Exited _ _ => True
  end.
Proof.
  intros Hw Hfile.
  pose proof (session_loop_ok beyond keys _
                (startup_loop_ok ws_row ws_col file Hw Hfile)) as H.
  destruct (session beyond keys _); [|exact I].
  destruct H as (_ & Hc & _). exact Hc.
Qed.

(** * More of the engine *)

(** ** Rows: the render against the cursor column *)

(** A row as [editorAppendRow] leaves it: [size] is the length of [chars],
    and its widest rendering, [NI_TAB_STOP] cells a byte, fits an [int]. *)
Definition row_wf (r : erow) : Prop :=
  size r = Z.of_nat (length (chars r)) /\
  NI_TAB_STOP * size r <= Int.INT_MAX.

(** The width [editorRowCxToRx] reaches from width [w] over the bytes
    [cs]. *)
Definition width_after (cs : list Z) (w : Z) : Z :=
  fold_left (fun w' c => rx_step c w') cs w.

Lemma cx_to_rx_loop_width n : forall r j w,
  (j + n <= length (chars r))%nat ->
  cx_to_rx_loop n r (Z.of_nat j) w =
  width_after (firstn n (skipn j (chars r))) w.
Proof.
  induction n as [|n IH]; intros r j w Hj; [reflexivity|].
  cbn [cx_to_rx_loop].
  assert (Hs : skipn j (chars r) = nth j (chars r) 0 :: skipn (S j) (chars r)).
  { clear IH. revert j Hj. induction (chars r) as [|c l IHl]; intros j Hj.
    - cbn in Hj. lia.
    - destruct j; [reflexivity|]. cbn [skipn nth]. apply IHl. cbn in Hj. lia. }
  rewrite Hs. cbn [firstn]. unfold width_after. cbn [fold_left].
  replace (Z.of_nat j + 1) with (Z.of_nat (S j)) by lia.
  rewrite IH by lia. unfold char_at. rewrite Nat2Z.id. reflexivity.
Qed.

Lemma editorRowCxToRx_width r k :
  0 <= k <= Z.of_nat (length (chars r)) ->
  editorRowCxToRx r k = width_after (firstn (Z.to_nat k) (chars r)) 0.
Proof.
  intros Hk. unfold editorRowCxToRx.
  change 0 with (Z.of_nat 0) at 1.
  rewrite (cx_to_rx_loop_width (Z.to_nat k) r 0 0) by (cbn; lia).
  reflexivity.
Qed.

Lemma width_after_app cs1 cs2 w :
  width_after (cs1 ++ cs2) w = width_after cs2 (width_after cs1 w).
Proof. unfold width_after. apply fold_left_app. Qed.

(** Each byte widens by one to [NI_TAB_STOP] cells. *)
Lemma width_after_bounds cs : forall w,
  0 <= w -> w + NI_TAB_STOP * Z.of_nat (length cs) <= Int.INT_MAX ->
  w + Z.of_nat (length cs) <= width_after cs w
    <= w + NI_TAB_STOP * Z.of_nat (length cs).
Proof.
  unfold NI_TAB_STOP.
  induction cs as [|c cs IH]; intros w H0 Hm; cbn [length] in *.
  - cbn. lia.
  - unfold width_after in *. cbn [fold_left].
    pose proof (rx_step_exact c w H0 ltac:(unfold NI_TAB_STOP; lia)) as Hs.
    unfold NI_TAB_STOP in Hs.
    pose proof (Z.mod_pos_bound w 4 ltac:(lia)) as Hb.
    assert (Hw : w + 1 <= rx_step c w <= w + 4)
      by (rewrite Hs; destruct (c =? TAB); lia).
    specialize (IH (rx_step c w) ltac:(lia) ltac:(lia)). lia.
Qed.

(** The padding loop writes the spaces that lead to the next tab stop. *)
Lemma pad_tab_spec fuel : forall out idx,
  0 <= idx -> idx + (- idx) mod NI_TAB_STOP <= Int.INT_MAX ->
  ((- idx) mod NI_TAB_STOP <= Z.of_nat fuel) ->
  pad_tab fuel out idx =
  (out ++ repeat (chr " ") (Z.to_nat ((- idx) mod NI_TAB_STOP)),
   idx + (- idx) mod NI_TAB_STOP).
Proof.
  unfold NI_TAB_STOP.
  induction fuel as [|fuel IH]; intros out idx H0 Hm Hf.
  - pose proof (Z.mod_pos_bound (- idx) 4 ltac:(lia)).
    assert (Hz : (- idx) mod 4 = 0) by lia. rewrite Hz.
    cbn. now rewrite app_nil_r, Z.add_0_r.
  - cbn [pad_tab]. unfold Int.rem, NI_TAB_STOP.
    rewrite Z.rem_mod_nonneg by lia.
    pose proof (Z.mod_pos_bound idx 4 ltac:(lia)) as Hb.
    pose proof (Z.mod_pos_bound (- idx) 4 ltac:(lia)) as Hb'.
    destruct (Z.eqb_spec (idx mod 4) 0) as [Hz|Hz].
    + assert (Hn : (- idx) mod 4 = 0)
        by (clear IH; Z.div_mod_to_equations; lia).
      rewrite Hn. cbn. now rewrite app_nil_r, Z.add_0_r.
    + assert (Hk1 : (- (idx + 1)) mod 4 = (- idx) mod 4 - 1)
        by (clear IH; Z.div_mod_to_equations; lia).
      assert (Hk : 1 <= (- idx) mod 4)
        by (clear IH; Z.div_mod_to_equations; lia).
      rewrite IntFacts.add_id by (int_range; lia).
      rewrite IH by lia. rewrite Hk1.
      replace (Z.to_nat ((- idx) mod 4))
        with (S (Z.to_nat ((- idx) mod 4 - 1))) by lia.
      cbn [repeat]. rewrite <- app_assoc. cbn [app].
      f_equal. lia.
Qed.

(** A tab of [editorUpdateRow] at index [idx]: the spaces written are as
    many as the cells [editorRowCxToRx] counts for it. *)
Lemma render_tab_step out idx :
  0 <= idx -> idx + NI_TAB_STOP <= Int.INT_MAX ->
  pad_tab (Z.to_nat NI_TAB_STOP) (out ++ [chr " "]) (Int.add idx 1) =
  (out ++ repeat (chr " ") (Z.to_nat (rx_step TAB idx - idx)),
   rx_step TAB idx) /\
  1 <= rx_step TAB idx - idx <= NI_TAB_STOP /\
  (rx_step TAB idx) mod NI_TAB_STOP = 0.
Proof.
  intros H0 Hm. rewrite rx_step_exact by assumption.
  unfold NI_TAB_STOP in *. cbn [Z.eqb TAB Pos.eqb].
  change (TAB =? TAB) with true. cbv iota.
  rewrite IntFacts.add_id by (int_range; lia).
  pose proof (Z.mod_pos_bound idx 4 ltac:(lia)) as Hb.
  assert (Hk : (- (idx + 1)) mod 4 = 3 - idx mod 4)
    by (Z.div_mod_to_equations; lia).
  rewrite pad_tab_spec;
    [ | lia | unfold NI_TAB_STOP; rewrite Hk; int_range; lia
      | unfold NI_TAB_STOP; rewrite Hk;
        change (Z.of_nat (Z.to_nat 4)) with 4; lia ].
  unfold NI_TAB_STOP. rewrite Hk. split; [|split].
  - f_equal; [|lia]. rewrite <- app_assoc. f_equal.
    replace (idx + (4 - idx mod 4) - idx) with (4 - idx mod 4) by lia.
    replace (Z.to_nat (4 - idx mod 4)) with (S (Z.to_nat (3 - idx mod 4)))
      by lia.
    reflexivity.
  - lia.
  - Z.div_mod_to_equations; lia.
Qed.

Lemma width_after_cons c cs w :
  width_after (c :: cs) w = width_after cs (rx_step c w).
Proof. reflexivity. Qed.

(** The second loop of [editorUpdateRow] over the bytes [cs], from an
    index that is the length of the render so far: it ends at the width
    [editorRowCxToRx] finds, has written that many bytes, and the cells
    between the width before byte [j] and the width behind it hold
    spaces when the byte is a tab, and the byte itself (one cell)
    otherwise. *)
Lemma render_loop_spec cs : forall out idx,
  idx = Z.of_nat (length out) ->
  idx + NI_TAB_STOP * Z.of_nat (length cs) <= Int.INT_MAX ->
  exists tail,
    render_loop cs out idx = (out ++ tail, width_after cs idx) /\
    Z.of_nat (length tail) = width_after cs idx - idx /\
    Forall (fun c => c <> TAB) tail /\
    forall j p, (j < length cs)%nat ->
      width_after (firstn j cs) idx <= p
        < width_after (firstn (S j) cs) idx ->
      nth (Z.to_nat (p - idx)) tail 0
        = (if nth j cs 0 =? TAB then chr " " else nth j cs 0).
Proof.
  unfold NI_TAB_STOP.
  induction cs as [|c cs IH]; intros out idx Hi Hm; cbn [length] in Hm.
  - exists []. split; [cbn; now rewrite app_nil_r|].
    split; [cbn; lia|]. split; [constructor|].
    intros j p Hj. cbn in Hj. lia.
  - cbn [render_loop]. rewrite width_after_cons.
    assert (H0 : 0 <= idx) by lia.
    pose proof (rx_step_exact c idx H0 ltac:(unfold NI_TAB_STOP; lia)) as Hs.
    assert (Hshift : forall tail j p,
      (forall j' p', (j' < length cs)%nat ->
         width_after (firstn j' cs) (rx_step c idx) <= p'
           < width_after (firstn (S j') cs) (rx_step c idx) ->
         nth (Z.to_nat (p' - rx_step c idx)) tail 0
           = (if nth j' cs 0 =? TAB then chr " " else nth j' cs 0)) ->
      idx < rx_step c idx <= idx + 4 ->
      (S j < S (length cs))%nat ->
      width_after (firstn (S j) (c :: cs)) idx <= p
        < width_after (firstn (S (S j)) (c :: cs)) idx ->
      forall pre, Z.of_nat (length pre) = rx_step c idx - idx ->
      nth (Z.to_nat (p - idx)) (pre ++ tail) 0
        = (if nth (S j) (c :: cs) 0 =? TAB
           then chr " " else nth (S j) (c :: cs) 0)).
    { intros tail j p Hn Hw Hj Hp pre Hpre.
      cbn [firstn nth] in *. rewrite !width_after_cons in Hp.
      pose proof (width_after_bounds (firstn j cs) (rx_step c idx)
                    ltac:(lia)) as Hb.
      rewrite length_firstn in Hb.
      specialize (Hb ltac:(unfold NI_TAB_STOP; lia)).
      rewrite app_nth2 by lia. rewrite <- (Hn j p ltac:(lia) Hp).
      f_equal. lia. }
    destruct (Z.eqb_spec c TAB) as [Hc|Hc].
    + subst c.
      destruct (render_tab_step out idx H0 ltac:(unfold NI_TAB_STOP; lia))
        as (Hp & Hw & _).
      unfold NI_TAB_STOP in Hw. rewrite Hp.
      set (sp := repeat (chr " ") (Z.to_nat (rx_step TAB idx - idx))) in *.
      assert (Hlen : length sp = Z.to_nat (rx_step TAB idx - idx))
        by (subst sp; apply repeat_length).
      destruct (IH (out ++ sp) (rx_step TAB idx)) as (tail & He & Hl & Hf & Hn).
      { rewrite length_app, Hlen. lia. }
      { lia. }
      rewrite He. exists (sp ++ tail). rewrite app_assoc.
      split; [reflexivity|]. split; [rewrite length_app; lia|].
      split.
      * apply Forall_app. split; [|exact Hf].
        subst sp. apply Forall_forall. intros x Hx.
        apply repeat_spec in Hx. subst x. discriminate.
      * intros [|j] p Hj Hpp.
        -- cbn [firstn nth] in *. rewrite width_after_cons in Hpp.
           unfold width_after in Hpp. cbn [fold_left] in Hpp.
           change (TAB =? TAB) with true. cbv iota.
           rewrite app_nth1 by lia. subst sp.
           apply nth_repeat_lt. lia.
        -- apply Hshift; try assumption; lia.
    + rewrite IntFacts.add_id by (int_range; lia).
      assert (Hs1 : rx_step c idx = idx + 1) by (rewrite Hs; reflexivity).
      destruct (IH (out ++ [c]) (idx + 1)) as (tail & He & Hl & Hf & Hn).
      { rewrite length_app. cbn [length]. lia. }
      { lia. }
      rewrite Hs1 in *. rewrite He. exists (c :: tail).
      rewrite <- app_assoc. cbn [app].
      split; [reflexivity|]. split; [cbn [length]; lia|].
      split; [constructor; assumption|].
      intros [|j] p Hj Hpp.
      * cbn [firstn nth] in *. rewrite width_after_cons in Hpp.
        unfold width_after in Hpp. cbn [fold_left] in Hpp.
        rewrite Hs1 in Hpp.
        replace (p - idx) with 0 by lia. cbn [Z.to_nat nth].
        destruct (Z.eqb_spec c TAB); [contradiction|reflexivity].
      * change (c :: tail) with ([c] ++ tail).
        apply Hshift; try assumption; try lia. cbn [length]. lia.
Qed.

Lemma editorUpdateRow_spec r :
  row_wf r ->
  exists out,
    editorUpdateRow r =
      {| size := size r; rsize := editorRowCxToRx r (size r);
         chars := chars r; render := out |} /\
    Z.of_nat (length out) = editorRowCxToRx r (size r) /\
    Forall (fun c => c <> TAB) out /\
    forall j p, (j < length (chars r))%nat ->
      width_after (firstn j (chars r)) 0 <= p
        < width_after (firstn (S j) (chars r)) 0 ->
      nth (Z.to_nat p) out 0
        = (if nth j (chars r) 0 =? TAB then chr " " else nth j (chars r) 0).
Proof.
  intros (Hs & Hm). unfold editorUpdateRow.
  rewrite editorRowCxToRx_width by lia.
  rewrite Hs, Nat2Z.id, firstn_all.
  destruct (render_loop_spec (chars r) [] 0 eq_refl ltac:(lia))
    as (tail & He & Hl & Hf & Hn).
  rewrite He. cbn [app]. exists tail.
  split; [reflexivity|]. split; [lia|]. split; [exact Hf|].
  intros j p Hj Hp. specialize (Hn j p Hj Hp).
  now rewrite Z.sub_0_r in Hn.
Qed.

(** X1. The render agrees with the cursor column: for a row as
    [editorAppendRow] builds it, [editorUpdateRow] leaves [rsize] equal to
    [editorRowCxToRx] at the end of the row, [render] has exactly [rsize]
    bytes, and [size] and [chars] are untouched. *)
Theorem render_size_is_cursor_width :
  forall r,
    row_wf r ->
    rsize (editorUpdateRow r) = editorRowCxToRx r (size r) /\
    Z.of_nat (length (render (editorUpdateRow r))) = rsize (editorUpdateRow r)
    /\ size (editorUpdateRow r) = size r /\
    chars (editorUpdateRow r) = chars r.
Proof.
  intros r Hw. destruct (editorUpdateRow_spec r Hw) as (out & -> & Hl & _).
  cbn [rsize render size chars]. repeat split. exact Hl.
Qed.

Lemma row_a_tab_b_wf : row_wf row_a_tab_b.
Proof. split; [reflexivity|]. vm_compute. discriminate. Qed.

Lemma render_size_is_cursor_width_witness :
  rsize (editorUpdateRow row_a_tab_b)
    = editorRowCxToRx row_a_tab_b (size row_a_tab_b) /\
  Z.of_nat (length (render (editorUpdateRow row_a_tab_b)))
    = rsize (editorUpdateRow row_a_tab_b) /\
  size (editorUpdateRow row_a_tab_b) = size row_a_tab_b /\
  chars (editorUpdateRow row_a_tab_b) = chars row_a_tab_b.
Proof.
  apply (render_size_is_cursor_width row_a_tab_b). exact row_a_tab_b_wf.
Defined.

(** X2. What the render holds, cell by cell: it has no tab byte, and for
    every byte [j] of the row the cells from [editorRowCxToRx r j] up to
    [editorRowCxToRx r (j + 1)] hold spaces when the byte is a tab and
    the byte itself (a single cell) otherwise.  So the byte under the
    cursor is drawn at the column the cursor is sent to. *)
Theorem render_cells :
  forall r,
    row_wf r ->
    Forall (fun c => c <> TAB) (render (editorUpdateRow r)) /\
    forall j p,
      0 <= j < size r ->
      editorRowCxToRx r j <= p < editorRowCxToRx r (j + 1) ->
      nth (Z.to_nat p) (render (editorUpdateRow r)) 0
        = (if char_at r j =? TAB then chr " " else char_at r j).
Proof.
  intros r Hw. destruct (editorUpdateRow_spec r Hw) as (out & -> & _ & Hf & Hn).
  cbn [render]. split; [exact Hf|].
  intros j p Hj Hp. destruct Hw as (Hs & Hm).
  rewrite !editorRowCxToRx_width in Hp by lia.
  replace (Z.to_nat (j + 1)) with (S (Z.to_nat j)) in Hp by lia.
  unfold char_at. apply Hn; [lia|exact Hp].
Qed.

Lemma render_cells_witness :
  Forall (fun c => c <> TAB) (render (editorUpdateRow row_a_tab_b)) /\
  forall j p,
    0 <= j < size row_a_tab_b ->
    editorRowCxToRx row_a_tab_b j <= p < editorRowCxToRx row_a_tab_b (j + 1) ->
    nth (Z.to_nat p) (render (editorUpdateRow row_a_tab_b)) 0
      = (if char_at row_a_tab_b j =? TAB
         then chr " " else char_at row_a_tab_b j).
Proof. apply (render_cells row_a_tab_b). exact row_a_tab_b_wf. Defined.

(** [malloc(row->size + tabs*(NI_TAB_STOP) + 1)]: the size of the block
    [editorUpdateRow] allocates for the render. *)
Definition render_alloc (r : erow) : Z :=
  Int.add
    (Int.add (size r)
       (Int.mul (count_tabs (firstn (Z.to_nat (size r)) (chars r)))
          NI_TAB_STOP))
    1.

Lemma count_tabs_acc cs : forall t,
  0 <= t -> t + Z.of_nat (length cs) <= Int.INT_MAX ->
  let n := fold_left (fun tabs c => if c =? TAB then Int.add tabs 1 else tabs)
             cs t in
  t <= n <= t + Z.of_nat (length cs) /\
  forall w, 0 <= w ->
    w + NI_TAB_STOP * Z.of_nat (length cs) <= Int.INT_MAX ->
    width_after cs w <= w + Z.of_nat (length cs) + (NI_TAB_STOP - 1) * (n - t).
Proof.
  unfold NI_TAB_STOP.
  induction cs as [|c cs IH]; intros t H0 Hm; cbn [length] in Hm; cbv zeta.
  - unfold width_after. cbn [fold_left length]. split; [lia|].
    intros w Hw _. lia.
  - cbn [fold_left length].
    set (t1 := if c =? TAB then Int.add t 1 else t).
    assert (Ht1 : t1 = if c =? TAB then t + 1 else t).
    { subst t1. destruct (c =? TAB); [|reflexivity].
      apply IntFacts.add_id. int_range. lia. }
    clearbody t1.
    destruct (IH t1) as (Hn & Hwd).
    { rewrite Ht1. destruct (c =? TAB); lia. }
    { rewrite Ht1. destruct (c =? TAB); lia. }
    cbv zeta in Hn, Hwd.
    set (n := fold_left _ cs t1) in *. apply conj.
    + destruct (c =? TAB); lia.
    + intros w Hw Hfit. rewrite width_after_cons.
      pose proof (rx_step_exact c w Hw ltac:(unfold NI_TAB_STOP; lia)) as Hs.
      unfold NI_TAB_STOP in Hs.
      pose proof (Z.mod_pos_bound w 4 ltac:(lia)) as Hb.
      specialize (Hwd (rx_step c w)). rewrite Hs in Hwd |- *.
      destruct (c =? TAB);
        specialize (Hwd ltac:(lia) ltac:(lia)); lia.
Qed.

(** X3. The render stays inside its block: for a row whose size, five
    times over, fits an [int], the [rsize] bytes [editorUpdateRow] writes
    and the NUL behind them fit the [size + tabs * NI_TAB_STOP + 1] bytes
    it allocates. *)
Theorem render_fits_allocation :
  forall r,
    size r = Z.of_nat (length (chars r)) ->
    (NI_TAB_STOP + 1) * size r + 1 <= Int.INT_MAX ->
    0 <= rsize (editorUpdateRow r) /\
    rsize (editorUpdateRow r) + 1 <= render_alloc r.
Proof.
  intros r Hs Hm. unfold NI_TAB_STOP in Hm.
  assert (Hw : row_wf r) by (split; [exact Hs|unfold NI_TAB_STOP; lia]).
  destruct (render_size_is_cursor_width r Hw) as (Hr & _).
  rewrite Hr. rewrite editorRowCxToRx_width by lia.
  unfold render_alloc, count_tabs. rewrite Hs, Nat2Z.id, firstn_all.
  destruct (count_tabs_acc (chars r) 0 ltac:(lia) ltac:(int_range; lia))
    as (Hn & Hwd).
  cbv zeta in Hn, Hwd.
  specialize (Hwd 0 ltac:(lia) ltac:(unfold NI_TAB_STOP; lia)).
  pose proof (width_after_bounds (chars r) 0 ltac:(lia)
                ltac:(unfold NI_TAB_STOP; lia)) as Hb.
  set (tabs := fold_left _ (chars r) 0) in *.
  unfold NI_TAB_STOP in *.
  rewrite IntFacts.mul_id by (int_range; lia).
  rewrite (IntFacts.add_id (Z.of_nat _)) by (int_range; lia).
  rewrite IntFacts.add_id by (int_range; lia).
  lia.
Qed.

Lemma render_fits_allocation_witness :
  0 <= rsize (editorUpdateRow row_a_tab_b) /\
  rsize (editorUpdateRow row_a_tab_b) + 1 <= render_alloc row_a_tab_b.
Proof.
  apply (render_fits_allocation row_a_tab_b).
  - reflexivity.
  - vm_compute. discriminate.
Defined.

(** X4. The cursor column grows with the cursor: over a well-formed row,
    from [j] to [k >= j] the rendered column grows by at least [k - j] and
    at most [NI_TAB_STOP * (k - j)], and the column just behind a tab is a
    multiple of [NI_TAB_STOP]. *)
Theorem cursor_column_monotone :
  forall r j k,
    row_wf r -> 0 <= j <= k -> k <= size r ->
    editorRowCxToRx r j + (k - j) <= editorRowCxToRx r k
      <= editorRowCxToRx r j + NI_TAB_STOP * (k - j) /\
    (k < size r -> char_at r k = TAB ->
     (editorRowCxToRx r (k + 1)) mod NI_TAB_STOP = 0).
Proof.
  intros r j k (Hs & Hm) Hj Hk. split.
  - rewrite !editorRowCxToRx_width by lia.
    assert (Hsplit : firstn (Z.to_nat k) (chars r) =
                     firstn (Z.to_nat j) (chars r) ++
                     firstn (Z.to_nat (k - j)) (skipn (Z.to_nat j) (chars r))).
    { replace (Z.to_nat k) with (Z.to_nat j + Z.to_nat (k - j))%nat by lia.
      rewrite <- (firstn_skipn (Z.to_nat j) (chars r)) at 1.
      rewrite firstn_app, firstn_firstn, length_firstn.
      replace (Nat.min (Z.to_nat j + Z.to_nat (k - j)) (Z.to_nat j))
        with (Z.to_nat j) by lia.
      replace (Z.to_nat j + Z.to_nat (k - j)
               - Nat.min (Z.to_nat j) (length (chars r)))%nat
        with (Z.to_nat (k - j)) by lia.
      reflexivity. }
    rewrite Hsplit, width_after_app.
    pose proof (width_after_bounds (firstn (Z.to_nat j) (chars r)) 0
                  ltac:(lia)) as Hb0.
    rewrite length_firstn in Hb0.
    specialize (Hb0 ltac:(unfold NI_TAB_STOP in *; lia)).
    set (w := width_after (firstn (Z.to_nat j) (chars r)) 0) in *.
    pose proof (width_after_bounds
                  (firstn (Z.to_nat (k - j)) (skipn (Z.to_nat j) (chars r))) w
                  ltac:(lia)) as Hb.
    rewrite length_firstn, length_skipn in Hb.
    specialize (Hb ltac:(unfold NI_TAB_STOP in *; lia)).
    unfold NI_TAB_STOP in *. lia.
  - intros Hlt Ht. rewrite editorRowCxToRx_succ by lia. rewrite Ht.
    pose proof (editorRowCxToRx_bounds r k ltac:(lia)
                  ltac:(unfold NI_TAB_STOP in *; lia)) as Hb.
    apply render_tab_step with (out := []);
      unfold NI_TAB_STOP in *; lia.
Qed.

Lemma cursor_column_monotone_witness :
  editorRowCxToRx row_a_tab_b 1 + (3 - 1) <= editorRowCxToRx row_a_tab_b 3
    <= editorRowCxToRx row_a_tab_b 1 + NI_TAB_STOP * (3 - 1) /\
  (3 < size row_a_tab_b -> char_at row_a_tab_b 3 = TAB ->
   (editorRowCxToRx row_a_tab_b (3 + 1)) mod NI_TAB_STOP = 0).
Proof.
  apply (cursor_column_monotone row_a_tab_b 1 3).
  - exact row_a_tab_b_wf.
  - lia.
  - vm_compute. discriminate.
Defined.

(** ** The viewport: scrolling twice *)

Lemma clamp_offset_range p off n :
  Int.in_range p -> Int.in_range off -> Int.in_range (clamp_offset p off n).
Proof.
  intros Hp Ho. unfold clamp_offset.
  destruct (p >=? _); [apply IntFacts.wrap_range|].
  destruct (p <? off); assumption.
Qed.

(** An offset whose window would reach beyond [INT_MAX] is one the
    second clamp has set. *)
Lemma clamp_offset_edge p off n :
  Int.in_range p -> Int.in_range off -> Int.in_range n -> 1 <= n ->
  Int.INT_MAX < clamp_offset p off n + n ->
  clamp_offset p off n = p - n + 1.
Proof.
  unfold clamp_offset, Int.add, Int.sub. intros Hp Ho Hn H1.
  set (off1 := if p <? off then p else off).
  assert (H1o : off1 <= p /\ Int.in_range off1).
  { subst off1. destruct (Z.ltb_spec p off); split; auto; lia. }
  destruct H1o as [Hle Hr1]. int_range.
  destruct (Z_le_gt_dec (off1 + n) 2147483647) as [Hfit|Hover].
  - rewrite (IntFacts.wrap_id (off1 + n)) by (int_range; lia).
    destruct (Z.geb_spec p (off1 + n)) as [Hge|Hlt]; [|lia].
    rewrite (IntFacts.wrap_id (p - n)) by (int_range; lia).
    rewrite IntFacts.wrap_id by (int_range; lia). lia.
  - rewrite (IntFacts.wrap_above (off1 + n)) by (unfold Int.INT_MAX; lia).
    destruct (Z.geb_spec p (off1 + n - 4294967296)) as [Hge|Hlt]; [|lia].
    rewrite (IntFacts.wrap_id (p - n)) by (int_range; lia).
    rewrite IntFacts.wrap_id by (int_range; lia). lia.
Qed.

Lemma clamp_offset_idem p off n :
  Int.in_range p -> Int.in_range off -> Int.in_range n -> 1 <= n ->
  clamp_offset p (clamp_offset p off n) n = clamp_offset p off n.
Proof.
  intros Hp Ho Hn H1.
  pose proof (clamp_offset_visible p off n Hp Ho Hn H1) as Hv.
  pose proof (clamp_offset_range p off n Hp Ho) as Hr.
  pose proof (clamp_offset_edge p off n Hp Ho Hn H1) as He.
  set (o := clamp_offset p off n) in *.
  unfold clamp_offset at 1.
  destruct (Z.ltb_spec p o); [lia|].
  unfold Int.add, Int.sub. int_range.
  destruct (Z_le_gt_dec (o + n) 2147483647) as [Hfit|Hover].
  - rewrite (IntFacts.wrap_id (o + n)) by (int_range; lia).
    destruct (Z.geb_spec p (o + n)); [lia|reflexivity].
  - rewrite (IntFacts.wrap_above (o + n)) by (unfold Int.INT_MAX; lia).
    destruct (Z.geb_spec p (o + n - 4294967296)); [|lia].
    rewrite (IntFacts.wrap_id (p - n)) by (int_range; lia).
    rewrite IntFacts.wrap_id by (int_range; lia).
    lia.
Qed.

Lemma clamp_offset_keeps p off n :
  Int.in_range (off + n) -> off <= p < off + n ->
  clamp_offset p off n = off.
Proof.
  intros Hr Hv. unfold clamp_offset.
  destruct (Z.ltb_spec p off); [lia|].
  rewrite IntFacts.add_id by assumption.
  destruct (Z.geb_spec p (off + n)); [lia|reflexivity].
Qed.

(** X5. The scroll adjustment is idempotent: on a state of [int]s with
    [screenrows >= 1] and [screencols >= 1], running [editorScroll] a
    second time changes nothing; and when the cursor row is already
    within the window, [rowoff] stays as it is. *)
Theorem scroll_is_idempotent :
  forall E,
    Int.in_range (cy E) -> Int.in_range (rowoff E) ->
    Int.in_range (coloff E) ->
    Int.in_range (screenrows E) -> Int.in_range (screencols E) ->
    1 <= screenrows E -> 1 <= screencols E ->
    editorScroll (editorScroll E) = editorScroll E /\
    (rowoff E <= cy E < rowoff E + screenrows E ->
     rowoff E + screenrows E <= Int.INT_MAX ->
     rowoff (editorScroll E) = rowoff E).
Proof.
  intros E Hy Hro Hco Hsr Hsc H1 H2. split.
  - rewrite (editorScroll_eq (editorScroll E)).
    pose proof (editorScroll_fields E) as Hf. cbv zeta in Hf.
    destruct Hf as (_ & _ & _ & Hx' & Hy' & Hsr' & Hsc' & Hn' & Hr' & _ & _
                    & Hrx' & Hro' & Hco').
    assert (Hrx : scroll_rx (editorScroll E) = scroll_rx E).
    { unfold scroll_rx, row_at. now rewrite Hx', Hy', Hn', Hr'. }
    rewrite Hrx, Hy', Hsr', Hsc', Hro', Hco'.
    fold (scroll_rx E) in Hrx'. rewrite Hrx'.
    assert (Hrr : Int.in_range (scroll_rx E)).
    { unfold scroll_rx. destruct (cy E <? numrows E);
        [apply editorRowCxToRx_range|int_range; lia]. }
    rewrite !clamp_offset_idem by assumption.
    rewrite editorScroll_eq. destruct E; reflexivity.
  - intros Hv Hfit.
    pose proof (editorScroll_fields E) as Hf. cbv zeta in Hf.
    destruct Hf as (_ & _ & _ & _ & _ & _ & _ & _ & _ & _ & _ & _ & Hro' & _).
    rewrite Hro'. apply clamp_offset_keeps; [|exact Hv].
    int_range. lia.
Qed.

Lemma scroll_is_idempotent_witness :
  editorScroll (editorScroll scrolled_example) = editorScroll scrolled_example
  /\
  (rowoff scrolled_example <= cy scrolled_example
     < rowoff scrolled_example + screenrows scrolled_example ->
   rowoff scrolled_example + screenrows scrolled_example <= Int.INT_MAX ->
   rowoff (editorScroll scrolled_example) = rowoff scrolled_example).
Proof.
  apply (scroll_is_idempotent scrolled_example);
    vm_compute; try split; congruence.
Defined.

(** ** The dispatcher as a state machine *)

(** The mode a key leads to, as the three branches of
    [editorProcessKeypress] assign it. *)
Definition next_mode (m : editorModes) (c : Z) : editorModes :=
  match m with
  | NORMAL_MODE =>
      if c =? chr "i" then INSERT_MODE
      else if c =? chr ":" then COMMAND_MODE else NORMAL_MODE
  | INSERT_MODE => if c =? ESC then NORMAL_MODE else INSERT_MODE
  | COMMAND_MODE =>
      if (c =? ENTER) || (c =? ESC) then NORMAL_MODE else COMMAND_MODE
  end.

(** The keys that end the process: Ctrl-Q in normal mode, and Enter in
    command mode on a buffer that holds [q]. *)
Definition quits (E : editorConfig) (c : Z) : Prop :=
  (mode E = NORMAL_MODE /\ c = CTRL_KEY (chr "q")) \/
  (mode E = COMMAND_MODE /\ c = ENTER /\ In (chr "q") (cmd_text (cmdbuf E))).

Lemma normal_switch_mode c E :
  match normal_switch c E with
  | Running E' => mode E' = next_mode NORMAL_MODE c
  | Exited _ _ => True
  end \/ mode E <> NORMAL_MODE.
Proof.
  destruct (mode E) eqn:Hm; try (right; discriminate). left.
  unfold normal_switch, next_mode.
  destruct (c =? chr "i"); [reflexivity|].
  destruct (c =? chr ":"); [reflexivity|].
  destruct (c =? CTRL_KEY (chr "q")); [exact I|].
  destruct ((c =? chr "0") || (c =? HOME_KEY)); [exact Hm|].
  destruct ((c =? chr "$") || (c =? END_KEY)).
  { destruct (cy E <? numrows E); exact Hm. }
  destruct (is_page_up c || is_page_down c).
  { destruct (cursor_only_fields _ _ (page_move_frame c E)) as (-> & _).
    exact Hm. }
  destruct (is_motion_key c); [|exact Hm].
  destruct (cursor_only_fields _ _ (editorMoveCursor_frame c E)) as (-> & _).
  exact Hm.
Qed.

(** X6. The mode transitions of the dispatcher, for every key: from
    normal mode [i] leads to insert mode, [:] to command mode and every
    other key that returns stays in normal mode; from insert mode only ESC
    leaves, to normal mode; from command mode Enter and ESC lead to normal
    mode and every other key stays. *)
Theorem mode_transitions :
  forall beyond c E,
    match editorProcessKeypress beyond c E with
    | Running E' => mode E' = next_mode (mode E) c
    | Exited _ _ => True
    end.
Proof.
  intros beyond c E. unfold editorProcessKeypress.
  destruct (mode E) eqn:Hm.
  - unfold next_mode. destruct (c =? ESC); [reflexivity|].
    destruct (is_arrow c); [|exact Hm].
    destruct (cursor_only_fields _ _ (editorMoveCursor_frame c E)) as (-> & _).
    exact Hm.
  - destruct (is_count_digit c E) eqn:Hd.
    + apply is_count_digit_spec in Hd. unfold next_mode.
      destruct (Z.eqb_spec c (chr "i")); [chr_norm; lia|].
      destruct (Z.eqb_spec c (chr ":")); [chr_norm; lia|].
      exact Hm.
    + destruct (normal_switch_mode c E) as [Hn|Hn]; [|congruence].
      destruct (normal_switch c E); [exact Hn|exact I].
  - unfold next_mode. unfold ENTER, ESC.
    destruct (Z.eqb_spec c 13).
    { unfold editorCommandModeHandle.
      destruct (scan_quit (cmdbuf E)); [exact I|reflexivity]. }
    destruct (Z.eqb_spec c 27); [reflexivity|]. cbn [orb].
    destruct (c =? chr "8"); [exact Hm|].
    destruct (isprint c); exact Hm.
Qed.

(** A command buffer as the keys leave it while none has misused its
    block: the block is not misused, the length is an [int] below
    [INT_MAX], and there are bytes in use only in a live block, which
    has no negative length. *)
Definition command_buffer_defined (ab : abuf) : Prop :=
  blk ab <> Misused /\ Int.INT_MIN <= len ab < Int.INT_MAX /\
  (blk ab = Allocated -> 0 <= len ab) /\
  (0 < len ab -> blk ab = Allocated).

(** The keys that misuse the block of the command buffer, all of command
    mode: Enter and ESC on a released block, which they free again, and
    a printable key other than ['8'] on a released block, which it hands
    to [realloc], or with a negative length, where the byte is copied in
    front of the block or [%s] is left without a block to read. *)
Definition misuses (E : editorConfig) (c : Z) : Prop :=
  mode E = COMMAND_MODE /\
  (((c = ENTER \/ c = ESC) /\ blk (cmdbuf E) = Released) \/
   (isprint c = true /\ c <> chr "8" /\
    (blk (cmdbuf E) = Released \/ len (cmdbuf E) < 0))).

Lemma typed_block ab c :
  command_buffer_defined ab ->
  blk (read_string (abAppend ab [c] 1)) = Misused <->
  blk ab = Released \/ len ab < 0.
Proof.
  intros (Hk & Hl & Ha & Hp).
  unfold read_string, abAppend. cbv zeta.
  rewrite IntFacts.add_id by (int_range; lia).
  destruct (blk ab) eqn:Hb; try contradiction; cbn [in_order andb];
    destruct (Z.ltb_spec (len ab + 1) 0) as [Hs|Hs];
    destruct (Z.leb_spec 0 (len ab)) as [Hz|Hz];
    cbn [andb blk]; rewrite ?Hb; cbn [blk];
    (split; [intros Hx|intros [Hx|Hx]]);
    try discriminate Hx; try lia;
    try (now left); try (now right); try reflexivity;
    try (specialize (Ha eq_refl); lia);
    try (specialize (Hp ltac:(lia)); discriminate Hp).
Qed.

(** What a keypress leaves alone. *)
Lemma keypress_frame :
  forall beyond c E,
    match editorProcessKeypress beyond c E with
    | Running E' =>
        numrows E' = numrows E /\ row E' = row E /\
        filename E' = filename E /\
        screenrows E' = screenrows E /\ screencols E' = screencols E /\
        rowoff E' = rowoff E /\ coloff E' = coloff E /\ rx E' = rx E /\
        (mode E <> COMMAND_MODE -> cmdbuf E' = cmdbuf E) /\
        (mode E = COMMAND_MODE ->
         cx E' = cx E /\ cy E' = cy E /\ cmdrep E' = cmdrep E)
    | Exited _ _ => True
    end.
Proof.
  intros beyond c E.
  assert (Hco : forall E', cursor_only E E' ->
    numrows E' = numrows E /\ row E' = row E /\
    filename E' = filename E /\
    screenrows E' = screenrows E /\ screencols E' = screencols E /\
    rowoff E' = rowoff E /\ coloff E' = coloff E /\ rx E' = rx E /\
    cmdbuf E' = cmdbuf E).
  { intros E' Hf. pose proof (cursor_only_fields _ _ Hf). tauto. }
  unfold editorProcessKeypress. destruct (mode E) eqn:Hm.
  - destruct (c =? ESC); [repeat split; discriminate|].
    destruct (is_arrow c); [|repeat split; discriminate].
    pose proof (Hco _ (editorMoveCursor_frame c E)) as H.
    repeat split; try tauto; discriminate.
  - destruct (is_count_digit c E); [repeat split; discriminate|].
    assert (Hn : match normal_switch c E with
                 | Running E' =>
                     numrows E' = numrows E /\ row E' = row E /\
                     filename E' = filename E /\
                     screenrows E' = screenrows E /\
                     screencols E' = screencols E /\
                     rowoff E' = rowoff E /\ coloff E' = coloff E /\
                     rx E' = rx E /\ cmdbuf E' = cmdbuf E
                 | Exited _ _ => True
                 end).
    { unfold normal_switch.
      destruct (c =? chr "i"); [repeat split|].
      destruct (c =? chr ":"); [repeat split|].
      destruct (c =? CTRL_KEY (chr "q")); [exact I|].
      destruct ((c =? chr "0") || (c =? HOME_KEY)); [repeat split|].
      destruct ((c =? chr "$") || (c =? END_KEY)).
      { destruct (cy E <? numrows E); repeat split. }
      destruct (is_page_up c || is_page_down c).
      { apply Hco, page_move_frame. }
      destruct (is_motion_key c); [|repeat split].
      apply Hco, editorMoveCursor_frame. }
    destruct (normal_switch c E) as [E'|out status]; [|exact I].
    state_cbn. repeat split; try tauto; discriminate.
  - destruct (c =? ENTER).
    { unfold editorCommandModeHandle.
      destruct (scan_quit (cmdbuf E)); [exact I|].
      repeat split; contradiction. }
    destruct (c =? ESC); [repeat split; contradiction|].
    destruct (c =? chr "8"); [repeat split; contradiction|].
    destruct (isprint c); repeat split; contradiction.
Qed.

(** X7. The ways out, from a state within what C defines.  A keypress
    ends the process exactly when it is Ctrl-Q in normal mode, or Enter
    in command mode with the byte [q] in the command buffer; it then
    leaves through [editorExit], with the screen cleared and status 0.
    A keypress misuses the block of the command buffer exactly when, in
    command mode, it is Enter or ESC on a released block or a printable
    key other than ['8'] on a released block or with a negative length:
    there the program has left what C defines.  Every other keypress
    returns a state, its command buffer not misused. *)
Theorem exit_only_by_quit :
  forall beyond c E,
    command_buffer_defined (cmdbuf E) ->
    (quits E c -> editorProcessKeypress beyond c E = editorExit) /\
    (misuses E c -> undefined_from (editorProcessKeypress beyond c E)) /\
    (~ quits E c -> ~ misuses E c ->
     exists E',
       editorProcessKeypress beyond c E = Running E' /\
       blk (cmdbuf E') <> Misused).
Proof.
  intros beyond c E Hd.
  pose proof Hd as (Hk & Hl & Ha & Hpos).
  split; [|split].
  - intros [(Hm & ->)|(Hm & -> & Hq)].
    + unfold editorProcessKeypress. rewrite Hm.
      rewrite not_count_digit by (chr_norm; cbn; lia). reflexivity.
    + rewrite press_enter by assumption.
      apply scan_quit_spec in Hq. now rewrite Hq.
  - intros (Hm & [([-> | ->] & Hb)|(Hp & H8 & Hb)]).
    + rewrite press_enter by assumption.
      destruct (scan_quit (cmdbuf E)) eqn:Hq.
      * apply scan_quit_spec in Hq. exfalso.
        assert (Hlen : 0 < len (cmdbuf E)).
        { unfold cmd_text in Hq.
          destruct (Z.to_nat (len (cmdbuf E))) eqn:Hn; [destruct Hq|lia]. }
        specialize (Hpos Hlen). congruence.
      * unfold undefined_from, editorSetStatusMsg. state_cbn.
        unfold abFree. cbn [blk]. now rewrite Hb.
    + rewrite press_escape by assumption.
      unfold undefined_from, editorSetStatusMsg. state_cbn.
      unfold abFree. cbn [blk]. now rewrite Hb.
    + rewrite press_printable by assumption.
      unfold undefined_from, editorSetStatusMsg. state_cbn.
      now apply typed_block.
  - intros Hq Hmis.
    pose proof (keypress_frame beyond c E) as Hf.
    destruct (mode E) eqn:Hm.
    + destruct (editorProcessKeypress beyond c E) as [E'|out status] eqn:Hr.
      * exists E'. split; [reflexivity|].
        destruct Hf as (_ & _ & _ & _ & _ & _ & _ & _ & Hc & _).
        rewrite Hc by discriminate. exact Hk.
      * exfalso. revert Hr. unfold editorProcessKeypress. rewrite Hm.
        destruct (c =? ESC); [discriminate|].
        destruct (is_arrow c); discriminate.
    + destruct (editorProcessKeypress beyond c E) as [E'|out status] eqn:Hr.
      * exists E'. split; [reflexivity|].
        destruct Hf as (_ & _ & _ & _ & _ & _ & _ & _ & Hc & _).
        rewrite Hc by discriminate. exact Hk.
      * exfalso. revert Hr. unfold editorProcessKeypress. rewrite Hm.
        destruct (is_count_digit c E); [discriminate|].
        destruct (normal_switch c E) as [E'|out' status'] eqn:Hs;
          [discriminate|]. intros _.
        apply Hq. left. split; [exact Hm|].
        eapply normal_switch_exit; eassumption.
    + clear Hf. unfold ENTER, ESC in *.
      destruct (Z.eq_dec c 13) as [->|Hc13].
      { change 13 with ENTER. rewrite press_enter by assumption.
        destruct (scan_quit (cmdbuf E)) eqn:Hs.
        - exfalso. apply Hq. right. split; [exact Hm|].
          split; [reflexivity|]. now apply scan_quit_spec.
        - eexists. split; [reflexivity|].
          unfold editorSetStatusMsg. state_cbn. unfold abFree. cbn [blk].
          destruct (blk (cmdbuf E)) eqn:Hb; try discriminate;
            try contradiction.
          exfalso. apply Hmis. split; [exact Hm|]. left.
          split; [now left|exact Hb]. }
      destruct (Z.eq_dec c 27) as [->|Hc27].
      { change 27 with ESC. rewrite press_escape by assumption.
        eexists. split; [reflexivity|].
        unfold editorSetStatusMsg. state_cbn. unfold abFree. cbn [blk].
        destruct (blk (cmdbuf E)) eqn:Hb; try discriminate;
          try contradiction.
        exfalso. apply Hmis. split; [exact Hm|]. left.
        split; [now right|exact Hb]. }
      destruct (Z.eq_dec c (chr "8")) as [->|Hc8].
      { rewrite press_delete by assumption.
        eexists. split; [reflexivity|]. state_cbn.
        unfold abDelete. destruct (_ >? _); exact Hk. }
      destruct (isprint c) eqn:Hp.
      * rewrite press_printable by assumption.
        eexists. split; [reflexivity|].
        unfold editorSetStatusMsg. state_cbn.
        rewrite typed_block by exact Hd.
        intros Hb. apply Hmis. split; [exact Hm|]. right.
        split; [exact Hp|]. split; [exact Hc8|exact Hb].
      * exists E. split; [|exact Hk].
        unfold editorProcessKeypress. rewrite Hm, Hp.
        unfold ENTER, ESC.
        destruct (Z.eqb_spec c 13); [contradiction|].
        destruct (Z.eqb_spec c 27); [contradiction|].
        destruct (Z.eqb_spec c (chr "8")); [contradiction|].
        reflexivity.
Qed.

(** The state after [:x<ESC>:] typed at the start: command mode, the
    block of the command buffer released. *)
Definition second_command_state : editorConfig :=
  Eval vm_compute in
    typed_in_command_mode [chr "x"; ESC; chr ":"].

Lemma exit_only_by_quit_witness :
  editorProcessKeypress [] (CTRL_KEY (chr "q")) normal_state = editorExit /\
  undefined_from (editorProcessKeypress [] ESC second_command_state) /\
  exists E',
    editorProcessKeypress [] (chr "q") normal_state = Running E' /\
    blk (cmdbuf E') <> Misused.
Proof.
  assert (Hd : forall E, blk (cmdbuf E) <> Misused ->
                         len (cmdbuf E) = 0 ->
                         command_buffer_defined (cmdbuf E)).
  { intros E Hb Hl. unfold command_buffer_defined. rewrite Hl.
    unfold Int.INT_MIN, Int.INT_MAX.
    repeat split; try assumption; intros; lia. }
  split; [|split].
  - apply (proj1 (exit_only_by_quit [] (CTRL_KEY (chr "q")) normal_state
                    (Hd normal_state ltac:(discriminate) eq_refl))).
    left. split; reflexivity.
  - apply (proj1 (proj2 (exit_only_by_quit [] ESC second_command_state
                           (Hd second_command_state ltac:(discriminate)
                              eq_refl)))).
    split; [reflexivity|]. left. split; [now right|reflexivity].
  - apply (proj2 (proj2 (exit_only_by_quit [] (chr "q") normal_state
                           (Hd normal_state ltac:(discriminate) eq_refl)))).
    + intros [(_ & Hc)|(Hm & _)]; [|discriminate Hm].
      vm_compute in Hc. discriminate Hc.
    + intros (Hm & _). discriminate Hm.
Defined.

(** X8. What no key does, in any mode: the row store ([numrows], [row]),
    the file name, the screen size and the scroll state ([rowoff],
    [coloff], [rx]) are the same after every keypress that returns;
    outside command mode the command buffer is untouched, and in command
    mode the cursor and the repeat count are. *)
Theorem keys_leave_buffer_and_viewport :
  forall beyond c E,
    match editorProcessKeypress beyond c E with
    | Running E' =>
        numrows E' = numrows E /\ row E' = row E /\
        filename E' = filename E /\
        screenrows E' = screenrows E /\ screencols E' = screencols E /\
        rowoff E' = rowoff E /\ coloff E' = coloff E /\ rx E' = rx E /\
        (mode E <> COMMAND_MODE -> cmdbuf E' = cmdbuf E) /\
        (mode E = COMMAND_MODE ->
         cx E' = cx E /\ cy E' = cy E /\ cmdrep E' = cmdrep E)
    | Exited _ _ => True
    end.
Proof. exact keypress_frame. Qed.

(** X9. The keys of the line ends in normal mode.  Home puts the column
    at 0, and so does [0] while no repeat count is pending; [$] and End
    put the column at the size of the current row, and leave it alone
    behind the last row.  None of them changes the row, and the repeat
    count is 0 afterwards. *)
Theorem line_end_keys :
  forall beyond c E,
    mode E = NORMAL_MODE ->
    (c = HOME_KEY \/ (c = chr "0" /\ cmdrep E = 0) ->
     editorProcessKeypress beyond c E = Running (set_cmdrep 0 (set_cx 0 E)))
    /\
    (c = END_KEY \/ c = chr "$" ->
     exists E',
       editorProcessKeypress beyond c E = Running E' /\
       cy E' = cy E /\ cmdrep E' = 0 /\
       cx E' = (if cy E <? numrows E then size (row_at E (cy E)) else cx E)).
Proof.
  intros beyond c E Hm. split.
  - intros Hc. unfold editorProcessKeypress. rewrite Hm.
    rewrite not_count_digit
      by (destruct Hc as [->|(-> & Hr)]; unfold HOME_KEY; chr_norm; lia).
    assert (Hs : normal_switch c E = Running (set_cx 0 E))
      by (destruct Hc as [->|(-> & _)]; reflexivity).
    now rewrite Hs.
  - intros Hc. rewrite press_end by tauto.
    eexists. split; [reflexivity|]. state_cbn.
    destruct (cy E <? numrows E); repeat split.
Qed.

Lemma line_end_keys_witness :
  (HOME_KEY = HOME_KEY \/ (HOME_KEY = chr "0" /\ cmdrep normal_state = 0) ->
   editorProcessKeypress [] HOME_KEY normal_state
     = Running (set_cmdrep 0 (set_cx 0 normal_state))) /\
  (HOME_KEY = END_KEY \/ HOME_KEY = chr "$" ->
   exists E',
     editorProcessKeypress [] HOME_KEY normal_state = Running E' /\
     cy E' = cy normal_state /\ cmdrep E' = 0 /\
     cx E' = (if cy normal_state <? numrows normal_state
              then size (row_at normal_state (cy normal_state))
              else cx normal_state)).
Proof. apply (line_end_keys [] HOME_KEY normal_state). reflexivity. Defined.

(** ** Cursor motion: left and right undo each other *)

Lemma current_row_some E :
  cy E < numrows E -> current_row E = Some (row_at E (cy E)).
Proof.
  intros H. unfold current_row.
  destruct (Z.geb_spec (cy E) (numrows E)); [lia|reflexivity].
Qed.

Lemma rowlen_on_row E : cy E < numrows E -> rowlen E = size (row_at E (cy E)).
Proof. intros H. unfold rowlen. now rewrite current_row_some. Qed.

Lemma rowlen_set_cx v E : rowlen (set_cx v E) = rowlen E.
Proof. reflexivity. Qed.

Lemma move_right_spec c E :
  c = chr "l" \/ c = ARROW_RIGHT ->
  rows_ok E -> cursor_ok E -> cy E < numrows E ->
  editorMoveCursor c E =
  if cx E <? size (row_at E (cy E)) then set_cx (cx E + 1) E
  else set_cx 0 (set_cy (cy E + 1) E).
Proof.
  intros Hc Hr (Hy & Hx) Hlt.
  pose proof (row_size_ok E (cy E) Hr ltac:(lia)) as Hs.
  pose proof Hr as (_ & Hmax & _).
  rewrite rowlen_on_row in Hx by assumption.
  unfold editorMoveCursor.
  assert (Hsw : cursor_switch c E =
    match current_row E with
    | Some r =>
        if cx E <? size r then set_cx (Int.add (cx E) 1) E
        else if cx E =? size r
             then set_cx 0 (set_cy (Int.add (cy E) 1) E) else E
    | None => E
    end) by (destruct Hc; subst c; reflexivity).
  rewrite Hsw, current_row_some by assumption.
  destruct (Z.ltb_spec (cx E) (size (row_at E (cy E)))).
  - int_ids. apply snap_cursor_id. rewrite rowlen_set_cx.
    rewrite rowlen_on_row by assumption. state_cbn. lia.
  - destruct (Z.eqb_spec (cx E) (size (row_at E (cy E)))); [|lia].
    int_ids. apply snap_cursor_id. state_cbn.
    assert (Hw : cursor_weak (set_cx 0 (set_cy (cy E + 1) E)))
      by (unfold cursor_weak; state_cbn; int_range; lia).
    assert (Hr' : rows_ok (set_cx 0 (set_cy (cy E + 1) E)))
      by (eapply rows_ok_cursor_only; [|exact Hr]; auto with frame).
    pose proof (rowlen_range _ Hr' ltac:(state_cbn; lia)). lia.
Qed.

Lemma move_left_spec c E :
  c = chr "h" \/ c = ARROW_LEFT ->
  rows_ok E -> cursor_ok E ->
  editorMoveCursor c E =
  if negb (cx E =? 0) then set_cx (cx E - 1) E
  else if cy E >? 0
       then set_cx (size (row_at E (cy E - 1))) (set_cy (cy E - 1) E)
       else E.
Proof.
  intros Hc Hr Hok. pose proof Hok as (Hy & Hx).
  pose proof (rowlen_range E Hr ltac:(lia)) as Hl.
  pose proof Hr as (_ & Hmax & _).
  unfold editorMoveCursor.
  assert (Hsw : cursor_switch c E =
    if negb (cx E =? 0) then set_cx (Int.sub (cx E) 1) E
    else if cy E >? 0
         then let E' := set_cy (Int.sub (cy E) 1) E in
              set_cx (size (row_at E' (cy E'))) E'
         else E) by (destruct Hc; subst c; reflexivity).
  rewrite Hsw. cbv zeta.
  destruct (Z.eqb_spec (cx E) 0); cbn [negb].
  - destruct (Z.gtb_spec (cy E) 0).
    + state_cbn. int_ids.
      change (row_at (set_cy (cy E - 1) E) (cy E - 1))
        with (row_at E (cy E - 1)).
      apply snap_cursor_id. state_cbn.
      unfold rowlen, current_row, row_at. state_cbn.
      destruct (Z.geb_spec (cy E - 1) (numrows E)); [lia|]. lia.
    + apply snap_cursor_id. lia.
  - int_ids. apply snap_cursor_id. rewrite rowlen_set_cx. state_cbn. lia.
Qed.

(** X10. Left and right undo each other.  With the cursor within its
    bounds, the right key ([l] or the arrow) followed by the left key ([h]
    or the arrow) puts the cursor back wherever it stood on a row, across
    the end of a line too; and left followed by right puts it back
    everywhere but at the very start of the buffer. *)
Theorem left_right_round_trip :
  forall l h E,
    (l = chr "l" \/ l = ARROW_RIGHT) -> (h = chr "h" \/ h = ARROW_LEFT) ->
    rows_ok E -> cursor_ok E ->
    (cy E < numrows E ->
     editorMoveCursor h (editorMoveCursor l E) = E) /\
    (cx E <> 0 \/ cy E <> 0 ->
     editorMoveCursor l (editorMoveCursor h E) = E).
Proof.
  intros l h E Hl Hh Hr Hok. pose proof Hok as (Hy & Hx).
  pose proof Hr as (_ & Hmax & _).
  assert (Hrows : forall E', cursor_only E E' -> rows_ok E')
    by (intros E' Hf; eapply rows_ok_cursor_only; eassumption).
  split.
  - intros Hlt. rewrite (move_right_spec l E) by assumption.
    pose proof (row_size_ok E (cy E) Hr ltac:(lia)) as Hs.
    rewrite rowlen_on_row in Hx by assumption.
    destruct (Z.ltb_spec (cx E) (size (row_at E (cy E)))).
    + rewrite move_left_spec;
        [ | assumption | apply Hrows; auto with frame
          | unfold cursor_ok; rewrite rowlen_set_cx,
              rowlen_on_row by assumption; state_cbn; lia ].
      state_cbn. destruct (Z.eqb_spec (cx E + 1) 0); [lia|]. cbn [negb].
      destruct E. state_cbn_all. state_red. f_equal; lia.
    + rewrite move_left_spec;
        [ | assumption | apply Hrows; auto with frame | ].
      * state_cbn. cbn [Z.eqb negb].
        destruct (Z.gtb_spec (cy E + 1) 0); [|lia].
        replace (cy E + 1 - 1) with (cy E) by lia.
        change (row_at (set_cx 0 (set_cy (cy E + 1) E)) (cy E))
          with (row_at E (cy E)).
        destruct E. state_cbn_all. state_red. f_equal; lia.
      * assert (Hr' : rows_ok (set_cx 0 (set_cy (cy E + 1) E)))
          by (apply Hrows; auto with frame).
        pose proof (rowlen_range _ Hr' ltac:(state_cbn; lia)).
        unfold cursor_ok. state_cbn. lia.
  - intros Hnz. rewrite (move_left_spec h E) by assumption.
    pose proof (rowlen_range E Hr ltac:(lia)) as Hrl.
    assert (Hrow0 : cx E <> 0 -> cy E < numrows E).
    { intros Hc. destruct (Z_lt_ge_dec (cy E) (numrows E)); [assumption|].
      unfold rowlen, current_row in Hx.
      destruct (Z.geb_spec (cy E) (numrows E)); lia. }
    destruct (Z.eqb_spec (cx E) 0) as [Hc0|Hc0]; cbn [negb].
    + destruct (Z.gtb_spec (cy E) 0); [|lia].
      pose proof (row_size_ok E (cy E - 1) Hr ltac:(lia)) as Hs.
      set (E1 := set_cx (size (row_at E (cy E - 1))) (set_cy (cy E - 1) E)).
      assert (Hrow1 : row_at E1 (cy E1) = row_at E (cy E - 1)) by reflexivity.
      rewrite move_right_spec;
        [ | assumption | apply Hrows; subst E1; auto with frame
          | unfold cursor_ok; rewrite rowlen_on_row
              by (subst E1; state_cbn; lia);
            rewrite Hrow1; subst E1; state_cbn; lia
          | subst E1; state_cbn; lia ].
      rewrite Hrow1. subst E1. state_cbn.
      rewrite Z.ltb_irrefl.
      destruct E. state_cbn_all. subst. state_red. f_equal; lia.
    + specialize (Hrow0 Hc0).
      pose proof (row_size_ok E (cy E) Hr ltac:(lia)) as Hs.
      rewrite rowlen_on_row in Hx by assumption.
      rewrite move_right_spec;
        [ | assumption | apply Hrows; auto with frame
          | unfold cursor_ok; rewrite rowlen_set_cx,
              rowlen_on_row by assumption; state_cbn; lia
          | state_cbn; lia ].
      state_cbn.
      change (row_at (set_cx (cx E - 1) E) (cy E)) with (row_at E (cy E)).
      destruct (Z.ltb_spec (cx E - 1) (size (row_at E (cy E)))); [|lia].
      destruct E. state_cbn_all. state_red. f_equal; lia.
Qed.

Lemma left_right_round_trip_witness :
  (cy normal_state < numrows normal_state ->
   editorMoveCursor ARROW_LEFT (editorMoveCursor ARROW_RIGHT normal_state)
     = normal_state) /\
  (cx normal_state <> 0 \/ cy normal_state <> 0 ->
   editorMoveCursor ARROW_RIGHT (editorMoveCursor ARROW_LEFT normal_state)
     = normal_state).
Proof.
  apply (left_right_round_trip ARROW_RIGHT ARROW_LEFT normal_state).
  - right. reflexivity.
  - right. reflexivity.
  - unfold rows_ok. cbn. split; [reflexivity|]. split; [discriminate|].
    repeat constructor; cbn; unfold Int.INT_MAX; lia.
  - unfold cursor_ok. cbn. lia.
Defined.

(** ** Cursor motion: the word keys move forward *)

Lemma rounds_succ r x :
  x < size r -> rounds r x = S (Z.to_nat (size r - x - 1)).
Proof. intros H. unfold rounds. lia. Qed.

Lemma skip_WORD_progress r x :
  0 <= x < size r -> size r <= Int.INT_MAX ->
  x + 1 <= skip_WORD (rounds r x) r x <= size r.
Proof.
  intros Hx Hs. rewrite rounds_succ by lia. cbn [skip_WORD].
  destruct (Z.ltb_spec x (size r)); [|lia].
  rewrite IntFacts.add_id by (int_range; lia).
  destruct (isspace _); [lia|].
  pose proof (skip_WORD_bounds (Z.to_nat (size r - x - 1)) r (x + 1)
                ltac:(lia) Hs). lia.
Qed.

Lemma skip_word_progress r x :
  0 <= x < size r -> size r <= Int.INT_MAX ->
  x + 1 <= skip_word (rounds r x) r x <= size r.
Proof.
  intros Hx Hs. rewrite rounds_succ by lia. cbn [skip_word].
  destruct (Z.ltb_spec x (size r)); [|lia].
  rewrite IntFacts.add_id by (int_range; lia).
  destruct (isspace _); [lia|]. destruct (ispunct _); [lia|].
  pose proof (skip_word_bounds (Z.to_nat (size r - x - 1)) r (x + 1)
                ltac:(lia) Hs). lia.
Qed.

(** X11. The word keys [w], [W], [e], [E] only move forward: on a row,
    with the cursor within its bounds, the cursor ends either further
    right on the same row, before its end, or at column 0 of the next
    row; behind the last row they leave the state as it is. *)
Theorem word_keys_move_forward :
  forall key E,
    key = chr "w" \/ key = chr "W" \/ key = chr "e" \/ key = chr "E" ->
    rows_ok E -> cursor_ok E ->
    (cy E < numrows E ->
     (cy (editorMoveCursor key E) = cy E /\
      cx E < cx (editorMoveCursor key E) < size (row_at E (cy E))) \/
     (cy (editorMoveCursor key E) = cy E + 1 /\
      cx (editorMoveCursor key E) = 0)) /\
    (cy E = numrows E -> editorMoveCursor key E = E).
Proof.
  intros key E Hk Hr Hok. pose proof Hok as (Hy & Hx).
  pose proof Hr as (_ & Hmax & _).
  unfold editorMoveCursor.
  assert (Hsw : cursor_switch key E =
    match current_row E with
    | Some r =>
        let x1 :=
          if (key =? chr "W") || (key =? chr "E")
          then skip_WORD (rounds r (cx E)) r (cx E)
          else skip_word (rounds r (cx E)) r (cx E) in
        let x2 :=
          if (key =? chr "W") || (key =? chr "w")
          then skip_spaces (rounds r x1) r x1
          else x1 in
        if x2 >=? size r
        then set_cx 0 (set_cy (Int.add (cy E) 1) E)
        else set_cx x2 E
    | None => E
    end) by (destruct Hk as [->|[->|[->| ->]]]; reflexivity).
  rewrite Hsw. clear Hsw. split.
  - intros Hlt. rewrite current_row_some by assumption.
    pose proof (row_size_ok E (cy E) Hr ltac:(lia)) as Hs.
    rewrite rowlen_on_row in Hx by assumption.
    set (r := row_at E (cy E)) in *. cbv zeta.
    set (x1 := if (key =? chr "W") || (key =? chr "E")
               then skip_WORD (rounds r (cx E)) r (cx E)
               else skip_word (rounds r (cx E)) r (cx E)).
    assert (H1 : cx E <= x1 <= size r /\ (cx E < size r -> cx E < x1)).
    { subst x1. destruct ((key =? chr "W") || (key =? chr "E")).
      - pose proof (skip_WORD_bounds (rounds r (cx E)) r (cx E)
                      ltac:(lia) ltac:(lia)).
        split; [lia|]. intros Hc.
        pose proof (skip_WORD_progress r (cx E) ltac:(lia) ltac:(lia)). lia.
      - pose proof (skip_word_bounds (rounds r (cx E)) r (cx E)
                      ltac:(lia) ltac:(lia)).
        split; [lia|]. intros Hc.
        pose proof (skip_word_progress r (cx E) ltac:(lia) ltac:(lia)). lia. }
    clearbody x1.
    set (x2 := if (key =? chr "W") || (key =? chr "w")
               then skip_spaces (rounds r x1) r x1 else x1).
    assert (H2 : x1 <= x2 <= size r).
    { subst x2. destruct ((key =? chr "W") || (key =? chr "w")); [|lia].
      pose proof (skip_spaces_bounds (rounds r x1) r x1
                    ltac:(lia) ltac:(lia)). lia. }
    clearbody x2.
    destruct (Z.geb_spec x2 (size r)).
    + right. int_ids. rewrite snap_cursor_id.
      * state_cbn. split; reflexivity.
      * assert (Hr' : rows_ok (set_cx 0 (set_cy (cy E + 1) E)))
          by (eapply rows_ok_cursor_only; [|exact Hr]; auto with frame).
        pose proof (rowlen_range _ Hr' ltac:(state_cbn; lia)).
        state_cbn. lia.
    + left. rewrite snap_cursor_id.
      * state_cbn. split; [reflexivity|lia].
      * rewrite rowlen_set_cx, rowlen_on_row by assumption.
        state_cbn. fold r. lia.
  - intros He. unfold current_row.
    destruct (Z.geb_spec (cy E) (numrows E)); [|lia].
    apply snap_cursor_id. lia.
Qed.

Definition word_state : editorConfig :=
  Eval vm_compute in
    set_cx 1 (startup 24 80 (Some (bytes "f", [bytes "ab cd"; bytes "e"]))).

Lemma word_keys_move_forward_witness :
  (cy word_state < numrows word_state ->
   (cy (editorMoveCursor (chr "w") word_state) = cy word_state /\
    cx word_state < cx (editorMoveCursor (chr "w") word_state)
      < size (row_at word_state (cy word_state))) \/
   (cy (editorMoveCursor (chr "w") word_state) = cy word_state + 1 /\
    cx (editorMoveCursor (chr "w") word_state) = 0)) /\
  (cy word_state = numrows word_state ->
   editorMoveCursor (chr "w") word_state = word_state).
Proof.
  apply (word_keys_move_forward (chr "w") word_state).
  - left. reflexivity.
  - unfold rows_ok. cbn. split; [reflexivity|]. split; [discriminate|].
    repeat constructor; cbn; unfold Int.INT_MAX; lia.
  - unfold cursor_ok. cbn. lia.
Defined.

(** ** The page keys, in closed form *)

Lemma move_up_cy c E :
  c = ARROW_UP \/ c = chr "k" -> 0 <= cy E <= Int.INT_MAX ->
  cy (editorMoveCursor c E) = Z.max 0 (cy E - 1).
Proof.
  intros Hc Hy. unfold editorMoveCursor. rewrite cy_snap_cursor.
  assert (Hs : cursor_switch c E =
               if negb (cy E =? 0) then set_cy (Int.sub (cy E) 1) E else E)
    by (destruct Hc; subst c; reflexivity).
  rewrite Hs. destruct (Z.eqb_spec (cy E) 0); cbn [negb]; [lia|].
  state_cbn. int_ids. lia.
Qed.

Lemma iter_up_cy n : forall E,
  0 <= cy E <= Int.INT_MAX ->
  cy (Nat.iter n (editorMoveCursor ARROW_UP) E)
    = Z.max 0 (cy E - Z.of_nat n).
Proof.
  induction n as [|n IH]; intros E Hy.
  - cbn [Nat.iter nat_rect]. lia.
  - change (Nat.iter (S n) (editorMoveCursor ARROW_UP) E)
      with (editorMoveCursor ARROW_UP
              (Nat.iter n (editorMoveCursor ARROW_UP) E)).
    specialize (IH E Hy).
    rewrite move_up_cy; [|left; reflexivity|lia]. lia.
Qed.

Lemma iter_down_cy n : forall E,
  0 <= cy E <= numrows E -> numrows E <= Int.INT_MAX ->
  cy (Nat.iter n (editorMoveCursor ARROW_DOWN) E)
    = Z.min (numrows E) (cy E + Z.of_nat n).
Proof.
  induction n as [|n IH]; intros E Hy Hmax.
  - cbn [Nat.iter nat_rect]. lia.
  - change (Nat.iter (S n) (editorMoveCursor ARROW_DOWN) E)
      with (editorMoveCursor ARROW_DOWN
              (Nat.iter n (editorMoveCursor ARROW_DOWN) E)).
    specialize (IH E Hy Hmax).
    set (En := Nat.iter n (editorMoveCursor ARROW_DOWN) E) in *.
    assert (Hn : numrows En = numrows E).
    { subst En.
      apply (cursor_only_fields E), iter_cursor_only.
      intros E0. apply editorMoveCursor_frame. }
    rewrite move_down_cy; [|left; reflexivity|lia|lia].
    rewrite Hn. destruct (Z.ltb_spec (cy En) (numrows E)); lia.
Qed.

(** X12. Where the page keys put the cursor row, with a usable viewport
    (at least one text row, [rowoff] within the buffer): PageUp and Ctrl-U
    lead to row [max 0 (rowoff - screenrows)], PageDown and Ctrl-D to row
    [min numrows (rowoff + 2 * screenrows - 1)]. *)
Theorem page_keys_row :
  forall c E,
    rows_ok E -> viewport_ok E ->
    (is_page_up c = true ->
     cy (page_move c E) = Z.max 0 (rowoff E - screenrows E)) /\
    (is_page_up c = false -> is_page_down c = true ->
     cy (page_move c E)
       = Z.min (numrows E) (rowoff E + 2 * screenrows E - 1)).
Proof.
  intros c E (_ & Hmax & _) (Hs & Ho & Hfit).
  unfold page_move, while_times. split.
  - intros Hu. rewrite Hu. state_cbn.
    assert (Hd : (if is_page_down c then ARROW_DOWN else ARROW_UP) = ARROW_UP).
    { unfold is_page_up, is_page_down in *. chr_norm.
      unfold CTRL_KEY, PAGE_UP, PAGE_DOWN in *. cbn in *.
      destruct (Z.eqb_spec c 1007); destruct (Z.eqb_spec c 21);
        destruct (Z.eqb_spec c 1008); destruct (Z.eqb_spec c 4);
        cbn in *; try lia; try discriminate; reflexivity. }
    rewrite Hd. rewrite Z.mod_small by (int_range; lia).
    rewrite iter_up_cy by (state_cbn; int_range; lia).
    state_cbn. lia.
  - intros Hu Hd. rewrite Hu, Hd. cbv zeta. state_cbn. int_ids.
    rewrite Z.mod_small
      by (destruct (_ >? _); state_cbn; int_range; lia).
    destruct (Z.gtb_spec (rowoff E + screenrows E - 1) (numrows E)).
    + rewrite iter_down_cy by (state_cbn; lia). state_cbn. lia.
    + rewrite iter_down_cy by (state_cbn; lia). state_cbn. lia.
Qed.

Lemma page_keys_row_witness :
  (is_page_up PAGE_DOWN = true ->
   cy (page_move PAGE_DOWN normal_state)
     = Z.max 0 (rowoff normal_state - screenrows normal_state)) /\
  (is_page_up PAGE_DOWN = false -> is_page_down PAGE_DOWN = true ->
   cy (page_move PAGE_DOWN normal_state)
     = Z.min (numrows normal_state)
         (rowoff normal_state + 2 * screenrows normal_state - 1)).
Proof.
  apply (page_keys_row PAGE_DOWN normal_state).
  - unfold rows_ok. cbn. split; [reflexivity|]. split; [discriminate|].
    repeat constructor; cbn; unfold Int.INT_MAX; lia.
  - unfold viewport_ok. cbn. unfold Int.INT_MAX. lia.
Defined.

(** ** Loading a file *)

Definition NEWLINE : Z := 10. (* '\n' *)
Definition CR : Z := 13.      (* '\r' *)

(** [while (linelen > 0 && (line[linelen-1] == '\n' ||
            line[linelen-1] == '\r')) linelen--;] of [editorOpen];
    [linelen] rounds let it run to its exit. *)
Fixpoint strip_eol (fuel : nat) (line : list Z) (linelen : Z) : Z :=
  match fuel with
  | O => linelen
  | S fuel' =>
      if (linelen >? 0) &&
         ((nth (Z.to_nat (linelen - 1)) line 0 =? NEWLINE) ||
          (nth (Z.to_nat (linelen - 1)) line 0 =? CR))
      then strip_eol fuel' line (linelen - 1)
      else linelen
  end.

(** The bytes [editorOpen] hands to [editorAppendRow] for the line
    [getline] returned. *)
Definition stored_line (line : list Z) : list Z :=
  firstn
    (Z.to_nat (strip_eol (length line) line (Z.of_nat (length line))))
    line.

(** [getline] over the contents of a file: each call returns the bytes up
    to and including the next newline, the last call what is left. *)
Fixpoint getlines (content : list Z) : list (list Z) :=
  match content with
  | [] => []
  | c :: rest =>
      if c =? NEWLINE then [c] :: getlines rest
      else match getlines rest with
           | [] => [[c]]
           | l :: ls => (c :: l) :: ls
           end
  end.

(** [editorOpen(filename)] on a file with the bytes [content]. *)
Definition editorOpen_content (fname content : list Z) (E : editorConfig)
  : editorConfig :=
  editorOpen fname (map stored_line (getlines content)) E.

Definition is_eol (c : Z) : bool := (c =? NEWLINE) || (c =? CR).

(** The loop stops at the last byte that is no line end. *)
Lemma strip_eol_spec fuel : forall line n,
  0 <= n <= Z.of_nat fuel -> n <= Z.of_nat (length line) ->
  let m := strip_eol fuel line n in
  0 <= m <= n /\
  forallb is_eol (skipn (Z.to_nat m) (firstn (Z.to_nat n) line)) = true /\
  (0 < m -> is_eol (nth (Z.to_nat (m - 1)) line 0) = false).
Proof.
  induction fuel as [|fuel IH]; intros line n Hn Hl; cbv zeta.
  - cbn [strip_eol]. assert (n = 0) by lia. subst n.
    split; [lia|]. split; [reflexivity|]. lia.
  - cbn [strip_eol]. fold (is_eol (nth (Z.to_nat (n - 1)) line 0)).
    destruct (Z.gtb_spec n 0) as [Hp|Hp]; cbn [andb].
    + destruct (is_eol (nth (Z.to_nat (n - 1)) line 0)) eqn:He.
      * destruct (IH line (n - 1) ltac:(lia) ltac:(lia)) as (Hm & Hs & Hlast).
        cbv zeta in Hm, Hs, Hlast.
        set (m := strip_eol fuel line (n - 1)) in *.
        split; [lia|]. split; [|exact Hlast].
        replace (Z.to_nat n) with (S (Z.to_nat (n - 1))) by lia.
        assert (Hf : firstn (S (Z.to_nat (n - 1))) line =
                     firstn (Z.to_nat (n - 1)) line
                       ++ [nth (Z.to_nat (n - 1)) line 0]).
        { clear - Hl Hp. assert (Hlt : (Z.to_nat (n - 1) < length line)%nat)
            by lia.
          revert Hlt. generalize (Z.to_nat (n - 1)) as k. clear.
          induction line as [|c l IHl]; intros k Hk; [cbn in Hk; lia|].
          destruct k; [reflexivity|]. cbn [firstn app nth].
          f_equal. apply IHl. cbn in Hk. lia. }
        rewrite Hf, skipn_app, forallb_app, Hs.
        rewrite length_firstn.
        replace (Z.to_nat m - Nat.min (Z.to_nat (n - 1)) (length line))%nat
          with 0%nat by lia.
        cbn [skipn forallb]. now rewrite He.
      * split; [lia|]. split; [|intros _; exact He].
        rewrite skipn_all2; [reflexivity|]. rewrite length_firstn. lia.
    + assert (n = 0) by lia. subst n.
      split; [lia|]. split; [reflexivity|]. lia.
Qed.

(** X13. What a row keeps of its line: the bytes [editorOpen] stores for
    a line that [getline] returned are the line without its trailing
    newlines and carriage returns, all of them and nothing else: the
    line is the stored bytes followed by line-end bytes only, and the
    stored bytes do not end in one. *)
Theorem stored_line_strips_line_ends :
  forall line,
    exists ends,
      line = stored_line line ++ ends /\
      forallb is_eol ends = true /\
      (stored_line line = [] \/ is_eol (last (stored_line line) 0) = false).
Proof.
  intros line. unfold stored_line.
  destruct (strip_eol_spec (length line) line (Z.of_nat (length line))
              ltac:(lia) ltac:(lia)) as (Hm & Hs & Hlast).
  cbv zeta in Hm, Hs, Hlast.
  set (m := strip_eol (length line) line (Z.of_nat (length line))) in *.
  rewrite Nat2Z.id, firstn_all in Hs.
  exists (skipn (Z.to_nat m) line).
  split; [now rewrite firstn_skipn|]. split; [exact Hs|].
  destruct (Z.eq_dec m 0) as [H0|H0].
  - left. rewrite H0. reflexivity.
  - right. specialize (Hlast ltac:(lia)).
    replace (Z.to_nat m) with (S (Z.to_nat (m - 1))) by lia.
    assert (Hlt : (Z.to_nat (m - 1) < length line)%nat) by lia.
    rewrite <- Hlast. revert Hlt. generalize (Z.to_nat (m - 1)) as k. clear.
    induction line as [|c l IHl]; intros k Hk; [cbn in Hk; lia|].
    destruct k.
    + reflexivity.
    + cbn [nth]. rewrite <- IHl by (cbn in Hk; lia).
      cbn [firstn]. destruct l; [cbn in Hk; lia|reflexivity].
Qed.

(** The rows of a buffer written out as a file: each row followed by a
    newline. *)
Definition unlines (ls : list (list Z)) : list Z :=
  concat (map (fun s => s ++ [NEWLINE]) ls).

(** [content] with a newline after its last line, when it has none. *)
Definition terminated (content : list Z) : list Z :=
  match content with
  | [] => []
  | _ => if last content 0 =? NEWLINE then content
         else content ++ [NEWLINE]
  end.

Lemma strip_eol_cons c l fuel : forall n,
  is_eol c = false -> 0 <= n <= Z.of_nat fuel ->
  strip_eol (S fuel) (c :: l) (n + 1) = strip_eol fuel l n + 1.
Proof.
  induction fuel as [|fuel IH]; intros n Hc Hn.
  - assert (n = 0) by lia. subst n. cbn [strip_eol Z.add].
    change (Z.to_nat (1 - 1)) with 0%nat. cbn [nth].
    fold (is_eol c). rewrite Hc. reflexivity.
  - destruct (Z.eq_dec n 0) as [->|Hn0].
    + cbn [strip_eol Z.add Z.gtb Z.compare andb].
      change (Z.to_nat (1 - 1)) with 0%nat. cbn [nth].
      fold (is_eol c). rewrite Hc. reflexivity.
    + change (strip_eol (S (S fuel)) (c :: l) (n + 1))
        with (if (n + 1 >? 0) &&
                 ((nth (Z.to_nat (n + 1 - 1)) (c :: l) 0 =? NEWLINE) ||
                  (nth (Z.to_nat (n + 1 - 1)) (c :: l) 0 =? CR))
              then strip_eol (S fuel) (c :: l) (n + 1 - 1)
              else n + 1).
      change (strip_eol (S fuel) l n)
        with (if (n >? 0) &&
                 ((nth (Z.to_nat (n - 1)) l 0 =? NEWLINE) ||
                  (nth (Z.to_nat (n - 1)) l 0 =? CR))
              then strip_eol fuel l (n - 1)
              else n).
      replace (Z.to_nat (n + 1 - 1)) with (S (Z.to_nat (n - 1))) by lia.
      cbn [nth].
      destruct (Z.gtb_spec (n + 1) 0); [|lia].
      destruct (Z.gtb_spec n 0); [|lia]. cbn [andb].
      destruct ((nth (Z.to_nat (n - 1)) l 0 =? NEWLINE) ||
                (nth (Z.to_nat (n - 1)) l 0 =? CR)); [|reflexivity].
      replace (n + 1 - 1) with (n - 1 + 1) by lia.
      apply IH; [exact Hc|lia].
Qed.

Lemma stored_line_cons c l :
  is_eol c = false -> stored_line (c :: l) = c :: stored_line l.
Proof.
  intros Hc. unfold stored_line. cbn [length].
  replace (Z.of_nat (S (length l))) with (Z.of_nat (length l) + 1) by lia.
  rewrite strip_eol_cons by (try exact Hc; lia).
  destruct (strip_eol_spec (length l) l (Z.of_nat (length l))
              ltac:(lia) ltac:(lia)) as (Hm & _).
  cbv zeta in Hm.
  replace (Z.to_nat (strip_eol (length l) l (Z.of_nat (length l)) + 1))
    with (S (Z.to_nat (strip_eol (length l) l (Z.of_nat (length l)))))
    by lia.
  reflexivity.
Qed.

Lemma getlines_nil content : getlines content = [] -> content = [].
Proof.
  destruct content as [|c rest]; [reflexivity|]. cbn [getlines].
  destruct (c =? NEWLINE); [discriminate|].
  destruct (getlines rest); discriminate.
Qed.

Lemma terminated_cons c rest :
  rest <> [] -> terminated (c :: rest) = c :: terminated rest.
Proof.
  intros Hr. destruct rest as [|d rest]; [contradiction|].
  unfold terminated.
  change (last (c :: d :: rest) 0) with (last (d :: rest) 0).
  destruct (last (d :: rest) 0 =? NEWLINE); reflexivity.
Qed.

Lemma unlines_stored_getlines content :
  Forall (fun c => c <> CR) content ->
  unlines (map stored_line (getlines content)) = terminated content.
Proof.
  induction content as [|c rest IH]; intros Hcr; [reflexivity|].
  inversion Hcr as [|c' r' Hc Hrest]; subst.
  specialize (IH Hrest). cbn [getlines].
  destruct (Z.eqb_spec c NEWLINE) as [->|Hnl].
  - cbn [map]. unfold unlines in *. cbn [map concat].
    change (stored_line [NEWLINE]) with (@nil Z). cbn [app].
    rewrite IH. destruct rest as [|d rest]; [reflexivity|].
    rewrite (terminated_cons NEWLINE (d :: rest)) by discriminate.
    reflexivity.
  - assert (He : is_eol c = false).
    { unfold is_eol. destruct (Z.eqb_spec c NEWLINE); [contradiction|].
      destruct (Z.eqb_spec c CR); [contradiction|]. reflexivity. }
    destruct (getlines rest) as [|l ls] eqn:Hg.
    + apply getlines_nil in Hg. subst rest.
      cbn [map]. rewrite (stored_line_cons c []) by exact He.
      change (stored_line []) with (@nil Z).
      unfold unlines, terminated. cbn [map concat app last].
      destruct (Z.eqb_spec c NEWLINE); [contradiction|]. reflexivity.
    + assert (Hne : rest <> []) by (intros ->; discriminate).
      rewrite terminated_cons by exact Hne. rewrite <- IH.
      cbn [map]. rewrite stored_line_cons by exact He.
      unfold unlines. cbn [map concat app]. reflexivity.
Qed.

Lemma chars_new_row s : chars (new_row s) = s.
Proof.
  unfold new_row, editorUpdateRow. cbn [size chars].
  destruct (render_loop _ _ _). reflexivity.
Qed.

Lemma editorOpen_chars lines : forall E,
  map chars (row (fold_left (fun E0 s => editorAppendRow s E0) lines E)) =
  map chars (row E) ++ lines.
Proof.
  induction lines as [|s lines IH]; intros E; cbn [fold_left].
  - now rewrite app_nil_r.
  - rewrite IH. unfold editorAppendRow. state_cbn.
    rewrite map_app. cbn [map]. rewrite chars_new_row, <- app_assoc.
    reflexivity.
Qed.

(** X14. Loading a file keeps its text.  From an empty buffer,
    [editorOpen] on a file without carriage returns gives rows whose
    bytes, written out one row after the other with a newline after each,
    are the file again, with a newline after the last line when the file
    had none: no line is lost, split, merged or reordered, and empty
    lines are kept. *)
Theorem open_keeps_the_text :
  forall fname content E,
    row E = [] ->
    Forall (fun c => c <> CR) content ->
    unlines (map chars (row (editorOpen_content fname content E))) =
    terminated content.
Proof.
  intros fname content E Hrow Hcr.
  unfold editorOpen_content, editorOpen.
  rewrite editorOpen_chars. state_cbn. rewrite Hrow. cbn [map app].
  apply unlines_stored_getlines. exact Hcr.
Qed.

Lemma open_keeps_the_text_witness :
  unlines (map chars (row (editorOpen_content (bytes "f")
                             (bytes "ab" ++ [NEWLINE; NEWLINE] ++ bytes "c")
                             (initEditor 24 80)))) =
  bytes "ab" ++ [NEWLINE; NEWLINE] ++ bytes "c" ++ [NEWLINE].
Proof.
  apply (open_keeps_the_text (bytes "f")
           (bytes "ab" ++ [NEWLINE; NEWLINE] ++ bytes "c")
           (initEditor 24 80)).
  - reflexivity.
  - repeat constructor; discriminate.
Defined.

(** * The frame *)

(** ** Formatting *)

Definition NI_VERSION : list Z := bytes "0.0.1".

(** The decimal digits of [n >= 0] in front of [acc]; an [int] has at most
    ten. *)
Fixpoint digits (fuel : nat) (n : Z) (acc : list Z) : list Z :=
  match fuel with
  | O => acc
  | S fuel' =>
      let acc' := (chr "0" + n mod 10) :: acc in
      if n / 10 =? 0 then acc' else digits fuel' (n / 10) acc'
  end.

(** [%d] of an [int]. *)
Definition fmt_d (z : Z) : list Z :=
  if z <? 0 then chr "-" :: digits 10 (- z) [] else digits 10 z [].

(** [%.20s] of a C string. *)
Definition fmt_s20 (s : list Z) : list Z := firstn 20 (c_string s).

(** The array [snprintf(buf, size, ...)] leaves for the formatted [text]:
    its first [size - 1] bytes and a NUL.  The call returns the length of
    [text]. *)
Definition snprintf_buf (size : nat) (text : list Z) : list Z :=
  firstn (size - 1) text ++ [0].

Definition strlen (mem : list Z) : Z := Z.of_nat (length (c_string mem)).

(** ** The text rows *)

Definition welcome_text : list Z :=
  bytes "Ni editor -- version " ++ NI_VERSION.

(** One round of the [for] loop of [editorDrawRows], for screen line [y].
    [abAppend] copies with [memcpy]: a negative length, or a row index or
    column offset below zero, is outside of what the lists stand for. *)
Definition draw_row (y : Z) (E : editorConfig) (ab : abuf) : abuf :=
  let filerow := Int.add y (rowoff E) in
  let ab :=
    if filerow >=? numrows E then
      if (numrows E =? 0) && (y =? Z.quot (screenrows E) 3) then
        let welcome := snprintf_buf 80 welcome_text in
        let welcomelen := Z.of_nat (length welcome_text) in
        let welcomelen :=
          if welcomelen >? screencols E then screencols E
          else welcomelen in
        let padding := Z.quot (Int.sub (screencols E) welcomelen) 2 in
        let ab := if padding =? 0 then ab else abAppend ab (bytes "~") 1 in
        let padding := if padding =? 0 then padding
                       else Int.sub padding 1 in
        let ab :=
          Nat.iter (Z.to_nat (padding mod 4294967296))
            (fun ab' => abAppend ab' (bytes " ") 1) ab in
        abAppend ab welcome welcomelen
      else abAppend ab (bytes "~") 1
    else
      let len := Int.sub (rsize (row_at E filerow)) (coloff E) in
      let len := if len <? 0 then 0 else len in
      let len := if len >? screencols E then screencols E else len in
      abAppend ab (skipn (Z.to_nat (coloff E)) (render (row_at E filerow)))
        len in
  let ab := abAppend ab (ESC :: bytes "[K") 3 in
  abAppend ab [CR; NEWLINE] 2.

(** [for (y = 0; y < E.screenrows; y++)]: [screenrows] rounds. *)
Fixpoint draw_rows_loop (fuel : nat) (y : Z) (E : editorConfig) (ab : abuf)
  : abuf :=
  match fuel with
  | O => ab
  | S fuel' =>
      if y <? screenrows E
      then draw_rows_loop fuel' (Int.add y 1) E (draw_row y E ab)
      else ab
  end.

Definition editorDrawRows (E : editorConfig) (ab : abuf) : abuf :=
  draw_rows_loop (Z.to_nat (screenrows E)) 0 E ab.

(** ** The status bar and the message bar *)

Definition editorGetMode (E : editorConfig) : list Z :=
  match mode E with
  | INSERT_MODE => bytes "INSERT"
  | NORMAL_MODE => bytes "NORMAL"
  | COMMAND_MODE => bytes "COMMAND"
  end.

(** The loop that both bars end with:
    [while (len < E.screencols) { if (E.screencols - len == rlen)
       { abAppend(ab, rstatus, rlen); break; }
     else { abAppend(ab, " ", 1); ++len; } }]. *)
Fixpoint align_right (fuel : nat) (cols len : Z) (rstatus : list Z)
    (rlen : Z) (ab : abuf) : abuf :=
  match fuel with
  | O => ab
  | S fuel' =>
      if len <? cols then
        if Int.sub cols len =? rlen then abAppend ab rstatus rlen
        else align_right fuel' cols (Int.add len 1) rstatus rlen
               (abAppend ab (bytes " ") 1)
      else ab
  end.

(** The text of [status]. *)
Definition status_text (E : editorConfig) : list Z :=
  bytes " " ++ fmt_s20 (editorGetMode E) ++ bytes " | " ++
  fmt_s20 (match filename E with
           | Some f => f
           | None => bytes "[No name]"
           end) ++
  bytes " | " ++ fmt_d (numrows E) ++ bytes " lines".

(** The text of [rstatus]. *)
Definition rstatus_text (E : editorConfig) : list Z :=
  fmt_d (Int.add (cy E) 1) ++ bytes ":" ++ fmt_d (Int.add (cx E) 1) ++
  bytes " ".

Definition editorDrawStatusBar (E : editorConfig) (ab : abuf) : abuf :=
  let ab := abAppend ab (ESC :: bytes "[7m") 4 in
  let status := snprintf_buf 80 (status_text E) in
  let rstatus := snprintf_buf 80 (rstatus_text E) in
  let len := Z.of_nat (length (status_text E)) in
  let rlen := Z.of_nat (length (rstatus_text E)) in
  let len := if len >? screencols E then screencols E else len in
  let ab := abAppend ab status len in
  let ab :=
    align_right (Z.to_nat (screencols E - len)) (screencols E) len
      rstatus rlen ab in
  let ab := abAppend ab (ESC :: bytes "[m") 3 in
  abAppend ab [CR; NEWLINE] 2.

(** The text of [rstatusmsg]. *)
Definition count_text (E : editorConfig) : list Z :=
  fmt_d (cmdrep E) ++ bytes " ".

(** [beyond] stands for the bytes of the stack behind the ten of
    [rstatusmsg]. *)
Definition editorDrawMessageBar (beyond : list Z) (E : editorConfig)
    (ab : abuf) : abuf :=
  let ab := abAppend ab (ESC :: bytes "[K") 3 in
  let msglen := strlen (statusmsg E ++ [0]) in
  let msglen := if msglen >? screencols E then screencols E else msglen in
  let ab := abAppend ab (statusmsg E ++ [0]) msglen in
  if cmdrep E =? 0 then ab
  else
    let rstatusmsg := snprintf_buf 10 (count_text E) ++ beyond in
    let rlen := Z.of_nat (length (count_text E)) in
    align_right (Z.to_nat (screencols E - msglen)) (screencols E) msglen
      rstatusmsg rlen ab.

(** ** The whole frame *)

(** The text of the cursor escape. *)
Definition cursor_text (E : editorConfig) : list Z :=
  (ESC :: bytes "[") ++ fmt_d (Int.sub (Int.add (cy E) 1) (rowoff E)) ++
  bytes ";" ++ fmt_d (Int.sub (Int.add (rx E) 1) (coloff E)) ++ bytes "H".

(** [editorRefreshScreen] behind its call of [editorScroll]: the bytes
    it writes to the terminal. *)
Definition compose_frame (beyond : list Z) (E : editorConfig) : list Z :=
  let ab := ABUF_INIT in
  let ab := abAppend ab (ESC :: bytes "[?25l") 6 in
  let ab := abAppend ab (ESC :: bytes "[H") 3 in
  let ab := editorDrawRows E ab in
  let ab := editorDrawStatusBar E ab in
  let ab := editorDrawMessageBar beyond E ab in
  let buf := snprintf_buf 32 (cursor_text E) in
  let ab := abAppend ab buf (strlen buf) in
  let ab := abAppend ab (ESC :: bytes "[?25h") 6 in
  firstn (Z.to_nat (len ab)) (b ab).

(** [editorRefreshScreen]: the state after the scroll adjustment and the
    bytes written to the terminal. *)
Definition editorRefreshScreen (beyond : list Z) (E : editorConfig)
  : editorConfig * list Z :=
  (editorScroll E, compose_frame beyond (editorScroll E)).

(** ** The buffer while a frame is composed *)

(** The length in use is the length of the block. *)
Definition ab_wf (ab : abuf) : Prop := len ab = Z.of_nat (length (b ab)).

(** The block after a [realloc] that gives a block. *)
Definition grown (k : block) : block :=
  if in_order k then Allocated else Misused.

(** [ab] with the bytes [bs] appended. *)
Definition ab_push (ab : abuf) (bs : list Z) : abuf :=
  {| b := b ab ++ bs; len := len ab + Z.of_nat (length bs);
     blk := grown (blk ab) |}.

(** A buffer that has gone through [realloc]. *)
Definition touched (ab : abuf) : Prop := grown (blk ab) = blk ab.

Lemma grown_grown k : grown (grown k) = grown k.
Proof. destruct k; reflexivity. Qed.

Lemma ab_push_touched ab bs : touched (ab_push ab bs).
Proof. unfold touched, ab_push. cbn [blk]. apply grown_grown. Qed.

Lemma ab_push_wf ab bs : ab_wf ab -> ab_wf (ab_push ab bs).
Proof.
  unfold ab_wf, ab_push. cbn [b len]. intros ->.
  rewrite length_app. lia.
Qed.

Lemma ab_push_push ab xs ys :
  ab_push (ab_push ab xs) ys = ab_push ab (xs ++ ys).
Proof.
  unfold ab_push. cbn [b len blk].
  rewrite <- app_assoc, length_app, grown_grown.
  f_equal. lia.
Qed.

Lemma ab_push_nil ab : touched ab -> ab_push ab [] = ab.
Proof.
  destruct ab as [bb l k]. unfold touched, ab_push. cbn [b len blk length].
  intros ->. rewrite app_nil_r. f_equal. lia.
Qed.

Lemma abAppend_push ab s n :
  ab_wf ab -> 0 <= len ab ->
  0 <= n <= Z.of_nat (length s) -> len ab + n <= Int.INT_MAX ->
  abAppend ab s n = ab_push ab (firstn (Z.to_nat n) s).
Proof.
  unfold ab_wf, abAppend, ab_push, grown. intros Hw H0 Hn Hfit. cbv zeta.
  rewrite IntFacts.add_id by (int_range; lia).
  destruct (Z.ltb_spec (len ab + n) 0); [lia|].
  destruct (Z.leb_spec 0 (len ab)); [|lia].
  destruct (Z.leb_spec 0 n); [|lia].
  cbn [andb]. rewrite !andb_true_r.
  rewrite Hw at 1. rewrite Nat2Z.id, firstn_all.
  rewrite length_firstn. f_equal. lia.
Qed.

(** The whole of a literal. *)
Lemma abAppend_all ab s n :
  n = Z.of_nat (length s) ->
  ab_wf ab -> 0 <= len ab ->
  len ab + n <= Int.INT_MAX ->
  abAppend ab s n = ab_push ab s.
Proof.
  intros -> Hw H0 Hfit. rewrite abAppend_push by (try assumption; lia).
  now rewrite Nat2Z.id, firstn_all.
Qed.

Lemma ab_push_len ab bs : len (ab_push ab bs) = len ab + Z.of_nat (length bs).
Proof. reflexivity. Qed.

Lemma ab_push_b ab bs : b (ab_push ab bs) = b ab ++ bs.
Proof. reflexivity. Qed.

(** [n] spaces, one [abAppend] each. *)
Lemma iter_spaces n : forall ab,
  ab_wf ab -> 0 <= len ab -> touched ab ->
  len ab + Z.of_nat n <= Int.INT_MAX ->
  Nat.iter n (fun ab' => abAppend ab' (bytes " ") 1) ab =
  ab_push ab (repeat (chr " ") n).
Proof.
  induction n as [|n IH]; intros ab Hw H0 Ht Hfit.
  - cbn. now rewrite ab_push_nil.
  - rewrite Nat.iter_succ, IH by (try assumption; lia).
    rewrite (abAppend_all _ (bytes " ") 1)
      by (try reflexivity; try apply ab_push_wf; try assumption;
          rewrite ?ab_push_len, ?repeat_length; lia).
    rewrite ab_push_push. f_equal.
    change (bytes " ") with [chr " "].
    clear. induction n as [|n IHn]; [reflexivity|].
    cbn [repeat app]. now rewrite IHn.
Qed.

(** ** Facts about the formats *)

Lemma digits_length fuel : forall n acc,
  (length acc <= length (digits fuel n acc) <= fuel + length acc)%nat.
Proof.
  induction fuel as [|fuel IH]; intros n acc; cbn [digits]; [lia|].
  destruct (n / 10 =? 0); cbn [length]; [lia|].
  specialize (IH (n / 10) ((chr "0" + n mod 10) :: acc)).
  cbn [length] in IH. lia.
Qed.

Lemma digits_length_pos fuel n acc :
  (0 < fuel)%nat -> (length acc < length (digits fuel n acc))%nat.
Proof.
  destruct fuel as [|fuel]; [lia|]. intros _. cbn [digits].
  destruct (n / 10 =? 0); cbn [length]; [lia|].
  pose proof (digits_length fuel (n / 10) ((chr "0" + n mod 10) :: acc))
    as H. cbn [length] in H. lia.
Qed.

(** A number below [10^k] has at most [k] digits. *)
Lemma digits_length_pow fuel : forall k n acc,
  (1 <= k)%nat -> 0 <= n < 10 ^ Z.of_nat k ->
  (length (digits fuel n acc) <= k + length acc)%nat.
Proof.
  induction fuel as [|fuel IH]; intros k n acc Hk Hn; cbn [digits]; [lia|].
  destruct (Z.eqb_spec (n / 10) 0) as [Hq|Hq]; cbn [length]; [lia|].
  destruct k as [|[|k]]; [lia| |].
  - change (10 ^ Z.of_nat 1) with 10 in Hn.
    exfalso. apply Hq. apply Z.div_small. lia.
  - assert (Hn' : 0 <= n / 10 < 10 ^ Z.of_nat (S k)).
    { replace (Z.of_nat (S (S k))) with (Z.of_nat (S k) + 1) in Hn by lia.
      rewrite Z.pow_add_r in Hn by lia. change (10 ^ 1) with 10 in Hn.
      split; [apply Z.div_pos; lia|].
      apply Z.div_lt_upper_bound; lia. }
    specialize (IH (S k) (n / 10) ((chr "0" + n mod 10) :: acc)
                  ltac:(lia) Hn').
    cbn [length] in IH. lia.
Qed.

Definition no_nul (l : list Z) : Prop :=
  forallb (fun x => negb (x =? 0)) l = true.

Lemma no_nul_app l m : no_nul l -> no_nul m -> no_nul (l ++ m).
Proof.
  unfold no_nul. intros Hl Hm. now rewrite forallb_app, Hl, Hm.
Qed.

Lemma digits_no_nul fuel : forall n acc,
  no_nul acc -> no_nul (digits fuel n acc).
Proof.
  induction fuel as [|fuel IH]; intros n acc Ha; cbn [digits]; [exact Ha|].
  assert (Hd : no_nul ((chr "0" + n mod 10) :: acc)).
  { unfold no_nul in *. cbn [forallb]. rewrite Ha.
    change (chr "0") with 48.
    pose proof (Z.mod_pos_bound n 10 ltac:(lia)).
    destruct (Z.eqb_spec (48 + n mod 10) 0); [lia|reflexivity]. }
  destruct (n / 10 =? 0); [exact Hd|]. apply IH. exact Hd.
Qed.

Lemma fmt_d_length z : (1 <= length (fmt_d z) <= 11)%nat.
Proof.
  unfold fmt_d. destruct (z <? 0); cbn [length].
  - pose proof (digits_length 10 (- z) []) as H. cbn [length] in H. lia.
  - pose proof (digits_length 10 z []) as H.
    pose proof (digits_length_pos 10 z [] ltac:(lia)) as Hp.
    cbn [length] in H, Hp. lia.
Qed.

Lemma fmt_d_no_nul z : no_nul (fmt_d z).
Proof.
  unfold fmt_d. destruct (z <? 0).
  - change (chr "-" :: digits 10 (- z) [])
      with ([chr "-"] ++ digits 10 (- z) []).
    apply no_nul_app; [reflexivity|]. now apply digits_no_nul.
  - now apply digits_no_nul.
Qed.

Lemma fmt_d_length_pow k z :
  (1 <= k)%nat -> 0 <= z < 10 ^ Z.of_nat k -> (length (fmt_d z) <= k)%nat.
Proof.
  intros Hk Hz. unfold fmt_d. destruct (Z.ltb_spec z 0) as [Hneg|_]; [lia|].
  pose proof (digits_length_pow 10 k z [] Hk Hz) as Hd.
  cbn [length] in Hd. lia.
Qed.

Lemma c_string_no_nul l : no_nul l -> c_string (l ++ [0]) = l.
Proof.
  intros H. unfold no_nul in H. rewrite c_string_app by exact H.
  cbn. now rewrite app_nil_r.
Qed.

Lemma c_string_nul l : c_string (l ++ [0]) = c_string l.
Proof.
  induction l as [|c l IH]; [reflexivity|]. cbn [app c_string].
  destruct (c =? 0); [reflexivity|]. now rewrite IH.
Qed.

Lemma c_string_firstn l : forall n,
  (n <= length (c_string l))%nat -> firstn n l = firstn n (c_string l).
Proof.
  induction l as [|c l IH]; intros n Hn; [reflexivity|].
  cbn [c_string] in *. destruct (c =? 0).
  - cbn [length] in Hn. assert (n = 0)%nat by lia. subst. reflexivity.
  - destruct n; [reflexivity|]. cbn [firstn length] in *.
    f_equal. apply IH. lia.
Qed.

Lemma firstn_app_le {A} (l m : list A) n :
  (n <= length l)%nat -> firstn n (l ++ m) = firstn n l.
Proof.
  intros H. rewrite firstn_app.
  replace (n - length l)%nat with 0%nat by lia.
  cbn [firstn]. now rewrite app_nil_r.
Qed.

(** ** What the text rows show *)

(** The welcome line of a window [cols] wide: the banner, cut to the
    window, behind a tilde and the spaces that centre it. *)
Definition welcome_line (cols : Z) : list Z :=
  let wl := Z.min (Z.of_nat (length welcome_text)) cols in
  let padding := (cols - wl) / 2 in
  (if padding =? 0 then []
   else chr "~" :: repeat (chr " ") (Z.to_nat (padding - 1))) ++
  firstn (Z.to_nat wl) welcome_text.

(** The text of screen line [y]: the window's slice of the render of row
    [y + rowoff], and behind the last row a tilde, or the welcome line
    of an empty buffer. *)
Definition row_text (E : editorConfig) (y : Z) : list Z :=
  if y + rowoff E <? numrows E then
    firstn (Z.to_nat (screencols E))
      (skipn (Z.to_nat (coloff E)) (render (row_at E (y + rowoff E))))
  else if (numrows E =? 0) && (y =? screenrows E / 3)
       then welcome_line (screencols E)
       else bytes "~".

Definition screen_line (E : editorConfig) (y : Z) : list Z :=
  row_text E y ++ (ESC :: bytes "[K") ++ [CR; NEWLINE].

(** Every row has the render its [rsize] counts. *)
Definition rows_rendered (E : editorConfig) : Prop :=
  numrows E = Z.of_nat (length (row E)) /\
  Forall (fun r => rsize r = Z.of_nat (length (render r)) /\
                   rsize r <= Int.INT_MAX) (row E).

(** A window with a text column, and offsets within the [int]s. *)
Definition window_ok (E : editorConfig) : Prop :=
  0 <= screenrows E /\ 1 <= screencols E <= Int.INT_MAX /\
  0 <= rowoff E /\ rowoff E + screenrows E <= Int.INT_MAX /\
  0 <= coloff E <= Int.INT_MAX.

Lemma welcome_text_length : length welcome_text = 26%nat.
Proof. reflexivity. Qed.

Lemma welcome_buf : snprintf_buf 80 welcome_text = welcome_text ++ [0].
Proof. reflexivity. Qed.

Lemma welcome_line_width cols :
  1 <= cols -> Z.of_nat (length (welcome_line cols)) <= cols.
Proof.
  intros Hc. unfold welcome_line. rewrite welcome_text_length.
  cbv zeta. set (wl := Z.min (Z.of_nat 26) cols).
  assert (Hwl : 0 <= wl <= cols /\ wl <= 26) by (subst wl; lia).
  rewrite length_app, length_firstn, welcome_text_length.
  assert (Hp : 0 <= (cols - wl) / 2 /\ 2 * ((cols - wl) / 2) <= cols - wl).
  { split; [apply Z.div_pos; lia|]. apply Z.mul_div_le. lia. }
  destruct (Z.eqb_spec ((cols - wl) / 2) 0); cbn [length].
  - lia.
  - rewrite repeat_length. lia.
Qed.

Lemma row_text_width E y :
  1 <= screencols E -> Z.of_nat (length (row_text E y)) <= screencols E.
Proof.
  intros Hc. unfold row_text.
  destruct (y + rowoff E <? numrows E).
  - rewrite length_firstn. lia.
  - destruct ((numrows E =? 0) && (y =? screenrows E / 3)).
    + now apply welcome_line_width.
    + cbn. lia.
Qed.

Lemma row_at_rendered E y :
  rows_rendered E -> 0 <= y < numrows E ->
  rsize (row_at E y) = Z.of_nat (length (render (row_at E y))) /\
  rsize (row_at E y) <= Int.INT_MAX.
Proof.
  intros (Hn & HF) Hy. rewrite Forall_forall in HF.
  apply HF. unfold row_at. apply nth_In. lia.
Qed.

(** The text part of one round. *)
Definition draw_text (y : Z) (E : editorConfig) (ab : abuf) : abuf :=
  let filerow := Int.add y (rowoff E) in
  if filerow >=? numrows E then
    if (numrows E =? 0) && (y =? Z.quot (screenrows E) 3) then
      let welcome := snprintf_buf 80 welcome_text in
      let welcomelen := Z.of_nat (length welcome_text) in
      let welcomelen :=
        if welcomelen >? screencols E then screencols E
        else welcomelen in
      let padding := Z.quot (Int.sub (screencols E) welcomelen) 2 in
      let ab := if padding =? 0 then ab else abAppend ab (bytes "~") 1 in
      let padding := if padding =? 0 then padding
                     else Int.sub padding 1 in
      let ab :=
        Nat.iter (Z.to_nat (padding mod 4294967296))
          (fun ab' => abAppend ab' (bytes " ") 1) ab in
      abAppend ab welcome welcomelen
    else abAppend ab (bytes "~") 1
  else
    let len := Int.sub (rsize (row_at E filerow)) (coloff E) in
    let len := if len <? 0 then 0 else len in
    let len := if len >? screencols E then screencols E else len in
    abAppend ab (skipn (Z.to_nat (coloff E)) (render (row_at E filerow)))
      len.

Lemma draw_row_text y E ab :
  draw_row y E ab =
  abAppend (abAppend (draw_text y E ab) (ESC :: bytes "[K") 3)
    [CR; NEWLINE] 2.
Proof. reflexivity. Qed.

Lemma draw_welcome_push E ab :
  ab_wf ab -> 0 <= len ab -> 1 <= screencols E <= Int.INT_MAX ->
  len ab + screencols E <= Int.INT_MAX ->
  (let welcome := snprintf_buf 80 welcome_text in
   let welcomelen := Z.of_nat (length welcome_text) in
   let welcomelen :=
     if welcomelen >? screencols E then screencols E else welcomelen in
   let padding := Z.quot (Int.sub (screencols E) welcomelen) 2 in
   let ab1 := if padding =? 0 then ab else abAppend ab (bytes "~") 1 in
   let padding := if padding =? 0 then padding else Int.sub padding 1 in
   let ab2 :=
     Nat.iter (Z.to_nat (padding mod 4294967296))
       (fun ab' => abAppend ab' (bytes " ") 1) ab1 in
   abAppend ab2 welcome welcomelen) =
  ab_push ab (welcome_line (screencols E)).
Proof.
  intros Hw H0 Hc Hfit. cbv zeta.
  rewrite welcome_buf, welcome_text_length. unfold welcome_line.
  rewrite welcome_text_length. cbv zeta.
  set (cols := screencols E) in *.
  assert (Hwl : (if Z.of_nat 26 >? cols then cols else Z.of_nat 26) =
                Z.min (Z.of_nat 26) cols).
  { destruct (Z.gtb_spec (Z.of_nat 26) cols); lia. }
  rewrite Hwl. set (wl := Z.min (Z.of_nat 26) cols).
  assert (Hwb : 0 <= wl <= cols /\ wl <= 26) by (subst wl; lia).
  rewrite IntFacts.sub_id by (int_range; lia).
  rewrite Z.quot_div_nonneg by lia.
  set (p := (cols - wl) / 2).
  assert (Hp : 0 <= p /\ 2 * p <= cols - wl).
  { subst p. split; [apply Z.div_pos; lia|]. apply Z.mul_div_le. lia. }
  assert (Hfirst : firstn (Z.to_nat wl) (welcome_text ++ [0]) =
                   firstn (Z.to_nat wl) welcome_text).
  { apply firstn_app_le. rewrite welcome_text_length. lia. }
  destruct (Z.eqb_spec p 0) as [Hp0|Hp0].
  - rewrite Hp0.
    change (Nat.iter (Z.to_nat (0 mod 4294967296))
              (fun ab' => abAppend ab' (bytes " ") 1) ab) with ab.
    cbn [app].
    rewrite abAppend_push
      by (try assumption; rewrite ?length_app, ?welcome_text_length;
          cbn [length]; lia).
    now rewrite Hfirst.
  - rewrite IntFacts.sub_id by (int_range; lia).
    rewrite Z.mod_small by (int_range; lia).
    rewrite (abAppend_all ab (bytes "~") 1)
      by (try reflexivity; try assumption; lia).
    rewrite iter_spaces
      by (try apply ab_push_wf; try apply ab_push_touched;
          try assumption; rewrite ?ab_push_len; cbn [bytes length]; lia).
    rewrite ab_push_push.
    rewrite abAppend_push.
    + rewrite ab_push_push, Hfirst. f_equal.
    + now apply ab_push_wf.
    + rewrite ab_push_len. lia.
    + rewrite length_app, welcome_text_length. cbn [length]. lia.
    + rewrite ab_push_len, length_app, repeat_length.
      cbn [bytes length]. lia.
Qed.

Lemma draw_text_push y E ab :
  ab_wf ab -> 0 <= len ab -> rows_rendered E -> window_ok E ->
  0 <= y < screenrows E ->
  len ab + screencols E <= Int.INT_MAX ->
  draw_text y E ab = ab_push ab (row_text E y).
Proof.
  intros Hw H0 Hr (Hsr & Hsc & Hro & Hfit & Hco) Hy Hroom.
  unfold draw_text, row_text. cbv zeta.
  rewrite IntFacts.add_id by (int_range; lia).
  rewrite Z.quot_div_nonneg by lia.
  destruct (Z.geb_spec (y + rowoff E) (numrows E)) as [Hge|Hlt];
    destruct (Z.ltb_spec (y + rowoff E) (numrows E)); try lia.
  - destruct ((numrows E =? 0) && (y =? screenrows E / 3)).
    + apply draw_welcome_push; assumption.
    + apply (abAppend_all ab (bytes "~") 1);
        try reflexivity; try assumption; lia.
  - destruct (row_at_rendered E (y + rowoff E) Hr ltac:(lia))
      as (Hrs & Hmax).
    set (r := row_at E (y + rowoff E)) in *.
    rewrite IntFacts.sub_id by (int_range; lia).
    set (l0 := if rsize r - coloff E <? 0 then 0 else rsize r - coloff E).
    assert (Hl0 : l0 = Z.max 0 (rsize r - coloff E)).
    { subst l0. destruct (Z.ltb_spec (rsize r - coloff E) 0); lia. }
    set (l1 := if l0 >? screencols E then screencols E else l0).
    assert (Hl1 : l1 = Z.min l0 (screencols E)).
    { subst l1. destruct (Z.gtb_spec l0 (screencols E)); lia. }
    assert (Hsk : Z.of_nat (length (skipn (Z.to_nat (coloff E)) (render r)))
                  = l0).
    { rewrite length_skipn. lia. }
    rewrite abAppend_push by (try assumption; lia).
    f_equal.
    destruct (Z.le_gt_cases (screencols E) l0).
    + f_equal. lia.
    + rewrite !firstn_all2 by lia. reflexivity.
Qed.

Lemma draw_row_push y E ab :
  ab_wf ab -> 0 <= len ab -> rows_rendered E -> window_ok E ->
  0 <= y < screenrows E ->
  len ab + screencols E + 5 <= Int.INT_MAX ->
  draw_row y E ab = ab_push ab (screen_line E y).
Proof.
  intros Hw H0 Hr Hwin Hy Hroom.
  pose proof (row_text_width E y ltac:(destruct Hwin; lia)) as Hwd.
  rewrite draw_row_text, draw_text_push by (try assumption; lia).
  rewrite (abAppend_all _ (ESC :: bytes "[K") 3)
    by (try reflexivity; try apply ab_push_wf; try assumption;
        rewrite ?ab_push_len; lia).
  rewrite (abAppend_all _ [CR; NEWLINE] 2)
    by (try reflexivity; repeat apply ab_push_wf; try assumption;
        rewrite ?ab_push_len; cbn [bytes length]; lia).
  rewrite !ab_push_push. reflexivity.
Qed.

Lemma screen_line_length E y :
  1 <= screencols E ->
  Z.of_nat (length (screen_line E y)) <= screencols E + 5.
Proof.
  intros Hc. pose proof (row_text_width E y Hc) as Hwd.
  unfold screen_line. rewrite length_app. cbn [bytes length app]. lia.
Qed.

(** The lines of the text area, top to bottom. *)
Definition screen_lines (E : editorConfig) (from count : nat) : list Z :=
  concat (map (fun k => screen_line E (Z.of_nat k)) (seq from count)).

Lemma screen_lines_length E count : forall from,
  1 <= screencols E ->
  Z.of_nat (length (screen_lines E from count))
    <= Z.of_nat count * (screencols E + 5).
Proof.
  unfold screen_lines.
  induction count as [|count IH]; intros from Hc; [cbn; lia|].
  cbn [seq map concat]. rewrite length_app.
  specialize (IH (S from) Hc).
  pose proof (screen_line_length E (Z.of_nat from) Hc).
  rewrite Nat2Z.inj_succ, Z.mul_succ_l. lia.
Qed.

Lemma draw_rows_loop_push E fuel : forall k ab,
  ab_wf ab -> 0 <= len ab -> touched ab ->
  rows_rendered E -> window_ok E ->
  Z.of_nat (k + fuel) = screenrows E ->
  len ab + Z.of_nat fuel * (screencols E + 5) <= Int.INT_MAX ->
  draw_rows_loop fuel (Z.of_nat k) E ab =
  ab_push ab (screen_lines E k fuel).
Proof.
  induction fuel as [|fuel IH]; intros k ab Hw H0 Ht Hr Hwin Hk Hroom.
  - cbn [draw_rows_loop]. unfold screen_lines. cbn [seq map concat].
    now rewrite ab_push_nil.
  - cbn [draw_rows_loop].
    destruct (Z.ltb_spec (Z.of_nat k) (screenrows E)); [|lia].
    rewrite Nat2Z.inj_succ, Z.mul_succ_l in Hroom.
    assert (Hc : 1 <= screencols E) by (destruct Hwin; lia).
    pose proof (screen_line_length E (Z.of_nat k) Hc) as Hl.
    assert (Hf : 0 <= Z.of_nat fuel * (screencols E + 5)) by nia.
    rewrite draw_row_push by (try assumption; lia).
    rewrite IntFacts.add_id
      by (destruct Hwin as (? & ? & ? & ? & ?); int_range; lia).
    replace (Z.of_nat k + 1) with (Z.of_nat (S k)) by lia.
    rewrite IH.
    + rewrite ab_push_push. reflexivity.
    + now apply ab_push_wf.
    + rewrite ab_push_len. lia.
    + apply ab_push_touched.
    + exact Hr.
    + exact Hwin.
    + lia.
    + rewrite ab_push_len. lia.
Qed.

(** The loop from a buffer as it comes, when there is a line to draw. *)
Lemma draw_rows_loop_first E fuel k ab :
  ab_wf ab -> 0 <= len ab ->
  rows_rendered E -> window_ok E ->
  Z.of_nat (k + S fuel) = screenrows E ->
  len ab + Z.of_nat (S fuel) * (screencols E + 5) <= Int.INT_MAX ->
  draw_rows_loop (S fuel) (Z.of_nat k) E ab =
  ab_push ab (screen_lines E k (S fuel)).
Proof.
  intros Hw H0 Hr Hwin Hk Hroom.
  cbn [draw_rows_loop].
  destruct (Z.ltb_spec (Z.of_nat k) (screenrows E)); [|lia].
  rewrite Nat2Z.inj_succ, Z.mul_succ_l in Hroom.
  assert (Hc : 1 <= screencols E) by (destruct Hwin; lia).
  pose proof (screen_line_length E (Z.of_nat k) Hc) as Hl.
  assert (Hf : 0 <= Z.of_nat fuel * (screencols E + 5)) by nia.
  rewrite draw_row_push by (try assumption; lia).
  rewrite IntFacts.add_id
    by (destruct Hwin as (? & ? & ? & ? & ?); int_range; lia).
  replace (Z.of_nat k + 1) with (Z.of_nat (S k)) by lia.
  rewrite draw_rows_loop_push.
  - rewrite ab_push_push. reflexivity.
  - now apply ab_push_wf.
  - rewrite ab_push_len. lia.
  - apply ab_push_touched.
  - exact Hr.
  - exact Hwin.
  - lia.
  - rewrite ab_push_len. lia.
Qed.

Lemma editorDrawRows_push E ab :
  ab_wf ab -> 0 <= len ab -> touched ab \/ 1 <= screenrows E ->
  rows_rendered E -> window_ok E ->
  len ab + screenrows E * (screencols E + 5) <= Int.INT_MAX ->
  editorDrawRows E ab =
  ab_push ab (screen_lines E 0 (Z.to_nat (screenrows E))).
Proof.
  intros Hw H0 Ht Hr Hwin Hroom. unfold editorDrawRows.
  assert (Hs : 0 <= screenrows E) by (destruct Hwin; lia).
  change 0 with (Z.of_nat 0) at 1.
  destruct Ht as [Ht|Ht].
  - apply draw_rows_loop_push; try assumption;
      rewrite ?Nat.add_0_l, ?Z2Nat.id by lia; lia.
  - destruct (Z.to_nat (screenrows E)) as [|fuel] eqn:Hf; [lia|].
    apply draw_rows_loop_first; try assumption;
      rewrite ?Nat.add_0_l, <- ?Hf, ?Z2Nat.id by lia; lia.
Qed.

(** X15. The text area of the frame.  In a window with a text column
    and offsets that are not negative, over rows whose render has
    [rsize] bytes, [editorDrawRows] appends exactly [screenrows] lines
    to the buffer, each a text of at most [screencols] bytes followed by
    the clear-line escape and CR LF; the text of line [y] is the slice
    [coloff, coloff + screencols) of the render of row [y + rowoff],
    and behind the last row a tilde, or in an empty buffer the welcome
    banner on the line a third down. *)
Theorem text_area_lines :
  forall E ab,
    ab_wf ab -> 0 <= len ab -> rows_rendered E -> window_ok E ->
    len ab + screenrows E * (screencols E + 5) <= Int.INT_MAX ->
    b (editorDrawRows E ab) =
      b ab ++
      concat (map (fun k => row_text E (Z.of_nat k) ++
                            (ESC :: bytes "[K") ++ [CR; NEWLINE])
                (seq 0 (Z.to_nat (screenrows E)))) /\
    ab_wf (editorDrawRows E ab) /\
    forall y,
      Z.of_nat (length (row_text E y)) <= screencols E /\
      (0 <= y -> y + rowoff E < numrows E ->
       row_text E y =
       firstn (Z.to_nat (screencols E))
         (skipn (Z.to_nat (coloff E)) (render (row_at E (y + rowoff E)))))
      /\
      (numrows E <= y + rowoff E ->
       row_text E y =
       if (numrows E =? 0) && (y =? screenrows E / 3)
       then welcome_line (screencols E) else bytes "~").
Proof.
  intros E ab Hw H0 Hr Hwin Hroom.
  assert (Hdrawn :
    b (editorDrawRows E ab) =
      b ab ++
      concat (map (fun k => row_text E (Z.of_nat k) ++
                            (ESC :: bytes "[K") ++ [CR; NEWLINE])
                (seq 0 (Z.to_nat (screenrows E)))) /\
    ab_wf (editorDrawRows E ab)).
  { destruct (Z.le_gt_cases 1 (screenrows E)) as [Hs|Hs].
    - rewrite editorDrawRows_push by (try assumption; now right).
      split; [reflexivity|]. now apply ab_push_wf.
    - unfold editorDrawRows.
      replace (Z.to_nat (screenrows E)) with 0%nat by lia.
      cbn [draw_rows_loop seq map concat]. rewrite app_nil_r.
      split; [reflexivity|exact Hw]. }
  split; [apply Hdrawn|]. split; [apply Hdrawn|].
  intros y. split; [apply row_text_width; destruct Hwin; lia|].
  unfold row_text.
  split; intros; destruct (Z.ltb_spec (y + rowoff E) (numrows E));
    try lia; reflexivity.
Qed.

(** ** What the two bars show *)

(** What the aligning loop appends from column [len] of a line [cols]
    wide: spaces up to the place where [rstatus] ends at the right
    border, or, when that place is behind [len] already, spaces up to
    the border. *)
Definition aligned (cols len : Z) (rstatus : list Z) : list Z :=
  if Z.of_nat (length rstatus) <=? cols - len
  then repeat (chr " ") (Z.to_nat (cols - len) - length rstatus) ++ rstatus
  else repeat (chr " ") (Z.to_nat (cols - len)).

Lemma align_right_push fuel : forall cols col rstatus rlen ab,
  ab_wf ab -> 0 <= len ab -> touched ab ->
  0 <= col <= cols -> cols <= Int.INT_MAX ->
  Z.of_nat fuel = cols - col ->
  1 <= rlen <= Z.of_nat (length rstatus) ->
  len ab + (cols - col) <= Int.INT_MAX ->
  align_right fuel cols col rstatus rlen ab =
  ab_push ab (aligned cols col (firstn (Z.to_nat rlen) rstatus)).
Proof.
  induction fuel as [|fuel IH];
    intros cols col rstatus rlen ab Hw H0 Ht Hl Hc Hf Hr Hroom;
    unfold aligned; rewrite length_firstn;
    replace (Nat.min (Z.to_nat rlen) (length rstatus))
      with (Z.to_nat rlen) by lia;
    rewrite Z2Nat.id by lia.
  - cbn [align_right]. destruct (Z.leb_spec rlen (cols - col)); [lia|].
    replace (Z.to_nat (cols - col)) with 0%nat by lia.
    cbn [repeat]. now rewrite ab_push_nil.
  - cbn [align_right]. destruct (Z.ltb_spec col cols); [|lia].
    rewrite IntFacts.sub_id by (int_range; lia).
    destruct (Z.eqb_spec (cols - col) rlen) as [He|He].
    + destruct (Z.leb_spec rlen (cols - col)); [|lia].
      replace (Z.to_nat (cols - col) - Z.to_nat rlen)%nat with 0%nat by lia.
      cbn [repeat app]. apply abAppend_push; try assumption; lia.
    + rewrite (abAppend_all ab (bytes " ") 1)
        by (try reflexivity; try assumption; lia).
      rewrite IntFacts.add_id by (int_range; lia).
      rewrite IH;
        try (now apply ab_push_wf); try apply ab_push_touched;
        try (rewrite ab_push_len; cbn [bytes length]; lia);
        try lia.
      rewrite ab_push_push. f_equal. unfold aligned.
      rewrite length_firstn.
      replace (Nat.min (Z.to_nat rlen) (length rstatus))
        with (Z.to_nat rlen) by lia.
      rewrite Z2Nat.id by lia.
      change (bytes " ") with [chr " "].
      destruct (Z.leb_spec rlen (cols - col));
        destruct (Z.leb_spec rlen (cols - (col + 1))); try lia.
      * replace (Z.to_nat (cols - col) - Z.to_nat rlen)%nat
          with (S (Z.to_nat (cols - (col + 1)) - Z.to_nat rlen)) by lia.
        reflexivity.
      * replace (Z.to_nat (cols - col))
          with (S (Z.to_nat (cols - (col + 1)))) by lia.
        reflexivity.
Qed.

Lemma aligned_length cols len rstatus :
  0 <= len <= cols ->
  Z.of_nat (length (aligned cols len rstatus)) = cols - len.
Proof.
  intros Hl. unfold aligned.
  destruct (Z.leb_spec (Z.of_nat (length rstatus)) (cols - len)).
  - rewrite length_app, repeat_length. lia.
  - rewrite repeat_length. lia.
Qed.

Lemma snprintf_buf_fits size text :
  (length text < size)%nat -> snprintf_buf size text = text ++ [0].
Proof.
  intros H. unfold snprintf_buf. rewrite firstn_all2 by lia. reflexivity.
Qed.

Lemma fmt_s20_length s : (length (fmt_s20 s) <= 20)%nat.
Proof. unfold fmt_s20. rewrite length_firstn. lia. Qed.

Lemma status_text_length E : (length (status_text E) <= 64)%nat.
Proof.
  unfold status_text.
  set (name := match filename E with
               | Some f => f
               | None => bytes "[No name]"
               end).
  rewrite !length_app.
  pose proof (fmt_s20_length (editorGetMode E)).
  pose proof (fmt_s20_length name).
  pose proof (fmt_d_length (numrows E)).
  cbn [bytes length]. lia.
Qed.

Lemma rstatus_text_length E : (4 <= length (rstatus_text E) <= 24)%nat.
Proof.
  unfold rstatus_text. rewrite !length_app.
  pose proof (fmt_d_length (Int.add (cy E) 1)).
  pose proof (fmt_d_length (Int.add (cx E) 1)).
  cbn [bytes length]. lia.
Qed.

(** The status bar of a window: the status, cut to the window, and the
    position aligned to the right. *)
Definition status_bar (E : editorConfig) : list Z :=
  let s := firstn (Z.to_nat (screencols E)) (status_text E) in
  s ++ aligned (screencols E) (Z.of_nat (length s)) (rstatus_text E).

Lemma status_bar_length E :
  0 <= screencols E -> Z.of_nat (length (status_bar E)) = screencols E.
Proof.
  intros Hc. unfold status_bar. cbv zeta.
  rewrite length_app, Nat2Z.inj_add, aligned_length.
  - lia.
  - rewrite length_firstn. lia.
Qed.

Lemma editorDrawStatusBar_push E ab :
  ab_wf ab -> 0 <= len ab -> 0 <= screencols E ->
  len ab + screencols E + 9 <= Int.INT_MAX ->
  editorDrawStatusBar E ab =
  ab_push ab ((ESC :: bytes "[7m") ++ status_bar E ++
              (ESC :: bytes "[m") ++ [CR; NEWLINE]).
Proof.
  intros Hw H0 Hc Hroom.
  pose proof (status_text_length E) as Hsl.
  pose proof (rstatus_text_length E) as Hrl.
  unfold editorDrawStatusBar, status_bar. cbv zeta.
  rewrite !snprintf_buf_fits by lia.
  set (s := status_text E) in *. set (r := rstatus_text E) in *.
  set (l := if Z.of_nat (length s) >? screencols E
            then screencols E else Z.of_nat (length s)).
  assert (Hl : l = Z.of_nat (Nat.min (Z.to_nat (screencols E)) (length s))).
  { subst l.
    destruct (Z.gtb_spec (Z.of_nat (length s)) (screencols E)); lia. }
  assert (Hfs : firstn (Z.to_nat l) (s ++ [0]) =
                firstn (Z.to_nat (screencols E)) s).
  { rewrite firstn_app_le by lia.
    destruct (Nat.le_gt_cases (Z.to_nat (screencols E)) (length s)).
    - f_equal. lia.
    - rewrite !firstn_all2 by lia. reflexivity. }
  rewrite length_firstn, <- Hl.
  set (sc := firstn (Z.to_nat (screencols E)) s) in *.
  assert (Hsc : Z.of_nat (length sc) = l).
  { subst sc. rewrite length_firstn. lia. }
  assert (Hal : Z.of_nat (length (aligned (screencols E) l r))
                = screencols E - l) by (apply aligned_length; lia).
  rewrite (abAppend_all ab (ESC :: bytes "[7m") 4)
    by (try reflexivity; try assumption; lia).
  rewrite (abAppend_push (ab_push ab (ESC :: bytes "[7m")) (s ++ [0]) l);
    try (now apply ab_push_wf);
    try (rewrite ?ab_push_len, ?length_app; cbn [bytes length]; lia).
  rewrite Hfs, ab_push_push.
  rewrite align_right_push;
    try (now apply ab_push_wf); try apply ab_push_touched;
    try (rewrite ?ab_push_len, ?length_app; cbn [bytes length]; lia).
  rewrite Nat2Z.id, firstn_app_le, firstn_all by lia.
  rewrite ab_push_push.
  rewrite (abAppend_all _ (ESC :: bytes "[m") 3);
    try reflexivity; try (now apply ab_push_wf);
    try (rewrite ?ab_push_len, ?length_app; cbn [bytes length app]; lia).
  rewrite (abAppend_all _ [CR; NEWLINE] 2);
    try reflexivity; try (now repeat apply ab_push_wf);
    try (rewrite ?ab_push_len, ?length_app; cbn [bytes length app]; lia).
  rewrite !ab_push_push, <- !app_assoc. reflexivity.
Qed.

(** X16. The status bar fills its line.  In a window of [screencols]
    columns, [editorDrawStatusBar] appends the reverse-video escape, a
    bar of exactly [screencols] bytes, the escape that ends reverse
    video, and CR LF.  The bar starts with the status text, cut to the
    window; when the status and the position both fit, the bar is the
    status, spaces, and the position [cy + 1 : cx + 1] ending at the
    right border; when they do not, the position is left out. *)
Theorem status_bar_fills_line :
  forall E ab,
    ab_wf ab -> 0 <= len ab -> 0 <= screencols E ->
    len ab + screencols E + 9 <= Int.INT_MAX ->
    exists bar,
      b (editorDrawStatusBar E ab) =
        b ab ++ (ESC :: bytes "[7m") ++ bar ++ (ESC :: bytes "[m") ++
        [CR; NEWLINE] /\
      Z.of_nat (length bar) = screencols E /\
      (let s := status_text E in
       let r := rstatus_text E in
       let gap := (Z.to_nat (screencols E) - length s - length r)%nat in
       if Z.of_nat (length s + length r) <=? screencols E
       then bar = s ++ repeat (chr " ") gap ++ r
       else bar = firstn (Z.to_nat (screencols E)) s ++
                  repeat (chr " ") (Z.to_nat (screencols E) - length s)).
Proof.
  intros E ab Hw H0 Hc Hroom. exists (status_bar E).
  rewrite editorDrawStatusBar_push by assumption.
  split; [reflexivity|]. split; [now apply status_bar_length|].
  cbv zeta. unfold status_bar, aligned. cbv zeta.
  rewrite length_firstn.
  set (s := status_text E). set (r := rstatus_text E).
  pose proof (rstatus_text_length E) as Hr. fold r in Hr.
  destruct (Z.leb_spec (Z.of_nat (length s + length r)) (screencols E)).
  - rewrite firstn_all2 by lia.
    replace (Nat.min (Z.to_nat (screencols E)) (length s))
      with (length s) by lia.
    destruct (Z.leb_spec (Z.of_nat (length r))
                (screencols E - Z.of_nat (length s))); [|lia].
    do 2 f_equal. f_equal. lia.
  - destruct (Z.leb_spec (Z.of_nat (length r))
                (screencols E -
                 Z.of_nat (Nat.min (Z.to_nat (screencols E)) (length s))));
      [lia|].
    do 2 f_equal. lia.
Qed.

Definition status_example : editorConfig :=
  Eval vm_compute in
    set_cy 2 (set_cx 7 (editorOpen (bytes "a.txt")
                          [bytes "one"; bytes "two"; bytes "three"]
                          (initEditor 24 40))).

Lemma status_bar_fills_line_witness :
  exists bar,
    b (editorDrawStatusBar status_example ABUF_INIT) =
      b ABUF_INIT ++ (ESC :: bytes "[7m") ++ bar ++ (ESC :: bytes "[m") ++
      [CR; NEWLINE] /\
    Z.of_nat (length bar) = 40 /\
    bar = bytes " NORMAL | a.txt | 3 lines" ++ repeat (chr " ") 11 ++
          bytes "3:8 ".
Proof.
  destruct (status_bar_fills_line status_example ABUF_INIT)
    as (bar & Hb & Hl & Hs).
  - reflexivity.
  - vm_compute. discriminate.
  - vm_compute. discriminate.
  - vm_compute. discriminate.
  - exists bar. split; [exact Hb|]. split; [exact Hl|]. exact Hs.
Defined.

(** ** The message bar *)

(** The bytes [abAppend(ab, rstatusmsg, rlen)] copies. *)
Definition count_shown (beyond : list Z) (E : editorConfig) : list Z :=
  firstn (length (count_text E)) (snprintf_buf 10 (count_text E) ++ beyond).

(** The message, cut to the window, and behind it the repeat count when
    there is one. *)
Definition message_bar (beyond : list Z) (E : editorConfig) : list Z :=
  let m := firstn (Z.to_nat (screencols E)) (c_string (statusmsg E)) in
  if cmdrep E =? 0 then m
  else m ++ aligned (screencols E) (Z.of_nat (length m))
              (count_shown beyond E).

Lemma count_text_length E : (2 <= length (count_text E) <= 12)%nat.
Proof.
  unfold count_text. rewrite length_app.
  pose proof (fmt_d_length (cmdrep E)). cbn [bytes length]. lia.
Qed.

Lemma count_shown_length beyond E :
  (length (count_text E) <= 9 \/ 2 <= length beyond)%nat ->
  length (count_shown beyond E) = length (count_text E).
Proof.
  intros H. pose proof (count_text_length E) as Hc.
  unfold count_shown, snprintf_buf.
  rewrite length_firstn, !length_app, length_firstn. cbn [length]. lia.
Qed.

Lemma editorDrawMessageBar_push beyond E ab :
  ab_wf ab -> 0 <= len ab -> 0 <= screencols E <= Int.INT_MAX ->
  len ab + screencols E + 3 <= Int.INT_MAX ->
  (length (count_text E) <= 9 \/ 2 <= length beyond)%nat ->
  editorDrawMessageBar beyond E ab =
  ab_push ab ((ESC :: bytes "[K") ++ message_bar beyond E).
Proof.
  intros Hw H0 Hc Hroom Hcount.
  pose proof (count_text_length E) as Hcl.
  pose proof (count_shown_length beyond E Hcount) as Hsh.
  unfold editorDrawMessageBar, message_bar, strlen. cbv zeta.
  rewrite c_string_nul.
  set (msg := c_string (statusmsg E)).
  set (l := if Z.of_nat (length msg) >? screencols E
            then screencols E else Z.of_nat (length msg)).
  assert (Hl : l = Z.of_nat (Nat.min (Z.to_nat (screencols E)) (length msg))).
  { subst l.
    destruct (Z.gtb_spec (Z.of_nat (length msg)) (screencols E)); lia. }
  assert (Hfs : firstn (Z.to_nat l) (statusmsg E ++ [0]) =
                firstn (Z.to_nat (screencols E)) msg).
  { rewrite c_string_firstn by (rewrite c_string_nul; fold msg; lia).
    rewrite c_string_nul. fold msg.
    destruct (Nat.le_gt_cases (Z.to_nat (screencols E)) (length msg)).
    - f_equal. lia.
    - rewrite !firstn_all2 by lia. reflexivity. }
  assert (Hmsg : (length msg <= length (statusmsg E ++ [0%Z]))%nat).
  { pose proof (c_string_firstn (statusmsg E ++ [0]) (length msg)) as Hp.
    rewrite c_string_nul in Hp. fold msg in Hp. specialize (Hp (le_n _)).
    rewrite firstn_all in Hp.
    rewrite <- Hp at 1. rewrite length_firstn. lia. }
  rewrite length_firstn, <- Hl.
  set (sc := firstn (Z.to_nat (screencols E)) msg) in *.
  assert (Hsc : Z.of_nat (length sc) = l).
  { subst sc. rewrite length_firstn. lia. }
  rewrite (abAppend_all ab (ESC :: bytes "[K") 3)
    by (try reflexivity; try assumption; lia).
  rewrite (abAppend_push (ab_push ab (ESC :: bytes "[K"))
             (statusmsg E ++ [0]) l);
    try (now apply ab_push_wf);
    try (rewrite ?ab_push_len; cbn [bytes length]; lia).
  rewrite Hfs, ab_push_push.
  destruct (cmdrep E =? 0); [reflexivity|].
  rewrite align_right_push;
    try (now apply ab_push_wf); try apply ab_push_touched;
    try (rewrite ?ab_push_len, ?length_app; cbn [bytes length]; lia).
  - rewrite Nat2Z.id, ab_push_push, <- app_assoc. reflexivity.
  - unfold count_shown in Hsh. rewrite length_firstn in Hsh. lia.
Qed.

Lemma message_bar_length beyond E :
  0 <= screencols E -> cmdrep E <> 0 ->
  Z.of_nat (length (message_bar beyond E)) = screencols E.
Proof.
  intros Hc Hrep. unfold message_bar. cbv zeta.
  destruct (Z.eqb_spec (cmdrep E) 0); [contradiction|].
  rewrite length_app, Nat2Z.inj_add, aligned_length.
  - lia.
  - rewrite length_firstn. lia.
Qed.

Lemma digits_length_ge fuel : forall k n acc,
  (k < fuel)%nat -> 10 ^ Z.of_nat k <= n ->
  (k + 1 + length acc <= length (digits fuel n acc))%nat.
Proof.
  induction fuel as [|fuel IH]; intros k n acc Hk Hn; [lia|].
  cbn [digits]. destruct k as [|k].
  - destruct (n / 10 =? 0); cbn [length]; [lia|].
    pose proof (digits_length fuel (n / 10) ((chr "0" + n mod 10) :: acc))
      as H. cbn [length] in H. lia.
  - assert (Hq : 10 ^ Z.of_nat k <= n / 10).
    { replace (Z.of_nat (S k)) with (Z.of_nat k + 1) in Hn by lia.
      rewrite Z.pow_add_r in Hn by lia. change (10 ^ 1) with 10 in Hn.
      apply Z.div_le_lower_bound; lia. }
    assert (Hpos : 0 < 10 ^ Z.of_nat k) by (apply Z.pow_pos_nonneg; lia).
    destruct (Z.eqb_spec (n / 10) 0); [lia|].
    specialize (IH k (n / 10) ((chr "0" + n mod 10) :: acc)
                  ltac:(lia) Hq).
    cbn [length] in IH. lia.
Qed.

(** X17. The message bar.  [editorDrawMessageBar] appends the clear-line
    escape and the status message up to its first NUL, cut to the
    window.  Without a repeat count that is all.  With a count between
    1 and 99999999 the bar has exactly [screencols] bytes, and when
    message and count both fit it is the message, spaces, and the count
    in decimal with a space behind it, ending at the right border. *)
Theorem message_bar_shows_count :
  forall beyond E ab,
    ab_wf ab -> 0 <= len ab -> 0 <= screencols E <= Int.INT_MAX ->
    len ab + screencols E + 3 <= Int.INT_MAX ->
    0 <= cmdrep E < 100000000 ->
    exists bar,
      b (editorDrawMessageBar beyond E ab) =
        b ab ++ (ESC :: bytes "[K") ++ bar /\
      let msg := c_string (statusmsg E) in
      let count := fmt_d (cmdrep E) ++ bytes " " in
      (cmdrep E = 0 -> bar = firstn (Z.to_nat (screencols E)) msg) /\
      (cmdrep E <> 0 ->
       Z.of_nat (length bar) = screencols E /\
       (Z.of_nat (length msg + length count) <= screencols E ->
        bar = msg ++
              repeat (chr " ")
                (Z.to_nat (screencols E) - length msg - length count) ++
              count)).
Proof.
  intros beyond E ab Hw H0 Hc Hroom Hrep.
  assert (Hcl : (length (count_text E) <= 9)%nat).
  { unfold count_text. rewrite length_app.
    pose proof (fmt_d_length_pow 8 (cmdrep E) ltac:(lia) Hrep).
    cbn [bytes length]. lia. }
  exists (message_bar beyond E).
  rewrite editorDrawMessageBar_push by (try assumption; now left).
  split; [reflexivity|]. cbv zeta. split.
  - intros Hz. unfold message_bar. rewrite Hz. reflexivity.
  - intros Hnz. split; [apply message_bar_length; lia|].
    intros Hfit. unfold message_bar. cbv zeta.
    destruct (Z.eqb_spec (cmdrep E) 0); [contradiction|].
    assert (Hshown : count_shown beyond E = count_text E).
    { unfold count_shown. rewrite snprintf_buf_fits by lia.
      rewrite <- app_assoc, firstn_app_le, firstn_all by lia.
      reflexivity. }
    rewrite Hshown. fold (count_text E) in *.
    set (msg := c_string (statusmsg E)) in *.
    rewrite firstn_all2 by lia. unfold aligned.
    destruct (Z.leb_spec (Z.of_nat (length (count_text E)))
                (screencols E - Z.of_nat (length msg))); [|lia].
    do 2 f_equal. f_equal. lia.
Qed.

Definition count_example : editorConfig :=
  Eval vm_compute in
    set_cmdrep 12 (editorSetStatusMsg (bytes "Welcome") (initEditor 24 20)).

Lemma message_bar_shows_count_witness :
  exists bar,
    b (editorDrawMessageBar [] count_example ABUF_INIT) =
      b ABUF_INIT ++ (ESC :: bytes "[K") ++ bar /\
    Z.of_nat (length bar) = 20 /\
    bar = bytes "Welcome" ++ repeat (chr " ") 10 ++ bytes "12 ".
Proof.
  destruct (message_bar_shows_count [] count_example ABUF_INIT)
    as (bar & Hb & _ & Hn).
  - reflexivity.
  - vm_compute. discriminate.
  - vm_compute. split; discriminate.
  - vm_compute. discriminate.
  - vm_compute. split; [discriminate|reflexivity].
  - exists bar. split; [exact Hb|].
    destruct (Hn ltac:(vm_compute; discriminate)) as (Hl & Hs).
    split; [exact Hl|]. apply Hs. vm_compute. discriminate.
Defined.

(** X18. A count of nine or ten digits does not fit [rstatusmsg].  The
    array has ten bytes, so [snprintf] keeps nine digits and a NUL, while
    [rlen] is the length of the whole text.  For a count of at least
    100000000, when message and count fit the window, the bar ends with
    the first nine digits, a NUL byte, and for a count of ten digits one
    byte from behind the array, in place of what is left of the count
    and the space behind it. *)
Theorem long_count_overruns :
  forall beyond E ab,
    ab_wf ab -> 0 <= len ab -> 0 <= screencols E <= Int.INT_MAX ->
    len ab + screencols E + 3 <= Int.INT_MAX ->
    100000000 <= cmdrep E ->
    (2 <= length beyond)%nat ->
    let msg := c_string (statusmsg E) in
    let digits_ := fmt_d (cmdrep E) in
    Z.of_nat (length msg + length digits_ + 1) <= screencols E ->
    (9 <= length digits_ <= 10)%nat /\
    b (editorDrawMessageBar beyond E ab) =
      b ab ++ (ESC :: bytes "[K") ++ msg ++
      repeat (chr " ")
        (Z.to_nat (screencols E) - length msg - length digits_ - 1) ++
      firstn 9 digits_ ++ [0] ++ firstn (length digits_ - 9) beyond.
Proof.
  intros beyond E ab Hw H0 Hc Hroom Hrep Hbey msg digits_ Hfit.
  assert (Hd : (9 <= length digits_ <= 10)%nat).
  { subst digits_. unfold fmt_d.
    destruct (Z.ltb_spec (cmdrep E) 0); [lia|].
    pose proof (digits_length_ge 10 8 (cmdrep E) [] ltac:(lia)
                  ltac:(change (10 ^ Z.of_nat 8) with 100000000; lia)).
    pose proof (digits_length 10 (cmdrep E) []).
    cbn [length] in *. lia. }
  split; [exact Hd|].
  rewrite editorDrawMessageBar_push by (try assumption; now right).
  cbn [b ab_push]. do 2 f_equal.
  unfold message_bar. cbv zeta.
  destruct (Z.eqb_spec (cmdrep E) 0); [lia|].
  fold msg. rewrite firstn_all2 by lia.
  assert (Hshown : count_shown beyond E =
                   firstn 9 digits_ ++ [0] ++
                   firstn (length digits_ - 9) beyond).
  { unfold count_shown, count_text, snprintf_buf. fold digits_.
    rewrite length_app. cbn [bytes length].
    change (10 - 1)%nat with 9%nat.
    rewrite (firstn_app_le digits_ _ 9) by lia.
    rewrite <- app_assoc.
    rewrite firstn_app, firstn_all2 by (rewrite length_firstn; lia).
    f_equal. rewrite length_firstn.
    replace (length digits_ + 1 - Nat.min 9 (length digits_))%nat
      with (S (length digits_ - 9)) by lia.
    reflexivity. }
  rewrite Hshown. unfold aligned.
  rewrite !length_app, length_firstn, length_firstn. cbn [length].
  match goal with
  | |- context [?x <=? ?y] => destruct (Z.leb_spec x y); [|lia]
  end.
  do 3 f_equal. lia.
Qed.

Definition long_count_example : editorConfig :=
  Eval vm_compute in
    set_cmdrep 123456789 (initEditor 24 20).

Lemma long_count_overruns_witness :
  b (editorDrawMessageBar [7; 7] long_count_example ABUF_INIT) =
  (ESC :: bytes "[K") ++ repeat (chr " ") 10 ++ bytes "123456789" ++ [0].
Proof.
  refine (proj2 (long_count_overruns [7; 7] long_count_example ABUF_INIT
                   _ _ _ _ _ _ _)).
  - reflexivity.
  - vm_compute. discriminate.
  - vm_compute. split; discriminate.
  - vm_compute. discriminate.
  - vm_compute. discriminate.
  - cbn [length]. lia.
  - vm_compute. discriminate.
Defined.

Definition rows_example : editorConfig :=
  Eval vm_compute in
    set_coloff 1 (editorOpen (bytes "a.txt")
                    [bytes "one"; TAB :: bytes "two"; bytes "three"]
                    (initEditor 6 8)).

Lemma text_area_lines_witness :
  b (editorDrawRows rows_example ABUF_INIT) =
  bytes "ne" ++ (ESC :: bytes "[K") ++ [CR; NEWLINE] ++
  bytes "   two" ++ (ESC :: bytes "[K") ++ [CR; NEWLINE] ++
  bytes "hree" ++ (ESC :: bytes "[K") ++ [CR; NEWLINE] ++
  bytes "~" ++ (ESC :: bytes "[K") ++ [CR; NEWLINE].
Proof.
  refine (proj1 (text_area_lines rows_example ABUF_INIT _ _ _ _ _)).
  - reflexivity.
  - vm_compute. discriminate.
  - split; [reflexivity|].
    repeat constructor; vm_compute; discriminate.
  - vm_compute. repeat split; discriminate.
  - vm_compute. discriminate.
Defined.

(** ** The frame of a refresh *)

Lemma cursor_text_length E : (length (cursor_text E) <= 26)%nat.
Proof.
  unfold cursor_text. rewrite !length_app.
  pose proof (fmt_d_length (Int.sub (Int.add (cy E) 1) (rowoff E))).
  pose proof (fmt_d_length (Int.sub (Int.add (rx E) 1) (coloff E))).
  cbn [bytes length]. lia.
Qed.

Lemma cursor_text_no_nul E : no_nul (cursor_text E).
Proof.
  unfold cursor_text.
  repeat apply no_nul_app; try apply fmt_d_no_nul; reflexivity.
Qed.

Lemma ab_push_written ab bs :
  ab_wf ab -> 0 <= len ab ->
  firstn (Z.to_nat (len (ab_push ab bs))) (b (ab_push ab bs)) = b ab ++ bs.
Proof.
  intros Hw H0. pose proof (ab_push_wf ab bs Hw) as Hp.
  unfold ab_wf in Hp. rewrite Hp, Nat2Z.id, firstn_all. reflexivity.
Qed.

(** The bytes of a frame, for a state that [editorScroll] has adjusted. *)
Definition frame_bytes (beyond : list Z) (E : editorConfig) : list Z :=
  (ESC :: bytes "[?25l") ++ (ESC :: bytes "[H") ++
  screen_lines E 0 (Z.to_nat (screenrows E)) ++
  ((ESC :: bytes "[7m") ++ status_bar E ++ (ESC :: bytes "[m") ++
   [CR; NEWLINE]) ++
  ((ESC :: bytes "[K") ++ message_bar beyond E) ++
  cursor_text E ++ (ESC :: bytes "[?25h").

Lemma message_bar_width beyond E :
  0 <= screencols E ->
  Z.of_nat (length (message_bar beyond E)) <= screencols E.
Proof.
  intros Hc. unfold message_bar. cbv zeta.
  destruct (Z.eqb_spec (cmdrep E) 0) as [Hz|Hz].
  - rewrite length_firstn. lia.
  - pose proof (message_bar_length beyond E Hc Hz) as Hl.
    unfold message_bar in Hl. cbv zeta in Hl.
    destruct (Z.eqb_spec (cmdrep E) 0); [contradiction|]. lia.
Qed.

Lemma compose_frame_push beyond E :
  rows_rendered E -> window_ok E ->
  (screenrows E + 2) * (screencols E + 5) + 64 <= Int.INT_MAX ->
  (length (count_text E) <= 9 \/ 2 <= length beyond)%nat ->
  compose_frame beyond E = frame_bytes beyond E.
Proof.
  intros Hr Hwin Hroom Hcount.
  pose proof Hwin as (Hsr & Hsc & _).
  pose proof (screen_lines_length E (Z.to_nat (screenrows E)) 0%nat
                ltac:(lia)) as Hlines.
  rewrite Z2Nat.id in Hlines by lia.
  rewrite Z.mul_add_distr_r in Hroom.
  assert (Hpos : 0 <= screenrows E * (screencols E + 5)) by nia.
  set (P := screenrows E * (screencols E + 5)) in *.
  pose proof (status_bar_length E ltac:(lia)) as Hsb.
  pose proof (message_bar_width beyond E ltac:(lia)) as Hmb.
  pose proof (cursor_text_length E) as Hct.
  unfold compose_frame, frame_bytes. cbv zeta.
  set (lines := screen_lines E 0 (Z.to_nat (screenrows E))) in *.
  rewrite (abAppend_all ABUF_INIT (ESC :: bytes "[?25l") 6)
    by (try reflexivity; cbn [len ABUF_INIT]; int_range; lia).
  rewrite (abAppend_all _ (ESC :: bytes "[H") 3);
    try reflexivity; try (now apply ab_push_wf);
    try (cbn; int_range; lia).
  rewrite ab_push_push.
  set (head := (ESC :: bytes "[?25l") ++ (ESC :: bytes "[H")).
  assert (Hhead : length head = 9%nat) by reflexivity.
  assert (Hw0 : ab_wf ABUF_INIT) by reflexivity.
  assert (H00 : len ABUF_INIT = 0) by reflexivity.
  rewrite editorDrawRows_push;
    try assumption; try (now apply ab_push_wf);
    try (left; apply ab_push_touched);
    try (rewrite ab_push_len, H00, Hhead; fold P; lia).
  fold lines. rewrite ab_push_push.
  rewrite editorDrawStatusBar_push;
    try (now apply ab_push_wf);
    try (rewrite ab_push_len, H00, !length_app, Hhead; lia); try lia.
  rewrite ab_push_push.
  set (bar := (ESC :: bytes "[7m") ++ status_bar E ++ (ESC :: bytes "[m") ++
              [CR; NEWLINE]).
  assert (Hbar : Z.of_nat (length bar) = screencols E + 9).
  { subst bar. rewrite !length_app. cbn [bytes length]. lia. }
  rewrite editorDrawMessageBar_push;
    try assumption; try (now apply ab_push_wf);
    try (rewrite ab_push_len, H00, !length_app, Hhead; lia); try lia.
  rewrite ab_push_push.
  set (msg := (ESC :: bytes "[K") ++ message_bar beyond E).
  assert (Hmsg : Z.of_nat (length msg) <= screencols E + 3).
  { subst msg. rewrite length_app. cbn [bytes length]. lia. }
  rewrite snprintf_buf_fits by lia.
  unfold strlen. rewrite c_string_no_nul by apply cursor_text_no_nul.
  rewrite (abAppend_push _ (cursor_text E ++ [0]));
    try (now apply ab_push_wf);
    try (rewrite ?ab_push_len, ?H00, !length_app, ?Hhead;
         cbn [length]; lia).
  rewrite Nat2Z.id, firstn_app_le, firstn_all by lia.
  rewrite ab_push_push.
  rewrite (abAppend_all _ (ESC :: bytes "[?25h") 6);
    try reflexivity; try (now apply ab_push_wf);
    try (rewrite ?ab_push_len, ?H00, !length_app, ?Hhead;
         cbn [length]; lia).
  rewrite ab_push_push, ab_push_written by (try assumption; lia).
  subst head bar msg. cbn [b ABUF_INIT].
  rewrite <- !app_assoc. cbn [app bytes]. rewrite <- ?app_assoc.
  reflexivity.
Qed.

(** A state [editorRefreshScreen] can draw: rows with their render, a
    cursor within the buffer, a window of at least one text row and one
    column whose frame fits an [int] length, and offsets that are not
    negative. *)
Definition frame_ready (E : editorConfig) : Prop :=
  rows_rendered E /\
  Forall (fun r => size r = Z.of_nat (length (chars r)) /\
                   NI_TAB_STOP * size r + screencols E <= Int.INT_MAX)
    (row E) /\
  cursor_ok E /\
  1 <= screenrows E /\ 1 <= screencols E /\
  0 <= rowoff E <= Int.INT_MAX /\ 0 <= coloff E <= Int.INT_MAX /\
  numrows E + screenrows E <= Int.INT_MAX /\
  (screenrows E + 2) * (screencols E + 5) + 64 <= Int.INT_MAX.

Lemma scroll_rx_bounds E :
  frame_ready E ->
  0 <= scroll_rx E /\ scroll_rx E + screencols E <= Int.INT_MAX.
Proof.
  intros ((Hn & _) & HF & (Hcy & Hcx) & Hsr & Hsc & _ & _ & _ & Hroom).
  assert (Hcm : screencols E <= Int.INT_MAX) by nia.
  unfold scroll_rx. destruct (Z.ltb_spec (cy E) (numrows E)); [|lia].
  rewrite rowlen_on_row in Hcx by assumption.
  rewrite Forall_forall in HF.
  destruct (HF (row_at E (cy E))) as (Hs & Hm).
  { unfold row_at. apply nth_In. lia. }
  set (r := row_at E (cy E)) in *.
  rewrite editorRowCxToRx_width by lia.
  pose proof (width_after_bounds (firstn (Z.to_nat (cx E)) (chars r)) 0
                ltac:(lia)) as Hb.
  rewrite length_firstn in Hb. unfold NI_TAB_STOP in *.
  specialize (Hb ltac:(lia)). lia.
Qed.

Lemma scrolled_window E :
  frame_ready E ->
  let Es := editorScroll E in
  rows_rendered Es /\ window_ok Es /\
  cmdrep Es = cmdrep E /\
  screenrows Es = screenrows E /\ screencols Es = screencols E /\
  (rowoff Es <= cy Es < rowoff Es + screenrows E) /\
  (coloff Es <= rx Es < coloff Es + screencols E) /\
  rx Es + screencols E <= Int.INT_MAX.
Proof.
  intros Hf. pose proof (scroll_rx_bounds E Hf) as (Hrx0 & Hrxm).
  destruct Hf as ((Hn & Hrd) & HF & (Hcy & Hcx) & Hsr & Hsc & Hro & Hco &
                  Hfit & Hroom).
  assert (Hcm : screencols E <= Int.INT_MAX) by nia.
  pose proof (editorScroll_fields E) as Hfld. cbv zeta in Hfld.
  destruct Hfld as (_ & _ & Hrep & _ & Hy & Hsr' & Hsc' & Hn' & Hrow & _ & _
                    & Hrx & Hro' & Hco').
  fold (scroll_rx E) in Hrx. rewrite Hrx in Hco'.
  cbv zeta. set (Es := editorScroll E) in *. clearbody Es.
  pose proof (clamp_offset_bounds (cy E) (rowoff E) (screenrows E)
                ltac:(lia) Hro Hsr ltac:(lia)) as Hb1.
  pose proof (clamp_offset_visible (cy E) (rowoff E) (screenrows E)
                ltac:(int_range; lia) ltac:(int_range; lia)
                ltac:(int_range; lia) Hsr) as Hv1.
  pose proof (clamp_offset_bounds (scroll_rx E) (coloff E) (screencols E)
                Hrx0 Hco Hsc Hrxm) as Hb2.
  pose proof (clamp_offset_visible (scroll_rx E) (coloff E) (screencols E)
                ltac:(int_range; lia) ltac:(int_range; lia)
                ltac:(int_range; lia) Hsc) as Hv2.
  rewrite <- Hro' in Hb1, Hv1. rewrite <- Hco' in Hb2, Hv2.
  rewrite <- Hrx in Hb2, Hv2.
  split; [|split].
  - unfold rows_rendered. rewrite Hn', Hrow. now split.
  - unfold window_ok. rewrite Hsr', Hsc'. int_range. lia.
  - assert (rx Es + screencols E <= Int.INT_MAX) by (rewrite Hrx; lia).
    rewrite Hy. tauto.
Qed.

(** The frame of a state that can be drawn. *)
Lemma refreshed :
  forall beyond E,
    frame_ready E ->
    (length (count_text E) <= 9 \/ 2 <= length beyond)%nat ->
    let Es := editorScroll E in
    let r := cy Es - rowoff Es + 1 in
    let c := rx Es - coloff Es + 1 in
    1 <= r <= screenrows E /\ 1 <= c <= screencols E /\
    editorRefreshScreen beyond E =
      (Es,
       (ESC :: bytes "[?25l") ++ (ESC :: bytes "[H") ++
       screen_lines Es 0 (Z.to_nat (screenrows E)) ++
       (ESC :: bytes "[7m") ++ status_bar Es ++ (ESC :: bytes "[m") ++
       [CR; NEWLINE] ++
       (ESC :: bytes "[K") ++ message_bar beyond Es ++
       (ESC :: bytes "[") ++ fmt_d r ++ bytes ";" ++ fmt_d c ++ bytes "H" ++
       (ESC :: bytes "[?25h")).
Proof.
  intros beyond E Hf Hcount.
  pose proof (scrolled_window E Hf) as Hs. cbv zeta in Hs.
  destruct Hs as (Hrd & Hwin & Hrep & Hsr & Hsc & Hrow & Hcol & Hrxm).
  assert (Hroom : (screenrows E + 2) * (screencols E + 5) + 64
                  <= Int.INT_MAX) by (unfold frame_ready in Hf; tauto).
  assert (Hcount' : (length (count_text (editorScroll E)) <= 9 \/
                     2 <= length beyond)%nat).
  { unfold count_text in *. now rewrite Hrep. }
  unfold editorRefreshScreen. cbv zeta.
  set (Es := editorScroll E) in *. clearbody Es.
  split; [lia|]. split; [lia|].
  rewrite compose_frame_push
    by (try assumption; rewrite Hsr, Hsc; exact Hroom).
  f_equal. unfold frame_bytes, cursor_text. rewrite Hsr.
  destruct Hwin as (_ & Hcols & Hro & Hfit & Hco & Hcm).
  rewrite Hsc in Hcols.
  rewrite !IntFacts.add_id by (int_range; lia).
  rewrite !IntFacts.sub_id by (int_range; lia).
  replace (cy Es + 1 - rowoff Es) with (cy Es - rowoff Es + 1) by lia.
  replace (rx Es + 1 - coloff Es) with (rx Es - coloff Es + 1) by lia.
  rewrite <- !app_assoc. cbn [app bytes]. rewrite <- ?app_assoc.
  reflexivity.
Qed.

(** X19. The frame of one refresh.  For a state with rendered rows, a
    cursor within the buffer and a window of at least one text row and
    one column, [editorRefreshScreen] adjusts the offsets and writes, in
    this order: hide cursor, home, [screenrows] text lines, the status
    bar, the message bar, the cursor position and show cursor.  The
    position it sends is [cy - rowoff + 1 ; rx - coloff + 1] of the
    adjusted state, a cell of the text area: the row is within
    [1, screenrows] and the column within [1, screencols]. *)
Theorem refresh_frame :
  forall beyond E,
    frame_ready E ->
    (length (count_text E) <= 9 \/ 2 <= length beyond)%nat ->
    let Es := editorScroll E in
    let r := cy Es - rowoff Es + 1 in
    let c := rx Es - coloff Es + 1 in
    1 <= r <= screenrows E /\ 1 <= c <= screencols E /\
    editorRefreshScreen beyond E =
      (Es,
       (ESC :: bytes "[?25l") ++ (ESC :: bytes "[H") ++
       screen_lines Es 0 (Z.to_nat (screenrows E)) ++
       (ESC :: bytes "[7m") ++ status_bar Es ++ (ESC :: bytes "[m") ++
       [CR; NEWLINE] ++
       (ESC :: bytes "[K") ++ message_bar beyond Es ++
       (ESC :: bytes "[") ++ fmt_d r ++ bytes ";" ++ fmt_d c ++ bytes "H" ++
       (ESC :: bytes "[?25h")).
Proof. exact refreshed. Qed.

Definition frame_example : editorConfig :=
  Eval vm_compute in
    set_cy 1 (set_cx 2 (editorSetStatusMsg (bytes "Welcome")
                          (editorOpen (bytes "a.txt")
                             [bytes "one"; TAB :: bytes "two"]
                             (initEditor 4 30)))).

Lemma refresh_frame_witness :
  snd (editorRefreshScreen [] frame_example) =
  (ESC :: bytes "[?25l") ++ (ESC :: bytes "[H") ++
  bytes "one" ++ (ESC :: bytes "[K") ++ [CR; NEWLINE] ++
  bytes "    two" ++ (ESC :: bytes "[K") ++ [CR; NEWLINE] ++
  (ESC :: bytes "[7m") ++
  bytes " NORMAL | a.txt | 2 lines 2:3 " ++
  (ESC :: bytes "[m") ++ [CR; NEWLINE] ++
  (ESC :: bytes "[K") ++ bytes "Welcome" ++
  (ESC :: bytes "[2;6H") ++ (ESC :: bytes "[?25h").
Proof.
  assert (Hready : frame_ready frame_example).
  { unfold frame_ready. split; [|split; [|split]].
    - split; [reflexivity|]. repeat constructor; vm_compute; discriminate.
    - repeat constructor; vm_compute; discriminate.
    - vm_compute. repeat split; discriminate.
    - vm_compute. repeat split; discriminate. }
  pose proof (proj2 (proj2 (refresh_frame [] frame_example Hready
                              ltac:(left; vm_compute; lia)))) as H.
  cbv zeta in H. rewrite H. vm_compute. reflexivity.
Defined.

(** ** The repeat count and the commands *)

Lemma cursor_switch_cmdrep n key E :
  cursor_switch key (set_cmdrep n E) = set_cmdrep n (cursor_switch key E).
Proof.
  destruct E. unfold cursor_switch, current_row, row_at. state_cbn.
  repeat break_if; reflexivity.
Qed.

Lemma snap_cursor_cmdrep n E :
  snap_cursor (set_cmdrep n E) = set_cmdrep n (snap_cursor E).
Proof.
  destruct E. unfold snap_cursor, rowlen, current_row, row_at. state_cbn.
  repeat break_if; reflexivity.
Qed.

Lemma editorMoveCursor_cmdrep n key E :
  editorMoveCursor key (set_cmdrep n E) =
  set_cmdrep n (editorMoveCursor key E).
Proof.
  unfold editorMoveCursor.
  now rewrite cursor_switch_cmdrep, snap_cursor_cmdrep.
Qed.

Lemma iter_move_cmdrep n key k : forall E,
  Nat.iter k (editorMoveCursor key) (set_cmdrep n E) =
  set_cmdrep n (Nat.iter k (editorMoveCursor key) E).
Proof.
  induction k as [|k IH]; intros E; [reflexivity|].
  rewrite !Nat.iter_succ, IH. apply editorMoveCursor_cmdrep.
Qed.

Lemma page_move_cmdrep n c E :
  page_move c (set_cmdrep n E) = set_cmdrep n (page_move c E).
Proof.
  unfold page_move, while_times. cbv zeta.
  match goal with
  | |- Nat.iter _ _ ?A = set_cmdrep n (Nat.iter _ _ ?B) =>
      assert (H1 : A = set_cmdrep n B)
        by (destruct E; state_red; repeat break_if; reflexivity);
      rewrite H1;
      change (screenrows (set_cmdrep n B)) with (screenrows B);
      apply iter_move_cmdrep
  end.
Qed.

Lemma normal_switch_cmdrep n c E :
  normal_switch c (set_cmdrep n E) =
  match normal_switch c E with
  | Running E' => Running (set_cmdrep n E')
  | Exited out status => Exited out status
  end.
Proof.
  unfold normal_switch.
  rewrite page_move_cmdrep, editorMoveCursor_cmdrep.
  destruct E. unfold editorExit, editorSetStatusMsg, row_at. state_cbn.
  repeat break_if; reflexivity.
Qed.

(** X20. The repeat count repeats nothing.  In normal mode a key that is
    no digit does the same with a pending count as without one: the
    count is shown in the message bar and reset by the key, and the
    command, a motion among them, runs once. *)
Theorem count_is_ignored :
  forall beyond c n E,
    mode E = NORMAL_MODE ->
    c < chr "0" \/ chr "9" < c ->
    editorProcessKeypress beyond c (set_cmdrep n E) =
    editorProcessKeypress beyond c E.
Proof.
  intros beyond c n E Hm Hc. unfold editorProcessKeypress.
  change (mode (set_cmdrep n E)) with (mode E). rewrite Hm.
  assert (Hd : forall E0, is_count_digit c E0 = false).
  { intros E0. unfold is_count_digit. chr_norm. chr_norm.
    destruct (Z.leb_spec c 57); [|reflexivity].
    destruct (Z.geb_spec c 49); [lia|].
    destruct (Z.geb_spec c 48); [lia|].
    cbn [andb orb]. now rewrite andb_false_r. }
  rewrite !Hd, normal_switch_cmdrep.
  destruct (normal_switch c E) as [E'|out status]; [|reflexivity].
  destruct E'; reflexivity.
Qed.

Lemma count_is_ignored_witness :
  editorProcessKeypress [] (chr "j") (set_cmdrep 5 status_example) =
  editorProcessKeypress [] (chr "j") status_example.
Proof.
  apply (count_is_ignored [] (chr "j") 5 status_example).
  - reflexivity.
  - right. vm_compute. reflexivity.
Defined.

(** * The loop of [main] *)

(** [while (1) { editorRefreshScreen(); editorProcessKeypress(); }]: one
    round for each step, which holds the stack bytes behind [rstatusmsg]
    of that refresh and the key [editorReadKey] returns.  The result is
    the frames written, in order, and where the run stands: in a state,
    at its exit, or, when a key has misused the block of the command
    buffer, nowhere that C defines, and there the run of the model ends. *)
Fixpoint run (beyond : list Z) (steps : list (list Z * Z))
    (E : editorConfig) : list (list Z) * option outcome :=
  match steps with
  | [] => ([], Some (Running E))
  | (stack, c) :: steps' =>
      match editorProcessKeypress beyond c
              (fst (editorRefreshScreen stack E)) with
      | Running E' =>
          match blk (cmdbuf E') with
          | Misused => ([snd (editorRefreshScreen stack E)], None)
          | _ =>
              (snd (editorRefreshScreen stack E)
                 :: fst (run beyond steps' E'),
               snd (run beyond steps' E'))
          end
      | Exited out status =>
          ([snd (editorRefreshScreen stack E)], Some (Exited out status))
      end
  end.

(** A frame that hides the cursor, homes it, draws, and shows the cursor
    again in a cell of a text area of [rows] by [cols]. *)
Definition cursor_in_text_area (rows cols : Z) (frame : list Z) : Prop :=
  exists body r c,
    frame = (ESC :: bytes "[?25l") ++ (ESC :: bytes "[H") ++ body ++
            (ESC :: bytes "[") ++ fmt_d r ++ bytes ";" ++ fmt_d c ++
            bytes "H" ++ (ESC :: bytes "[?25h") /\
    1 <= r <= rows /\ 1 <= c <= cols.

Lemma run_cons beyond stack c steps E :
  run beyond ((stack, c) :: steps) E =
  match editorProcessKeypress beyond c (editorScroll E) with
  | Running E' =>
      match blk (cmdbuf E') with
      | Misused => ([compose_frame stack (editorScroll E)], None)
      | _ =>
          (compose_frame stack (editorScroll E)
             :: fst (run beyond steps E'),
           snd (run beyond steps E'))
      end
  | Exited out status =>
      ([compose_frame stack (editorScroll E)], Some (Exited out status))
  end.
Proof. reflexivity. Qed.

Lemma frame_ready_loop_ok E : frame_ready E -> loop_ok E.
Proof.
  intros ((Hn & Hrd) & HF & Hc & Hsr & Hsc & Hro & Hco & Hfit & Hroom).
  assert (Hsz : Forall (fun r => 0 <= size r <= Int.INT_MAX) (row E)).
  { rewrite Forall_forall in *. intros r Hr.
    destruct (HF r Hr) as (Hs & Hm). unfold NI_TAB_STOP in Hm. lia. }
  unfold loop_ok, rows_ok.
  split; [split; [exact Hn|split; [lia|exact Hsz]]|].
  split; [exact Hc|]. lia.
Qed.

Lemma frame_ready_step beyond c E :
  frame_ready E ->
  match editorProcessKeypress beyond c (editorScroll E) with
  | Running E' =>
      frame_ready E' /\ screenrows E' = screenrows E /\
      screencols E' = screencols E
  | Exited _ _ => True
  end.
Proof.
  intros Hf. pose proof (frame_ready_loop_ok E Hf) as Hl.
  pose proof (scrolled_window E Hf) as Hs. cbv zeta in Hs.
  destruct Hs as ((Hn & Hrd) & Hwin & _ & Hsr & Hsc & _).
  destruct (editorScroll_viewport E Hl)
    as ((Hr & Hc & _ & _ & _) & Hv & _).
  pose proof (editorProcessKeypress_ok beyond c (editorScroll E) Hr Hc
                (fun _ _ => Hv)) as Hok.
  pose proof (keypress_frame beyond c (editorScroll E)) as Hk.
  pose proof (editorScroll_fields E) as Hfld. cbv zeta in Hfld.
  destruct Hfld as (_ & _ & _ & _ & _ & _ & _ & Hn' & Hrow & _).
  destruct Hf as (_ & HF & _ & Hsr1 & Hsc1 & _ & _ & Hfit & Hroom).
  destruct Hwin as (_ & _ & Hro0 & Hrofit & Hco0).
  set (Es := editorScroll E) in *. clearbody Es.
  destruct (editorProcessKeypress beyond c Es) as [E'|out status];
    [|exact I].
  destruct Hok as (Hc' & Hr').
  destruct Hk as (Hkn & Hkr & _ & Hksr & Hksc & Hkro & Hkco & _).
  split; [|split; congruence].
  unfold frame_ready, rows_rendered.
  rewrite Hkn, Hkr, Hksr, Hksc, Hkro, Hkco, Hn', Hrow, Hsr, Hsc.
  rewrite Hn', Hrow in Hn. rewrite Hrow in Hrd.
  rewrite Hsr in Hrofit.
  repeat split; try assumption; try lia;
    unfold cursor_ok in Hc'; tauto.
Qed.

Lemma run_frames beyond steps : forall E,
  frame_ready E ->
  Forall (fun st => (2 <= length (fst st))%nat) steps ->
  Forall (cursor_in_text_area (screenrows E) (screencols E))
    (fst (run beyond steps E)) /\
  (length (fst (run beyond steps E)) <= length steps)%nat /\
  match snd (run beyond steps E) with
  | Some (Running _) => length (fst (run beyond steps E)) = length steps
  | Some (Exited _ _) | None => True
  end.
Proof.
  induction steps as [|(stack, c) steps IH]; intros E Hf Hst.
  - cbn [run fst snd length]. split; [constructor|].
    split; [lia|reflexivity].
  - inversion Hst as [|st sts Hst1 Hst2]; subst. cbn [fst] in Hst1.
    rewrite run_cons.
    pose proof (refreshed stack E Hf (or_intror Hst1)) as Hfr.
    cbv zeta in Hfr. destruct Hfr as (Hr & Hc & Heq).
    unfold editorRefreshScreen in Heq.
    pose proof (frame_ready_step beyond c E Hf) as Hstep.
    assert (Hframe : cursor_in_text_area (screenrows E) (screencols E)
                       (compose_frame stack (editorScroll E))).
    { set (Es := editorScroll E) in *. clearbody Es.
      injection Heq as Heq. rewrite Heq.
      eexists (screen_lines Es 0 (Z.to_nat (screenrows E)) ++
               (ESC :: bytes "[7m") ++ status_bar Es ++
               (ESC :: bytes "[m") ++ [CR; NEWLINE] ++
               (ESC :: bytes "[K") ++ message_bar stack Es), _, _.
      split; [|split; [exact Hr|exact Hc]].
      rewrite <- !app_assoc. reflexivity. }
    set (Es := editorScroll E) in *. clearbody Es.
    destruct (editorProcessKeypress beyond c Es) as [E'|out status].
    + destruct Hstep as (Hf' & Hsr & Hsc).
      destruct (IH E' Hf' Hst2) as (Hall & Hlen & Hrun).
      rewrite Hsr, Hsc in Hall.
      assert (Hone : Forall
                (cursor_in_text_area (screenrows E) (screencols E))
                [compose_frame stack Es]) by (repeat constructor; exact Hframe).
      destruct (blk (cmdbuf E')); cbn [fst snd length];
        try (split; [exact Hone|]; split; [lia|exact I]);
        (split; [constructor; assumption|]; split; [lia|];
         destruct (snd (run beyond steps E')) as [[?|? ?]|];
         [lia|exact I|exact I]).
    + cbn [fst snd length]. split; [repeat constructor; exact Hframe|].
      split; [lia|exact I].
Qed.

(** ** From the start of the program *)

Lemma append_rows_fields lines : forall E,
  let E' := fold_left (fun E0 s => editorAppendRow s E0) lines E in
  row E' = row E ++ map new_row lines /\
  screenrows E' = screenrows E /\
  screencols E' = screencols E /\ coloff E' = coloff E.
Proof.
  induction lines as [|s lines IH]; intros E; cbv zeta; cbn [fold_left map].
  - now rewrite app_nil_r.
  - specialize (IH (editorAppendRow s E)). cbv zeta in IH.
    destruct IH as (Hr & Hs & Hc & Ho). rewrite Hr, Hs, Hc, Ho.
    unfold editorAppendRow. state_cbn. rewrite <- app_assoc.
    repeat split.
Qed.

Lemma new_row_ready s cols :
  0 <= cols ->
  NI_TAB_STOP * Z.of_nat (length s) + cols <= Int.INT_MAX ->
  (rsize (new_row s) = Z.of_nat (length (render (new_row s))) /\
   rsize (new_row s) <= Int.INT_MAX) /\
  size (new_row s) = Z.of_nat (length (chars (new_row s))) /\
  NI_TAB_STOP * size (new_row s) + cols <= Int.INT_MAX.
Proof.
  intros Hc Hm. unfold new_row.
  set (r := {| size := Z.of_nat (length s); rsize := 0; chars := s;
               render := [] |}).
  assert (Hw : row_wf r) by (unfold row_wf; cbn [size chars r]; lia).
  destruct (editorUpdateRow_spec r Hw) as (out & -> & Hl & _).
  assert (He : editorRowCxToRx r (size r) = width_after s 0).
  { rewrite editorRowCxToRx_width by (cbn [chars size r]; lia).
    cbn [chars size r]. now rewrite Nat2Z.id, firstn_all. }
  rewrite He in *. cbn [rsize render size chars r].
  pose proof (width_after_bounds s 0 ltac:(lia) ltac:(lia)) as Hb.
  unfold NI_TAB_STOP in *. repeat split; lia.
Qed.

Lemma startup_fields ws_row ws_col file :
  let E := startup ws_row ws_col file in
  screenrows E = Int.sub ws_row 2 /\ screencols E = ws_col /\
  coloff E = 0 /\
  row E = map new_row match file with
                      | Some (_, lines) => lines
                      | None => []
                      end.
Proof.
  cbv zeta. unfold startup. cbv zeta. unfold editorSetStatusMsg.
  destruct file as [(fname, lines)|]; [|repeat split].
  unfold editorOpen.
  pose proof (append_rows_fields lines
                (set_filename (Some fname) (initEditor ws_row ws_col)))
    as Ha. cbv zeta in Ha. destruct Ha as (Ha & Hs & Hb & Hc0).
  state_cbn. rewrite Ha, Hs, Hb, Hc0. repeat split.
Qed.

Lemma startup_frame_ready ws_row ws_col file :
  3 <= ws_row <= 65535 -> 1 <= ws_col ->
  ws_row * (ws_col + 5) + 64 <= Int.INT_MAX ->
  match file with
  | Some (_, lines) =>
      Z.of_nat (length lines) + ws_row <= Int.INT_MAX /\
      Forall (fun s => NI_TAB_STOP * Z.of_nat (length s) + ws_col
                       <= Int.INT_MAX) lines
  | None => True
  end ->
  frame_ready (startup ws_row ws_col file) /\
  screenrows (startup ws_row ws_col file) = ws_row - 2 /\
  screencols (startup ws_row ws_col file) = ws_col.
Proof.
  intros Hr Hc Hroom Hfile.
  assert (Hloop : loop_ok (startup ws_row ws_col file)).
  { apply startup_loop_ok; [exact Hr|].
    destruct file as [(fname, lines)|]; [|exact I].
    destruct Hfile as (Hlen & Hall). split; [exact Hlen|].
    eapply Forall_impl; [|exact Hall]. cbv beta. intros s Hsz.
    unfold NI_TAB_STOP in Hsz. lia. }
  pose proof (startup_fields ws_row ws_col file) as Hflds.
  cbv zeta in Hflds. destruct Hflds as (Hsr & Hsc & Hco & Hrw).
  rewrite IntFacts.sub_id in Hsr by (int_range; lia).
  assert (Hall : Forall (fun s => NI_TAB_STOP * Z.of_nat (length s) + ws_col
                                  <= Int.INT_MAX)
                   match file with
                   | Some (_, lines) => lines
                   | None => []
                   end).
  { destruct file as [(fname, lines)|]; [tauto|constructor]. }
  set (E := startup ws_row ws_col file) in *. clearbody E.
  set (lines := match file with Some (_, l) => l | None => [] end) in *.
  clearbody lines.
  destruct Hloop as ((Hn & _) & Hcur & _ & Hro & Hfit).
  split; [|split; assumption].
  assert (Hready : forall r, In r (row E) ->
            (rsize r = Z.of_nat (length (render r)) /\
             rsize r <= Int.INT_MAX) /\
            size r = Z.of_nat (length (chars r)) /\
            NI_TAB_STOP * size r + ws_col <= Int.INT_MAX).
  { intros r Hin. rewrite Hrw in Hin.
    apply in_map_iff in Hin. destruct Hin as (s & <- & Hin).
    rewrite Forall_forall in Hall.
    apply (new_row_ready s ws_col); [lia|]. now apply Hall. }
  unfold frame_ready, rows_rendered. rewrite Hsc, Hco, Hsr.
  replace (ws_row - 2 + 2) with ws_row by lia.
  split; [split; [exact Hn|]|].
  { rewrite Forall_forall. intros r Hin. now apply Hready. }
  split.
  { rewrite Forall_forall. intros r Hin. now apply Hready. }
  split; [exact Hcur|]. rewrite Hsr in Hfit.
  repeat split; try assumption; try (int_range; lia).
Qed.

(** X21. Every frame of a run keeps the cursor in the text area.  Start
    the editor in a window of [3 <= ws_row <= 65535] lines and
    [ws_col >= 1] columns whose frame fits an [int] length, with no file
    or a file whose lines, tabs expanded, stay within the [int]s.
    Whatever keys follow, in whatever mode they arrive, each round of the
    loop of [main] writes one frame before it reads its key, up to the
    key that ends the process or misuses the block of the command
    buffer, and every such frame hides the cursor, homes it, draws, and
    then shows the cursor at a position [r ; c] with
    [1 <= r <= ws_row - 2] and [1 <= c <= ws_col]: never on the status
    bar or the message bar, and never outside the window.  When the keys
    run out with the editor still running, there is one frame for each
    key. *)
Theorem every_frame_cursor_in_text_area :
  forall beyond steps ws_row ws_col file,
    3 <= ws_row <= 65535 -> 1 <= ws_col ->
    ws_row * (ws_col + 5) + 64 <= Int.INT_MAX ->
    match file with
    | Some (_, lines) =>
        Z.of_nat (length lines) + ws_row <= Int.INT_MAX /\
        Forall (fun s => NI_TAB_STOP * Z.of_nat (length s) + ws_col
                         <= Int.INT_MAX) lines
    | None => True
    end ->
    Forall (fun st => (2 <= length (fst st))%nat) steps ->
    Forall (cursor_in_text_area (ws_row - 2) ws_col)
      (fst (run beyond steps (startup ws_row ws_col file))) /\
    (length (fst (run beyond steps (startup ws_row ws_col file)))
     <= length steps)%nat /\
    match snd (run beyond steps (startup ws_row ws_col file)) with
    | Some (Running _) =>
        length (fst (run beyond steps (startup ws_row ws_col file))) =
        length steps
    | Some (Exited _ _) | None => True
    end.
Proof.
  intros beyond steps ws_row ws_col file Hr Hc Hroom Hfile Hst.
  destruct (startup_frame_ready ws_row ws_col file Hr Hc Hroom Hfile)
    as (Hf & Hsr & Hsc).
  set (E := startup ws_row ws_col file) in *. clearbody E.
  destruct (run_frames beyond steps E Hf Hst) as (Hall & Hlen & Hrun).
  rewrite Hsr, Hsc in Hall. split; [exact Hall|].
  split; [exact Hlen|exact Hrun].
Qed.

Definition run_example_steps : list (list Z * Z) :=
  [([0; 0], chr "j"); ([0; 0], chr "$"); ([0; 0], PAGE_DOWN)].

Definition run_example_file : option (list Z * list (list Z)) :=
  Some (bytes "a.txt", [bytes "one"; TAB :: bytes "two"]).

Lemma every_frame_cursor_in_text_area_witness :
  Forall (cursor_in_text_area (24 - 2) 80)
    (fst (run [] run_example_steps (startup 24 80 run_example_file))).
Proof.
  assert (H1 : 3 <= 24 <= 65535) by lia.
  assert (H2 : 1 <= 80) by lia.
  assert (H3 : 24 * (80 + 5) + 64 <= Int.INT_MAX)
    by (vm_compute; discriminate).
  assert (H4 : Z.of_nat (length [bytes "one"; TAB :: bytes "two"]) + 24
               <= Int.INT_MAX /\
               Forall (fun s => NI_TAB_STOP * Z.of_nat (length s) + 80
                                <= Int.INT_MAX)
                 [bytes "one"; TAB :: bytes "two"]).
  { split; [vm_compute; discriminate|].
    repeat constructor; vm_compute; discriminate. }
  assert (H5 : Forall (fun st : list Z * Z => (2 <= length (fst st))%nat)
                 run_example_steps) by (repeat constructor).
  pose proof (every_frame_cursor_in_text_area [] run_example_steps 24 80
                run_example_file H1 H2 H3 H4 H5) as H.
  destruct H as (H & _). exact H.
Defined.

(** The run of the keys [:x<ESC>:<ESC>j] from the start: the second ESC
    frees the block of the command buffer a second time, and the run
    ends there, five frames written. *)
Lemma run_ends_at_second_escape :
  let steps := map (fun c => ([0; 0], c))
                 [chr ":"; chr "x"; ESC; chr ":"; ESC; chr "j"] in
  snd (run [] steps (startup 24 80 None)) = None /\
  length (fst (run [] steps (startup 24 80 None))) = 5%nat.
Proof. vm_compute. split; reflexivity. Qed.
